(** * get_device_vulnerabilities.py: pagination, streaming and retry loop

    A shallow embedding of the script [get_device_vulnerabilities.py]
    (Vision One ASRM [vulnerableDevices] fetcher) and the properties its
    specification states about it.

    - [Json]: decoded JSON values, the compact serializer [dumps_bytes]
      (the [json.dumps(obj, ensure_ascii=False, separators=(',', ':'))]
      definition of the script; [orjson.dumps], which the script prefers
      when it is installed, is not modelled), the indenting writer of
      [json.dump(..., indent=2)], and a reader for RFC 8259 texts, against
      which "the file is one well-formed JSON array" is stated.
    - [Py]: exceptions, the I/O trace, the process, the environment and
      the world of a run, the reader of [json.load], and the
      state-and-exception monad the script is written in.
    - [Script]: [_auth_header], [_fmt_secs], [_session], [fetch_page],
      [stream_all] and [main], statement by statement, and the script as
      a program: the module-level assignments ([load_module]), then
      [main()].  The two [while True] loops take fuel; [OutOfFuel] is the
      outcome of a run that needs more.
    - [Spec]: the vocabulary of the properties, and concrete runs.
    - [JsonFacts], [Logic], [ScriptFacts]: lemmas on the readers, on the
      monad and on the functions of the script.
    - [Properties]: the properties of the specification on the token
      check, pagination, the retries, the exit status and the reformat
      step (C1, C4 to C10).
    - [TextFacts], [FetchFacts], [StreamFacts]: lemmas on the two texts of
      a value, on the attempts of [fetch_page] and on the loop against any
      server.
    - [Output]: the file against the pages fetched (C2, C3).
    - [Behaviour]: further properties of the code, X1 to X24: its error
      and edge behaviour, what it keeps and what it never does. *)

From Stdlib Require Import List String Ascii Bool Arith ZArith NArith QArith Qround Lia.
From Stdlib Require Decimal DecimalFacts DecimalString DecimalZ.
Import ListNotations.

Set Implicit Arguments.
Unset Strict Implicit.
Set Warnings "-register-all".

#[local] Close Scope Q_scope.
#[local] Open Scope list_scope.

(** ** Bytes *)

Definition bytes := list ascii.

(** The bytes of an ASCII literal. *)
Definition b (s : string) : bytes := list_ascii_of_string s.

Definition NL : ascii := "010"%char.
Definition DQUOTE : ascii := "034"%char.
Definition BSLASH : ascii := "092"%char.

(** [sep.join(parts)]. *)
Fixpoint join (sep : bytes) (parts : list bytes) : bytes :=
  match parts with
  | [] => []
  | [p] => p
  | p :: ps => p ++ sep ++ join sep ps
  end.

Module Json.

(** ** Decoded JSON values

    What [resp.json()] returns.  A Python [str] is represented by its UTF-8
    bytes (so strings holding lone surrogates are outside the model), an
    [int] by a [Z], and a [float] by the text [json.dumps] emits for it
    ([JFloat]): its [repr] when it is finite, and [Infinity], [-Infinity]
    or [NaN] when it is not (a body that holds [1e999] is read as [inf]).
    A [dict] is the list of its items in insertion order. *)
Inductive json : Type :=
| JNull
| JBool (v : bool)
| JInt (z : Z)
| JFloat (lit : string)
| JStr (s : string)
| JArr (l : list json)
| JObj (m : list (string * json)).

Section JsonInd.
Variable P : json -> Prop.
Hypothesis Hnull : P JNull.
Hypothesis Hbool : forall v, P (JBool v).
Hypothesis Hint : forall z, P (JInt z).
Hypothesis Hfloat : forall lit, P (JFloat lit).
Hypothesis Hstr : forall s, P (JStr s).
Hypothesis Harr : forall l, Forall P l -> P (JArr l).
Hypothesis Hobj : forall m, Forall (fun kv => P (snd kv)) m -> P (JObj m).

Fixpoint json_rect' (v : json) : P v :=
  match v with
  | JNull => Hnull
  | JBool x => Hbool x
  | JInt z => Hint z
  | JFloat lit => Hfloat lit
  | JStr s => Hstr s
  | JArr l =>
      Harr ((fix go (l : list json) : Forall P l :=
               match l with
               | [] => Forall_nil P
               | x :: r => Forall_cons x (json_rect' x) (go r)
               end) l)
  | JObj m =>
      Hobj ((fix go (m : list (string * json))
               : Forall (fun kv => P (snd kv)) m :=
               match m with
               | [] => Forall_nil _
               | kv :: r =>
                   Forall_cons (P := fun kv => P (snd kv)) kv
                     (json_rect' (snd kv)) (go r)
               end) m)
  end.
End JsonInd.

(** ** Number literals (RFC 8259, section 6) *)

Definition is_digit (c : ascii) : bool :=
  let n := N_of_ascii c in ((48 <=? n) && (n <=? 57))%N.

Definition is_numchar (c : ascii) : bool :=
  is_digit c || Ascii.eqb c "-" || Ascii.eqb c "+" || Ascii.eqb c "."
  || Ascii.eqb c "e" || Ascii.eqb c "E".

Inductive num_state :=
| NStart | NMinus | NZero | NInt | NDot | NFrac | NE | NESign | NExp.

Definition num_step (st : num_state) (c : ascii) : option num_state :=
  match st with
  | NStart =>
      if Ascii.eqb c "-" then Some NMinus
      else if Ascii.eqb c "0" then Some NZero
      else if is_digit c then Some NInt else None
  | NMinus =>
      if Ascii.eqb c "0" then Some NZero
      else if is_digit c then Some NInt else None
  | NZero =>
      if Ascii.eqb c "." then Some NDot
      else if Ascii.eqb c "e" || Ascii.eqb c "E" then Some NE else None
  | NInt =>
      if is_digit c then Some NInt
      else if Ascii.eqb c "." then Some NDot
      else if Ascii.eqb c "e" || Ascii.eqb c "E" then Some NE else None
  | NDot => if is_digit c then Some NFrac else None
  | NFrac =>
      if is_digit c then Some NFrac
      else if Ascii.eqb c "e" || Ascii.eqb c "E" then Some NE else None
  | NE =>
      if Ascii.eqb c "-" || Ascii.eqb c "+" then Some NESign
      else if is_digit c then Some NExp else None
  | NESign => if is_digit c then Some NExp else None
  | NExp => if is_digit c then Some NExp else None
  end.

Definition num_final (st : num_state) : bool :=
  match st with
  | NZero | NInt | NFrac | NExp => true
  | _ => false
  end.

Fixpoint num_run (st : num_state) (l : bytes) : bool :=
  match l with
  | [] => num_final st
  | c :: r => match num_step st c with
              | Some st' => num_run st' r
              | None => false
              end
  end.

(** [valid_number l]: [l] is a JSON number. *)
Definition valid_number (l : bytes) : bool := num_run NStart l.

(** A number with a fraction or an exponent: what Python reads as a
    [float]. *)
Definition is_float_lit (l : bytes) : bool :=
  existsb (fun c => Ascii.eqb c "." || Ascii.eqb c "e" || Ascii.eqb c "E") l.

(** [wf v]: every float of [v] is finite, as far as its text tells: the
    text is a JSON number with a fraction or an exponent, which the [repr]
    of every finite [float] is, and none of [Infinity], [-Infinity] and
    [NaN].  The predicate does not single out the [repr]s: it also holds
    of numbers that no [float] has as [repr], so that what is proved of
    every [wf] value holds of every value whose floats are finite. *)
Fixpoint wf (v : json) : bool :=
  match v with
  | JFloat lit =>
      valid_number (list_ascii_of_string lit)
      && is_float_lit (list_ascii_of_string lit)
  | JArr l => forallb wf l
  | JObj m => forallb (fun kv => match kv with (_, x) => wf x end) m
  | _ => true
  end.

(** ** [dumps_bytes]: compact serialization *)

Definition hex_digit (n : N) : ascii :=
  ascii_of_N (if (n <? 10)%N then 48 + n else 87 + n).

(** [json.encoder.ESCAPE_DCT], applied to every character matched by
    [ESCAPE] ([ensure_ascii=False]). *)
Definition escape_char (c : ascii) : bytes :=
  let n := N_of_ascii c in
  if (n =? 34)%N then [BSLASH; DQUOTE]
  else if (n =? 92)%N then [BSLASH; BSLASH]
  else if (n =? 10)%N then [BSLASH; "n"%char]
  else if (n =? 13)%N then [BSLASH; "r"%char]
  else if (n =? 9)%N then [BSLASH; "t"%char]
  else if (n =? 8)%N then [BSLASH; "b"%char]
  else if (n =? 12)%N then [BSLASH; "f"%char]
  else if (n <? 32)%N then
    [BSLASH; "u"%char; "0"%char; "0"%char;
     hex_digit (n / 16); hex_digit (n mod 16)]
  else [c].

Fixpoint escape (l : bytes) : bytes :=
  match l with
  | [] => []
  | c :: r => escape_char c ++ escape r
  end.

Definition encode_str (s : string) : bytes :=
  DQUOTE :: escape (list_ascii_of_string s) ++ [DQUOTE].

Definition encode_int (z : Z) : bytes :=
  list_ascii_of_string (DecimalString.NilZero.string_of_int (Z.to_int z)).

(** [dumps_bytes(obj)], the definition used when [orjson] is absent:
    [json.dumps(obj, ensure_ascii=False, separators=(',', ':')).encode("utf-8")]. *)
Fixpoint dumps_bytes (v : json) : bytes :=
  match v with
  | JNull => b "null"
  | JBool true => b "true"
  | JBool false => b "false"
  | JInt z => encode_int z
  | JFloat lit => list_ascii_of_string lit
  | JStr s => encode_str s
  | JArr l => "["%char :: join [","%char] (map dumps_bytes l) ++ ["]"%char]
  | JObj m =>
      "{"%char
        :: join [","%char]
             (map (fun kv => match kv with
                             | (k, x) => encode_str k ++ ":"%char :: dumps_bytes x
                             end) m)
        ++ ["}"%char]
  end.

(** ** [json.dump(data, f, ensure_ascii=False, indent=2)] *)

Definition newline_indent (lvl : nat) : bytes := NL :: repeat " "%char (2 * lvl).

Fixpoint pretty (lvl : nat) (v : json) : bytes :=
  match v with
  | JArr [] => b "[]"
  | JArr l =>
      "["%char :: newline_indent (S lvl)
        ++ join (","%char :: newline_indent (S lvl)) (map (pretty (S lvl)) l)
        ++ newline_indent lvl ++ ["]"%char]
  | JObj [] => b "{}"
  | JObj m =>
      "{"%char :: newline_indent (S lvl)
        ++ join (","%char :: newline_indent (S lvl))
             (map (fun kv => match kv with
                             | (k, x) =>
                                 encode_str k ++ ":"%char :: " "%char
                                   :: pretty (S lvl) x
                             end) m)
        ++ newline_indent lvl ++ ["}"%char]
  | _ => dumps_bytes v
  end.

(** ** Reading JSON text (RFC 8259)

    The reader is the yardstick for "the file is one well-formed JSON
    array": [loads s = Some v] when the whole of [s] is one JSON text
    denoting [v]. *)

Definition is_ws (c : ascii) : bool :=
  let n := N_of_ascii c in
  ((n =? 32) || (n =? 9) || (n =? 10) || (n =? 13))%N.

Fixpoint skip_ws (s : bytes) : bytes :=
  match s with
  | c :: r => if is_ws c then skip_ws r else s
  | [] => []
  end.

Fixpoint span (p : ascii -> bool) (s : bytes) : bytes * bytes :=
  match s with
  | c :: r =>
      if p c then let (a, t) := span p r in (c :: a, t) else ([], s)
  | [] => ([], [])
  end.

Definition hex_val (c : ascii) : option N :=
  let n := N_of_ascii c in
  if ((48 <=? n) && (n <=? 57))%N then Some (n - 48)%N
  else if ((97 <=? n) && (n <=? 102))%N then Some (n - 87)%N
  else if ((65 <=? n) && (n <=? 70))%N then Some (n - 55)%N
  else None.

Definition hex4 (h1 h2 h3 h4 : ascii) : option N :=
  match hex_val h1, hex_val h2, hex_val h3, hex_val h4 with
  | Some a, Some b', Some c, Some d =>
      Some (((a * 16 + b') * 16 + c) * 16 + d)%N
  | _, _, _, _ => None
  end.

(** The UTF-8 encoding of a code point. *)
Definition utf8 (cp : N) : bytes :=
  (if cp <? 128 then [ascii_of_N cp]
   else if cp <? 2048 then
     [ascii_of_N (192 + cp / 64); ascii_of_N (128 + cp mod 64)]
   else if cp <? 65536 then
     [ascii_of_N (224 + cp / 4096); ascii_of_N (128 + (cp / 64) mod 64);
      ascii_of_N (128 + cp mod 64)]
   else
     [ascii_of_N (240 + cp / 262144); ascii_of_N (128 + (cp / 4096) mod 64);
      ascii_of_N (128 + (cp / 64) mod 64); ascii_of_N (128 + cp mod 64)])%N.

Definition simple_escape (e : ascii) : option ascii :=
  if Ascii.eqb e DQUOTE then Some DQUOTE
  else if Ascii.eqb e BSLASH then Some BSLASH
  else if Ascii.eqb e "/" then Some "/"%char
  else if Ascii.eqb e "b" then Some "008"%char
  else if Ascii.eqb e "f" then Some "012"%char
  else if Ascii.eqb e "n" then Some NL
  else if Ascii.eqb e "r" then Some "013"%char
  else if Ascii.eqb e "t" then Some "009"%char
  else None.

Definition prepend (pre : bytes) (r : option (bytes * bytes))
  : option (bytes * bytes) :=
  match r with
  | Some (cs, rest) => Some (pre ++ cs, rest)
  | None => None
  end.

(** The characters of a string, read after its opening quote, and what
    follows its closing quote. *)
Fixpoint read_str (s : bytes) : option (bytes * bytes) :=
  match s with
  | [] => None
  | c :: r =>
      if Ascii.eqb c DQUOTE then Some ([], r)
      else if Ascii.eqb c BSLASH then
        match r with
        | [] => None
        | e :: r1 =>
            if Ascii.eqb e "u" then
              match r1 with
              | h1 :: h2 :: h3 :: h4 :: r2 =>
                  match hex4 h1 h2 h3 h4 with
                  | None => None
                  | Some cp =>
                      if ((55296 <=? cp) && (cp <? 56320))%N then
                        match r2 with
                        | e1 :: e2 :: l1 :: l2 :: l3 :: l4 :: r3 =>
                            if Ascii.eqb e1 BSLASH && Ascii.eqb e2 "u" then
                              match hex4 l1 l2 l3 l4 with
                              | None => None
                              | Some lo =>
                                  if ((56320 <=? lo) && (lo <? 57344))%N then
                                    prepend
                                      (utf8 (65536 + (cp - 55296) * 1024
                                             + (lo - 56320))%N)
                                      (read_str r3)
                                  else None
                              end
                            else None
                        | _ => None
                        end
                      else if ((56320 <=? cp) && (cp <? 57344))%N then None
                      else prepend (utf8 cp) (read_str r2)
                  end
              | _ => None
              end
            else
              match simple_escape e with
              | Some c' => prepend [c'] (read_str r1)
              | None => None
              end
        end
      else if (N_of_ascii c <? 32)%N then None
      else prepend [c] (read_str r)
  end.

Definition num_of_lit (lit : bytes) : option json :=
  if valid_number lit then
    if is_float_lit lit then Some (JFloat (string_of_list_ascii lit))
    else match DecimalString.NilZero.int_of_string (string_of_list_ascii lit) with
         | Some d => Some (JInt (Z.of_int d))
         | None => None
         end
  else None.

Fixpoint strip_prefix (lit s : bytes) : option bytes :=
  match lit, s with
  | [], _ => Some s
  | c :: l, d :: t => if Ascii.eqb c d then strip_prefix l t else None
  | _ :: _, [] => None
  end.

Definition expect (lit : bytes) (v : json) (s : bytes) : option (json * bytes) :=
  match strip_prefix lit s with
  | Some t => Some (v, t)
  | None => None
  end.

Fixpoint parse_value (fuel : nat) (s : bytes) : option (json * bytes) :=
  match fuel with
  | O => None
  | S n =>
      match skip_ws s with
      | [] => None
      | c :: r =>
          if Ascii.eqb c "[" then
            match skip_ws r with
            | c' :: r' =>
                if Ascii.eqb c' "]" then Some (JArr [], r')
                else match parse_elems n r with
                     | Some (l, t) => Some (JArr l, t)
                     | None => None
                     end
            | [] => None
            end
          else if Ascii.eqb c "{" then
            match skip_ws r with
            | c' :: r' =>
                if Ascii.eqb c' "}" then Some (JObj [], r')
                else match parse_members n r with
                     | Some (m, t) => Some (JObj m, t)
                     | None => None
                     end
            | [] => None
            end
          else if Ascii.eqb c DQUOTE then
            match read_str r with
            | Some (cs, t) => Some (JStr (string_of_list_ascii cs), t)
            | None => None
            end
          else if Ascii.eqb c "t" then expect (b "true") (JBool true) (c :: r)
          else if Ascii.eqb c "f" then expect (b "false") (JBool false) (c :: r)
          else if Ascii.eqb c "n" then expect (b "null") JNull (c :: r)
          else
            let (lit, t) := span is_numchar (c :: r) in
            match num_of_lit lit with
            | Some v => Some (v, t)
            | None => None
            end
      end
  end

with parse_elems (fuel : nat) (s : bytes) : option (list json * bytes) :=
  match fuel with
  | O => None
  | S n =>
      match parse_value n s with
      | None => None
      | Some (v, r) =>
          match skip_ws r with
          | c :: r' =>
              if Ascii.eqb c "," then
                match parse_elems n r' with
                | Some (vs, t) => Some (v :: vs, t)
                | None => None
                end
              else if Ascii.eqb c "]" then Some ([v], r')
              else None
          | [] => None
          end
      end
  end

with parse_members (fuel : nat) (s : bytes)
  : option (list (string * json) * bytes) :=
  match fuel with
  | O => None
  | S n =>
      match skip_ws s with
      | q :: r0 =>
          if Ascii.eqb q DQUOTE then
            match read_str r0 with
            | None => None
            | Some (k, r1) =>
                match skip_ws r1 with
                | c1 :: r2 =>
                    if Ascii.eqb c1 ":" then
                      match parse_value n r2 with
                      | None => None
                      | Some (v, r3) =>
                          match skip_ws r3 with
                          | c :: r' =>
                              if Ascii.eqb c "," then
                                match parse_members n r' with
                                | Some (m, t) =>
                                    Some ((string_of_list_ascii k, v) :: m, t)
                                | None => None
                                end
                              else if Ascii.eqb c "}" then
                                Some ([(string_of_list_ascii k, v)], r')
                              else None
                          | [] => None
                          end
                      end
                    else None
                | [] => None
                end
            end
          else None
      | [] => None
      end
  end.

(** [loads s]: the value of the JSON text [s]; [None] when [s] is not
    exactly one JSON text. *)
Definition loads (s : bytes) : option json :=
  match parse_value (S (List.length s)) s with
  | Some (v, r) => match skip_ws r with
                   | [] => Some v
                   | _ :: _ => None
                   end
  | None => None
  end.

End Json.

Module Py.

Import Json.

(** ** Python values the script computes with *)

(** A [float] used as a duration: a rational when finite. *)
Inductive pyfloat : Type :=
| Finite (q : Q)
| NaN
| Inf (negative : bool).

(** Subclasses of [Exception]. [RequestException cls] stands for
    [requests.RequestException] and its subclasses other than
    [HTTPError]. *)
Inductive exception : Type :=
| RequestException (cls : string)
| HTTPError (status : Z)
| ValueError
| TypeError
| AttributeError
| ZeroDivisionError
| OverflowError
| OSError
| OtherError (cls : string).

(** What a [raise] carries: [SystemExit] derives from [BaseException],
    not from [Exception]. *)
Inductive exn : Type :=
| SystemExit (code : Z)
| Exc (e : exception).

(** [isinstance(e, requests.RequestException)]. *)
Definition is_RequestException (e : exception) : bool :=
  match e with
  | RequestException _ | HTTPError _ => true
  | _ => false
  end.

(** ** Requests and responses *)

Definition params_t := list (string * Z).

Record request : Type := {
  req_headers : list (string * string);
  req_url : json;
  req_params : option params_t
}.

Record response : Type := {
  status_code : Z;
  headers_get : string -> option string;   (* resp.headers.get(name) *)
  json_body : exception + json             (* resp.json(), decoded *)
}.

(** ** The I/O trace *)

Inductive message : Type :=
| MStart (base : string) (top : Z) (out : string)
| MRequestError (e : exception) (attempt : Z) (sleep_s : pyfloat)
| MHttpRetry (status : Z) (attempt : Z) (sleep_s : pyfloat)
| MPage (pages added total : Z)
| MDone (pages total : Z) (api_total : json)
| MReformatting
| MReformatWarning (e : exception)
| MSkipPretty
| MWrote (out : string)
| MTokenError
| MFailed (e : exception).

Inductive event : Type :=
| EGet (rq : request) (res : exception + response)   (* session.get and its outcome *)
| ESleep (d : pyfloat)                               (* time.sleep(d) *)
| EOut (m : message)                                 (* print(...) *)
| EErr (m : message).                                (* print(..., file=sys.stderr) *)

(** ** The environment of one run

    What the functions of the script read once the module is loaded: the
    globals the module-level assignments set from the process environment
    ([load_module] computes them), the clock, the server, the two library
    functions whose results depend on their argument, and the faults the
    reformat step can meet. *)
Record env : Type := {
  getenv_token : option string;                   (* os.getenv("TM_API_TOKEN") *)
  PAGE_SIZE : Z;
  LOG_EVERY : Z;
  COMPACT_OUTPUT : bool;
  ts_local : string;                              (* datetime.now().strftime("%Y%m%d_%H%M") *)
  net : nat -> request -> exception + response;   (* outcome of the n-th session.get *)
  py_float : string -> option pyfloat;            (* float(s); None: ValueError *)
  sleep_error : pyfloat -> option exception;      (* what time.sleep(d) raises *)
  load_fault : option exception;                  (* reading the file back fails *)
  reopen_fault : option exception;                (* open(out_path, "w") fails *)
  dump_fault : option (nat * exception)           (* json.dump fails after n bytes *)
}.

(** ** The process

    What the interpreter finds when it runs the script: whether the
    imports succeed, the environment variables, two methods of [str]
    whose results depend on their argument, and what the functions of the
    script read later on ([surroundings]: of this [env] the clock, the
    server, the library functions and the faults are used, its four
    globals are not). *)
Record process : Type := {
  import_fault : option exception;       (* what an import of lines 10-17 raises *)
  os_getenv : string -> option string;   (* os.getenv(name) *)
  py_int : string -> option Z;           (* int(s); None: ValueError *)
  py_lower : string -> string;           (* s.lower() *)
  surroundings : env
}.

(** ** The world: what a run changes *)
Record world : Type := {
  trace : list event;                 (* oldest first *)
  gets : nat;                         (* session.get calls so far *)
  fs : string -> option bytes         (* files of the working directory *)
}.

Definition world0 : world :=
  {| trace := []; gets := 0; fs := fun _ => None |}.

(** ** The monad of the script *)

Inductive outcome (A : Type) : Type :=
| Ret (a : A)
| Raise (e : exn)
| OutOfFuel.
Arguments Raise {A} e.
Arguments OutOfFuel {A}.

Definition M (A : Type) : Type := world -> outcome A * world.

Definition ret {A} (a : A) : M A := fun w => (Ret a, w).
Definition raise {A} (e : exn) : M A := fun w => (Raise e, w).
Definition out_of_fuel {A} : M A := fun w => (OutOfFuel, w).

Definition bind {A B} (m : M A) (k : A -> M B) : M B :=
  fun w =>
    match m w with
    | (Ret a, w') => k a w'
    | (Raise e, w') => (Raise e, w')
    | (OutOfFuel, w') => (OutOfFuel, w')
    end.

(** [try: m  except <filter> as e: handler e  else: normal]. *)
Definition try_except {A B} (m : M A) (filter : exception -> bool)
    (handler : exception -> M B) (normal : A -> M B) : M B :=
  fun w =>
    match m w with
    | (Ret a, w') => normal a w'
    | (Raise (Exc e), w') =>
        if filter e then handler e w' else (Raise (Exc e), w')
    | (Raise (SystemExit c), w') => (Raise (SystemExit c), w')
    | (OutOfFuel, w') => (OutOfFuel, w')
    end.

Definition emit (ev : event) : M unit :=
  fun w => (Ret tt, {| trace := trace w ++ [ev]; gets := gets w; fs := fs w |}).

Definition print (m : message) : M unit := emit (EOut m).
Definition print_stderr (m : message) : M unit := emit (EErr m).

Definition lift {A} (r : exception + A) : M A :=
  match r with
  | inl e => raise (Exc e)
  | inr a => ret a
  end.

(** ** Built-ins *)

(** The float whose text is [lit] is zero: it has digits before the
    exponent, all of them [0] ([inf] and [nan] have none). *)
Definition float_is_zero (lit : bytes) : bool :=
  let mantissa :=
    fst (span (fun c => negb (Ascii.eqb c "e" || Ascii.eqb c "E")) lit) in
  existsb is_digit mantissa
  && forallb (fun c => negb (is_digit c) || Ascii.eqb c "0") mantissa.

(** [bool(v)], which [not v] negates. *)
Definition truthy (v : json) : bool :=
  match v with
  | JNull => false
  | JBool x => x
  | JInt z => negb (z =? 0)%Z
  | JFloat lit => negb (float_is_zero (list_ascii_of_string lit))
  | JStr s => negb (String.eqb s "")
  | JArr l => match l with [] => false | _ :: _ => true end
  | JObj m => match m with [] => false | _ :: _ => true end
  end.

(** The value of key [k] in a dict (its keys are distinct). *)
Fixpoint lookup (k : string) (m : list (string * json)) : option json :=
  match m with
  | [] => None
  | (k', v) :: r => if String.eqb k k' then Some v else lookup k r
  end.

(** [d.get(k, default)]; only a [dict] has [get]. *)
Definition py_get (d : json) (k : string) (default : json) : exception + json :=
  match d with
  | JObj m => inr (match lookup k m with Some v => v | None => default end)
  | _ => inl AttributeError
  end.

(** The characters of a string held as UTF-8: a byte [10xxxxxx] continues
    the character before it. *)
Definition is_continuation (c : ascii) : bool :=
  let n := N_of_ascii c in ((128 <=? n) && (n <? 192))%N.

Fixpoint utf8_chars (l : bytes) : list bytes :=
  match l with
  | [] => []
  | c :: r =>
      match utf8_chars r with
      | (d :: ch) :: chs =>
          if is_continuation d then (c :: d :: ch) :: chs
          else [c] :: (d :: ch) :: chs
      | chs => [c] :: chs
      end
  end.

(** [list(v)], as a [for] loop walks it: the elements of a list, the
    characters of a string, the keys of a dict; nothing else is iterable. *)
Definition py_iter (v : json) : exception + list json :=
  match v with
  | JArr l => inr l
  | JStr s =>
      inr (map (fun ch => JStr (string_of_list_ascii ch))
             (utf8_chars (list_ascii_of_string s)))
  | JObj m => inr (map (fun kv => JStr (fst kv)) m)
  | _ => inl TypeError
  end.

(** ** The reader of [json.load]

    Python's reader follows RFC 8259 and, where a value is expected, also
    takes [NaN], [Infinity] and [-Infinity], the texts [json.dumps] writes
    for the floats that are not finite. *)
Fixpoint load_value (fuel : nat) (s : bytes) : option (json * bytes) :=
  match fuel with
  | O => None
  | S n =>
      match skip_ws s with
      | [] => None
      | c :: r =>
          if Ascii.eqb c "[" then
            match skip_ws r with
            | c' :: r' =>
                if Ascii.eqb c' "]" then Some (JArr [], r')
                else match load_elems n r with
                     | Some (l, t) => Some (JArr l, t)
                     | None => None
                     end
            | [] => None
            end
          else if Ascii.eqb c "{" then
            match skip_ws r with
            | c' :: r' =>
                if Ascii.eqb c' "}" then Some (JObj [], r')
                else match load_members n r with
                     | Some (m, t) => Some (JObj m, t)
                     | None => None
                     end
            | [] => None
            end
          else if Ascii.eqb c DQUOTE then
            match read_str r with
            | Some (cs, t) => Some (JStr (string_of_list_ascii cs), t)
            | None => None
            end
          else if Ascii.eqb c "t" then expect (b "true") (JBool true) (c :: r)
          else if Ascii.eqb c "f" then expect (b "false") (JBool false) (c :: r)
          else if Ascii.eqb c "n" then expect (b "null") JNull (c :: r)
          else if Ascii.eqb c "N" then expect (b "NaN") (JFloat "NaN") (c :: r)
          else if Ascii.eqb c "I"
          then expect (b "Infinity") (JFloat "Infinity") (c :: r)
          else
            match strip_prefix (b "-Infinity") (c :: r) with
            | Some t => Some (JFloat "-Infinity", t)
            | None =>
                let (lit, t) := span is_numchar (c :: r) in
                match num_of_lit lit with
                | Some v => Some (v, t)
                | None => None
                end
            end
      end
  end

with load_elems (fuel : nat) (s : bytes) : option (list json * bytes) :=
  match fuel with
  | O => None
  | S n =>
      match load_value n s with
      | None => None
      | Some (v, r) =>
          match skip_ws r with
          | c :: r' =>
              if Ascii.eqb c "," then
                match load_elems n r' with
                | Some (vs, t) => Some (v :: vs, t)
                | None => None
                end
              else if Ascii.eqb c "]" then Some ([v], r')
              else None
          | [] => None
          end
      end
  end

with load_members (fuel : nat) (s : bytes)
  : option (list (string * json) * bytes) :=
  match fuel with
  | O => None
  | S n =>
      match skip_ws s with
      | q :: r0 =>
          if Ascii.eqb q DQUOTE then
            match read_str r0 with
            | None => None
            | Some (k, r1) =>
                match skip_ws r1 with
                | c1 :: r2 =>
                    if Ascii.eqb c1 ":" then
                      match load_value n r2 with
                      | None => None
                      | Some (v, r3) =>
                          match skip_ws r3 with
                          | c :: r' =>
                              if Ascii.eqb c "," then
                                match load_members n r' with
                                | Some (m, t) =>
                                    Some ((string_of_list_ascii k, v) :: m, t)
                                | None => None
                                end
                              else if Ascii.eqb c "}" then
                                Some ([(string_of_list_ascii k, v)], r')
                              else None
                          | [] => None
                          end
                      end
                    else None
                | [] => None
                end
            end
          else None
      | [] => None
      end
  end.

(** [json.loads(s)]; [None]: [JSONDecodeError], a [ValueError].  A number
    is kept as its text, which for a text [json.dumps] wrote is again what
    [json.dumps] writes for the number read. *)
Definition json_loads (s : bytes) : option json :=
  match load_value (S (List.length s)) s with
  | Some (v, r) => match skip_ws r with
                   | [] => Some v
                   | _ :: _ => None
                   end
  | None => None
  end.

(** [ch.isspace()] for one character, given by its UTF-8 bytes: the
    white space of Unicode, which is U+0009 to U+000D, U+001C to U+0020,
    U+0085, U+00A0, U+1680, U+2000 to U+200A, U+2028, U+2029, U+202F,
    U+205F and U+3000. *)
Definition is_space (ch : bytes) : bool :=
  match map N_of_ascii ch with
  | [n] => ((n =? 32) || ((9 <=? n) && (n <=? 13))
            || ((28 <=? n) && (n <=? 31)))%N
  | [194; n] => ((n =? 133) || (n =? 160))%N
  | [225; 154; 128] => true
  | [226; 128; n] =>
      (((128 <=? n) && (n <=? 138)) || (n =? 168) || (n =? 169)
       || (n =? 175))%N
  | [226; 129; 159] => true
  | [227; 128; 128] => true
  | _ => false
  end%N.

(** The characters left when the white space in front is dropped. *)
Fixpoint lstrip (chs : list bytes) : list bytes :=
  match chs with
  | ch :: r => if is_space ch then lstrip r else chs
  | [] => []
  end.

(** [s.strip()]: the white space at both ends is dropped. *)
Definition strip (s : string) : string :=
  string_of_list_ascii
    (List.concat
       (rev (lstrip (rev (lstrip (utf8_chars (list_ascii_of_string s))))))).

(** The value of header [k] of a session. *)
Fixpoint lookup_header (k : string) (h : list (string * string))
  : option string :=
  match h with
  | [] => None
  | (k', v) :: r => if String.eqb k k' then Some v else lookup_header k r
  end.

(** [resp.raise_for_status()]. *)
Definition raise_for_status (r : response) : M unit :=
  if ((400 <=? status_code r) && (status_code r <? 600))%Z
  then raise (Exc (HTTPError (status_code r)))
  else ret tt.

(** ** Numbers as text *)

(** [str(z)], which [f"{z}"] prints for an [int]. *)
Definition str_int (z : Z) : string :=
  DecimalString.NilZero.string_of_int (Z.to_int z).

(** [f"{z:02d}"]: at least two characters, a zero making up for a missing
    one. *)
Definition fmt_02d (z : Z) : string :=
  if ((0 <=? z) && (z <? 10))%Z then String "0" (str_int z) else str_int z.

(** [x < n], a [float] against an [int]; [Inf true] is minus infinity. *)
Definition float_lt_int (x : pyfloat) (n : Z) : bool :=
  match x with
  | Finite q => negb (Qle_bool (inject_Z n) q)
  | NaN => false
  | Inf negative => negative
  end.

(** [int(x)]: the fraction is dropped (rounding toward zero). *)
Definition int_of_float (x : pyfloat) : exception + Z :=
  match x with
  | Finite q => inr (Z.quot (Qnum q) (Zpos (Qden q)))
  | NaN => inl ValueError
  | Inf _ => inl OverflowError
  end.

(** The integer nearest to [n / d], for [0 <= n] and [0 < d]; of two equally
    near the even one. *)
Definition round_half_even (n d : Z) : Z :=
  let fl := (n / d)%Z in
  let r := (n mod d)%Z in
  if (2 * r <? d)%Z then fl
  else if (d <? 2 * r)%Z then (fl + 1)%Z
  else if Z.even fl then fl else (fl + 1)%Z.

(** [f"{x:.1f}"]: the decimal with one digit after the point that is
    nearest to the value of [x], with the sign of [x]. ([Finite] does not
    tell [-0.0] from [0.0]; the script formats differences of clock
    readings, which are never [-0.0].) *)
Definition fmt_1f (x : pyfloat) : string :=
  match x with
  | Finite q =>
      let t := round_half_even (Z.abs (Qnum q) * 10) (Zpos (Qden q)) in
      ((if (Qnum q <? 0)%Z then "-" else "")
         ++ str_int (t / 10) ++ "." ++ str_int (t mod 10))%string
  | NaN => "nan"%string
  | Inf negative => if negative then "-inf"%string else "inf"%string
  end.

(** ** Files *)

Definition fs_set(path : string) (c : bytes) (w : world) : world :=
  {| trace := trace w; gets := gets w;
     fs := fun p => if String.eqb p path then Some c else fs w p |}.

(** [open(path, "wb")] and [open(path, "w")]: the file is created or
    truncated. *)
Definition f_open_w (path : string) : M unit :=
  fun w => (Ret tt, fs_set path [] w).

(** [f.write(data)]. *)
Definition f_write (path : string) (data : bytes) : M unit :=
  fun w =>
    (Ret tt,
     fs_set path (match fs w path with Some c => c | None => [] end ++ data) w).

End Py.

Module Script.

Import Json Py.

Notation "x <- m ;; k" := (bind m (fun x => k))
  (at level 61, m at next level, right associativity).
Notation "m ;; k" := (bind m (fun _ => k))
  (at level 61, right associativity).

Definition BASE_URL : string :=
  "https://api.xdr.trendmicro.com/v3.0/asrm/vulnerableDevices".
Definition TIMEOUT_SECS : Z := 20.
Definition MAX_RETRIES : Z := 5.
(** [1.5]; its powers up to [MAX_RETRIES] are exact in binary floating
    point, so the rational is the float. *)
Definition BACKOFF_BASE : Q := (3 # 2)%Q.

Definition DEFAULT_TOKEN : string := "<API key here>".
Definition PLACEHOLDER : string := "<PUT_YOUR_BEARER_TOKEN_HERE>".

Section WithEnv.

Variable E : env.

(** [TOKEN = os.getenv("TM_API_TOKEN") or "<API key here>"]. *)
Definition TOKEN : string :=
  match getenv_token E with
  | Some s => if String.eqb s "" then DEFAULT_TOKEN else s
  | None => DEFAULT_TOKEN
  end.

(** Line 39: [not TOKEN or TOKEN.strip() == "<PUT_YOUR_BEARER_TOKEN_HERE>"]. *)
Definition token_rejected : bool :=
  String.eqb TOKEN "" || String.eqb (strip TOKEN) PLACEHOLDER.

Definition _auth_header : M string :=
  if token_rejected then
    print_stderr MTokenError ;;
    raise (SystemExit 1)
  else ret ("Bearer " ++ TOKEN)%string.

(** Lines 44-51: a duration in seconds as text. *)
Definition _fmt_secs (s : pyfloat) : exception + string :=
  if float_lt_int s 60 then inr (fmt_1f s ++ "s")%string
  else
    match int_of_float s with
    | inl e => inl e
    | inr n =>
        let m := (n / 60)%Z in
        let sec := (n mod 60)%Z in
        if (m <? 60)%Z then
          inr (str_int m ++ "m" ++ fmt_02d sec ++ "s")%string
        else
          let h := (m / 60)%Z in
          let m := (m mod 60)%Z in
          inr (str_int h ++ "h" ++ fmt_02d m ++ "m" ++ fmt_02d sec ++ "s")%string
    end.

(** The session is its headers; pool sizes and [max_retries=0] of the
    adapter do not show in the model. *)
Definition _session : M (list (string * string)) :=
  auth <- _auth_header ;;
  ret [("Accept", "application/json");
       ("Authorization", auth);
       ("Accept-Encoding", "gzip, deflate, br");
       ("Connection", "keep-alive");
       ("User-Agent", "VisionOne-DeviceVuln-Fetcher/1.0")]%string.

(** [session.get(url, params=params, timeout=TIMEOUT_SECS, stream=True)]. *)
Definition session_get (session : list (string * string)) (url : json)
    (params : option params_t) : M response :=
  fun w =>
    let rq := {| req_headers := session; req_url := url; req_params := params |} in
    let res := net E (gets w) rq in
    let w' := {| trace := trace w ++ [EGet rq res];
                 gets := S (gets w); fs := fs w |} in
    match res with
    | inl e => (Raise (Exc e), w')
    | inr r => (Ret r, w')
    end.

(** [time.sleep(d)]. *)
Definition time_sleep (d : pyfloat) : M unit :=
  emit (ESleep d) ;;
  match sleep_error E d with
  | Some e => raise (Exc e)
  | None => ret tt
  end.

(** [BACKOFF_BASE ** attempt]. *)
Definition backoff (attempt : Z) : pyfloat := Finite (BACKOFF_BASE ^ attempt)%Q.

(** [status in (429, 500, 502, 503, 504)]. *)
Definition retryable (status : Z) : bool :=
  ((status =? 429) || (status =? 500) || (status =? 502)
   || (status =? 503) || (status =? 504))%Z.

(** Lines 95-99: the delay after a retryable status. *)
Definition retry_sleep (resp : response) (attempt : Z) : pyfloat :=
  match headers_get resp "Retry-After" with
  | Some retry_after =>
      if negb (String.eqb retry_after "") then
        match py_float E retry_after with
        | Some v => v
        | None => backoff attempt
        end
      else backoff attempt
  | None => backoff attempt
  end.

(** The [while True] of [fetch_page]; [attempt] is its counter. *)
Fixpoint fetch_loop (fuel : nat) (session : list (string * string))
    (url : json) (params : option params_t) (attempt : Z) : M json :=
  match fuel with
  | O => out_of_fuel
  | S fuel' =>
      try_except (session_get session url params) is_RequestException
        (fun e =>
           let attempt := (attempt + 1)%Z in
           if (attempt >? MAX_RETRIES)%Z then raise (Exc e)
           else
             let sleep_s := backoff attempt in
             print (MRequestError e attempt sleep_s) ;;
             time_sleep sleep_s ;;
             fetch_loop fuel' session url params attempt)
        (fun resp =>
           if (status_code resp =? 200)%Z then lift (json_body resp)
           else if retryable (status_code resp) then
             let attempt := (attempt + 1)%Z in
             (if (attempt >? MAX_RETRIES)%Z then raise_for_status resp
              else ret tt) ;;
             let sleep_s := retry_sleep resp attempt in
             print (MHttpRetry (status_code resp) attempt sleep_s) ;;
             time_sleep sleep_s ;;
             fetch_loop fuel' session url params attempt
           else
             raise_for_status resp ;;
             fetch_loop fuel' session url params attempt)
  end.

Definition fetch_page (fuel : nat) (session : list (string * string))
    (url : json) (params : option params_t) : M json :=
  fetch_loop fuel session url params 0.

(** The variables of the [while True] of [stream_all]. *)
Record loop_vars : Type := {
  url : json;
  params : option params_t;
  pages : Z;
  items_total : Z;
  first_item : bool
}.

(** Lines 130-134: the [for item in page_items] loop; returns
    [first_item]. *)
Fixpoint write_items (f : string) (page_items : list json) (first_item : bool)
  : M bool :=
  match page_items with
  | [] => ret first_item
  | item :: rest =>
      (if negb first_item then f_write f [","%char; NL] else ret tt) ;;
      f_write f (dumps_bytes item) ;;
      write_items f rest false
  end.

(** Lines 127-149: one turn of the loop on the page [data]; the boolean
    tells whether the loop goes on ([false]: [break]). Elapsed time and
    rate, which only show in the progress line, are left out. *)
Definition page_step (f : string) (data : json) (st : loop_vars)
  : M (loop_vars * bool) :=
  let pages := (pages st + 1)%Z in
  page_items <- lift (py_get data "items" (JArr [])) ;;
  items <- lift (py_iter page_items) ;;
  first_item <- write_items f items (first_item st) ;;
  let items_total := (items_total st + Z.of_nat (List.length items))%Z in
  log <- (if (LOG_EVERY E =? 0)%Z then raise (Exc ZeroDivisionError)
          else ret ((pages mod LOG_EVERY E =? 0)%Z || (pages =? 1)%Z)) ;;
  (if log : bool
   then print (MPage pages (Z.of_nat (List.length items)) items_total)
   else ret tt) ;;
  next_link <- lift (py_get data "nextLink" JNull) ;;
  if negb (truthy next_link) then
    api_total <- lift (py_get data "totalCount" (JStr "n/a")) ;;
    print (MDone pages items_total api_total) ;;
    ret ({| url := url st; params := params st; pages := pages;
            items_total := items_total; first_item := first_item |}, false)
  else
    ret ({| url := next_link; params := None; pages := pages;
            items_total := items_total; first_item := first_item |}, true).

(** Lines 125-149. *)
Fixpoint stream_loop (fuel fetch_fuel : nat) (session : list (string * string))
    (f : string) (st : loop_vars) : M loop_vars :=
  match fuel with
  | O => out_of_fuel
  | S fuel' =>
      data <- fetch_page fetch_fuel session (url st) (params st) ;;
      r <- page_step f data st ;;
      if snd r then stream_loop fuel' fetch_fuel session f (fst r)
      else ret (fst r)
  end.

Definition loop_vars0 : loop_vars :=
  {| url := JStr BASE_URL; params := Some [("top"%string, PAGE_SIZE E)];
     pages := 0; items_total := 0; first_item := true |}.

(** Lines 121-151: the [with open(out_path, "wb") as f] block. *)
Definition stream_to_file (fuel : nat) (session : list (string * string))
    (out_path : string) : M loop_vars :=
  f_open_w out_path ;;
  f_write out_path ["["%char; NL] ;;
  st <- stream_loop fuel fuel session out_path loop_vars0 ;;
  f_write out_path [NL; "]"%char; NL] ;;
  ret st.

(** [json.load] of the file just written. *)
Definition load_file (path : string) : M json :=
  match load_fault E with
  | Some e => raise (Exc e)
  | None =>
      fun w =>
        match fs w path with
        | None => (Raise (Exc OSError), w)
        | Some c =>
            match json_loads c with
            | Some v => (Ret v, w)
            | None => (Raise (Exc ValueError), w)
            end
        end
  end.

(** [with open(path, "w") as f: json.dump(data, f, ensure_ascii=False, indent=2)]. *)
Definition dump_file (path : string) (data : json) : M unit :=
  match reopen_fault E with
  | Some e => raise (Exc e)
  | None =>
      f_open_w path ;;
      match dump_fault E with
      | Some (n, e) =>
          f_write path (firstn n (pretty 0 data)) ;;
          raise (Exc e)
      | None => f_write path (pretty 0 data)
      end
  end.

(** Lines 153-164. *)
Definition reformat (out_path : string) : M unit :=
  if negb (COMPACT_OUTPUT E) then
    print MReformatting ;;
    try_except (data <- load_file out_path ;; dump_file out_path data)
      (fun _ => true)
      (fun e => print (MReformatWarning e))
      (fun _ => ret tt)
  else print MSkipPretty.

Definition out_path_of (ts : string) : string :=
  ("vulnerable_devices_" ++ ts ++ ".json")%string.

Definition stream_all (fuel : nat) : M string :=
  session <- _session ;;
  let out_path := out_path_of (ts_local E) in
  print (MStart BASE_URL (PAGE_SIZE E) out_path) ;;
  stream_to_file fuel session out_path ;;
  reformat out_path ;;
  ret out_path.

Definition main (fuel : nat) : M unit :=
  try_except (stream_all fuel) (fun _ => true)
    (fun e =>
       print_stderr (MFailed e) ;;
       raise (SystemExit 2))
    (fun out_path => print (MWrote out_path)).

(** The exit status of the process: 0 when the program runs to its end,
    the argument of [sys.exit], 1 after an exception nothing caught. *)
Definition exit_status (r : outcome unit) : option Z :=
  match r with
  | Ret _ => Some 0%Z
  | Raise (SystemExit c) => Some c
  | Raise (Exc _) => Some 1%Z
  | OutOfFuel => None
  end.

End WithEnv.

(** ** The script as a program *)

(** [int(os.getenv(name, default))], the default read as [d]. *)
Definition getenv_int (H : process) (name : string) (d : Z) : option Z :=
  match os_getenv H name with
  | Some s => py_int H s
  | None => Some d
  end.

(** Lines 10-36: the imports, then the assignments of the globals in the
    order of the file.  [orjson] is taken as not installed, so that
    [dumps_bytes] is the definition of line 25.  What this raises nothing
    catches. *)
Definition load_module (H : process) : exception + env :=
  match import_fault H with
  | Some e => inl e
  | None =>
      let token := os_getenv H "TM_API_TOKEN" in
      match getenv_int H "PAGE_SIZE" 200 with
      | None => inl ValueError
      | Some page_size =>
          match getenv_int H "LOG_EVERY" 5 with
          | None => inl ValueError
          | Some log_every =>
              let compact :=
                match os_getenv H "COMPACT_OUTPUT" with
                | Some s => String.eqb (py_lower H s) "true"
                | None => true
                end in
              inr {| getenv_token := token; PAGE_SIZE := page_size;
                     LOG_EVERY := log_every; COMPACT_OUTPUT := compact;
                     ts_local := ts_local (surroundings H);
                     net := net (surroundings H);
                     py_float := py_float (surroundings H);
                     sleep_error := sleep_error (surroundings H);
                     load_fault := load_fault (surroundings H);
                     reopen_fault := reopen_fault (surroundings H);
                     dump_fault := dump_fault (surroundings H) |}
          end
      end
  end.

(** The whole file, run as [__main__]: the module is loaded, then line
    177 calls [main()].  An exception that nothing catches ends the
    process with a traceback and status 1 ([exit_status]). *)
Definition script (H : process) (fuel : nat) : M unit :=
  match load_module H with
  | inl e => raise (Exc e)
  | inr E => main E fuel
  end.

End Script.

(** * Vocabulary of the properties *)

Module Spec.

Import Json Py Script.

(** ** JSON text *)

(** What may follow a number: nothing, or a character no number holds. *)
Definition delim (s : bytes) : bool :=
  match s with
  | [] => true
  | c :: _ => negb (is_numchar c)
  end.

(** The characters a value can start with. *)
Definition value_start (c : ascii) : bool :=
  negb (is_ws c) && negb (Ascii.eqb c "]") && negb (Ascii.eqb c "}")
  && (is_digit c || Ascii.eqb c "-" || Ascii.eqb c DQUOTE
      || Ascii.eqb c "[" || Ascii.eqb c "{" || Ascii.eqb c "t"
      || Ascii.eqb c "f" || Ascii.eqb c "n").

(** An upper bound on the fuel [parse_value] needs for the text of [v]. *)
Fixpoint size (v : json) : nat :=
  match v with
  | JArr l => S (fold_right (fun x n => S (size x + n)) 0 l)
  | JObj m => S (fold_right (fun kv n => S (size (snd kv) + n)) 0 m)
  | _ => 1
  end.

Definition list_size (l : list json) : nat :=
  fold_right (fun x n => S (size x + n)) 0 l.

Definition members_size (m : list (string * json)) : nat :=
  fold_right (fun kv n => S (size (snd kv) + n)) 0 m.

(** The elements of an array and its closing bracket, with white space
    [w1] before each element and [w2] before the bracket. *)
Fixpoint elems_text (w1 w2 : bytes) (l : list json) (rest : bytes) : bytes :=
  match l with
  | [] => w2 ++ "]"%char :: rest
  | v :: vs =>
      w1 ++ dumps_bytes v
        ++ match vs with
           | [] => w2 ++ "]"%char :: rest
           | _ :: _ => ","%char :: elems_text w1 w2 vs rest
           end
  end.

(** The members of an object and its closing brace. *)
Fixpoint members_text (m : list (string * json)) (rest : bytes) : bytes :=
  match m with
  | [] => "}"%char :: rest
  | (k, v) :: ms =>
      encode_str k ++ ":"%char :: dumps_bytes v
        ++ match ms with
           | [] => "}"%char :: rest
           | _ :: _ => ","%char :: members_text ms rest
           end
  end.

(** [parses v]: the text of [v] reads back as [v], whatever white space
    precedes it and whatever follows it. *)
Definition parses (v : json) : Prop :=
  wf v = true ->
  forall fuel w rest,
    (size v <= fuel)%nat -> forallb is_ws w = true -> delim rest = true ->
    parse_value fuel (w ++ dumps_bytes v ++ rest) = Some (v, rest).

(** The file the streaming block leaves when it wrote [items]. *)
Definition render (items : list json) : bytes :=
  ("["%char :: NL :: join [","%char; NL] (map dumps_bytes items))
    ++ [NL; "]"%char; NL].

(** The characters of a decimal number. *)
Definition digits_of (u : Decimal.uint) : bytes :=
  list_ascii_of_string (DecimalString.NilEmpty.string_of_uint u).

(** The elements of an array and its closing bracket, each element
    written by [pr]. *)
Fixpoint elems_text_of (pr : json -> bytes) (w1 w2 : bytes) (l : list json)
    (rest : bytes) : bytes :=
  match l with
  | [] => w2 ++ "]"%char :: rest
  | v :: vs =>
      w1 ++ pr v
        ++ match vs with
           | [] => w2 ++ "]"%char :: rest
           | _ :: _ => ","%char :: elems_text_of pr w1 w2 vs rest
           end
  end.

(** The members of an object and its closing brace, as
    [json.dump(..., indent=2)] lays them out: white space [w1] before each
    key, a colon and a space after it, the value written by [pr]. *)
Fixpoint members_text_of (pr : json -> bytes) (w1 w2 : bytes)
    (m : list (string * json)) (rest : bytes) : bytes :=
  match m with
  | [] => w2 ++ "}"%char :: rest
  | (k, v) :: ms =>
      w1 ++ encode_str k ++ ":"%char :: " "%char :: pr v
        ++ match ms with
           | [] => w2 ++ "}"%char :: rest
           | _ :: _ => ","%char :: members_text_of pr w1 w2 ms rest
           end
  end.

(** [reads pr v]: the text [pr] writes for [v] reads back as [v]. *)
Definition reads (pr : json -> bytes) (v : json) : Prop :=
  wf v = true ->
  forall fuel w rest,
    (size v <= fuel)%nat -> forallb is_ws w = true -> delim rest = true ->
    parse_value fuel (w ++ pr v ++ rest) = Some (v, rest).

(** Neither a control character nor a line break. *)
Definition printable (c : ascii) : bool := (32 <=? N_of_ascii c)%N.



(** The file while the loop runs, after [items] were written: no closing
    bracket yet. *)
Definition unterminated (items : list json) : bytes :=
  "["%char :: NL :: join [","%char; NL] (map dumps_bytes items).

(** ** A program logic for the script's monad

    [sat R P ok m]: whatever the world, [m] moves it along [R]; what it
    returns satisfies [P] and what it raises satisfies [ok]. *)
Definition sat (R : world -> world -> Prop) (A : Type) (P : A -> Prop)
    (ok : exn -> Prop) (m : M A) : Prop :=
  forall w,
    R w (snd (m w)) /\
    match fst (m w) with
    | Ret a => P a
    | Raise e => ok e
    | OutOfFuel => True
    end.

(** Anything but [SystemExit]. *)
Definition not_exit (e : exn) : Prop :=
  match e with
  | SystemExit _ => False
  | Exc _ => True
  end.

(** The bodies the server sends hold no float that is not finite
    ([wf]). *)
Definition wf_net (E : env) : Prop :=
  forall n rq r v, net E n rq = inr r -> json_body r = inr v -> wf v = true.

(** A body the server sent. *)
Definition sent (E : env) (v : json) : Prop :=
  exists n rq r, net E n rq = inr r /\ json_body r = inr v.

(** ** The streaming loop *)

Definition is_nil (A : Type) (l : list A) : bool :=
  match l with [] => true | _ :: _ => false end.

(** What the [for] loop of one page appends to the file. *)
Fixpoint items_bytes (first : bool) (items : list json) : bytes :=
  match items with
  | [] => []
  | x :: r =>
      (if first then [] else [","%char; NL])
        ++ dumps_bytes x ++ items_bytes false r
  end.

(** The requests of a trace, oldest first. *)
Definition requests (tr : list event) : list request :=
  flat_map (fun ev => match ev with EGet rq _ => [rq] | _ => [] end) tr.

(** The outcomes of the requests of a trace, oldest first. *)
Definition outcomes (tr : list event) : list (exception + response) :=
  flat_map (fun ev => match ev with EGet _ res => [res] | _ => [] end) tr.

(** The delays passed to [time.sleep], oldest first. *)
Definition sleeps (tr : list event) : list pyfloat :=
  flat_map (fun ev => match ev with ESleep d => [d] | _ => [] end) tr.

(** A page as the specification has it: an object whose [items], when
    present, is a list of values whose floats are finite ([wf]). *)
Definition page_ok (p : json) : bool :=
  match p with
  | JObj m =>
      match lookup "items" m with
      | None => true
      | Some (JArr l) => forallb wf l
      | Some _ => false
      end
  | _ => false
  end.

(** The items of a page; none when the field is missing. *)
Definition page_items (p : json) : list json :=
  match p with
  | JObj m =>
      match lookup "items" m with
      | Some (JArr l) => l
      | _ => []
      end
  | _ => []
  end.

(** [data.get("nextLink")]. *)
Definition link (p : json) : json :=
  match p with
  | JObj m => match lookup "nextLink" m with Some v => v | None => JNull end
  | _ => JNull
  end.

(** The loop goes on after [p]: [not next_link] is false. *)
Definition has_next (p : json) : bool := truthy (link p).

(** [data.get("totalCount", 'n/a')]. *)
Definition api_total (p : json) : json :=
  match p with
  | JObj m => match lookup "totalCount" m with Some v => v | None => JStr "n/a" end
  | _ => JStr "n/a"
  end.

(** A run of pages: every page but the last carries a link that is
    followed, the last does not. *)
Fixpoint chain (ps : list json) : bool :=
  match ps with
  | [] => false
  | p :: rest =>
      page_ok p
      && match rest with
         | [] => negb (has_next p)
         | _ :: _ => has_next p && chain rest
         end
  end.

(** The items of a run of pages, page after page. *)
Definition all_items (ps : list json) : list json :=
  List.concat (map page_items ps).

(** The server answers the requests number [g], [g+1], ... with status
    200 and the pages [ps], in this order. *)
Definition served_from (E : env) (g : nat) (ps : list json) : Prop :=
  forall i p rq,
    nth_error ps i = Some p ->
    exists r, net E (g + i) rq = inr r /\ status_code r = 200%Z
              /\ json_body r = inr p.

(** The requests a run over [ps] makes, starting at [u] with [p]. *)
Fixpoint reqs (session : list (string * string)) (u : json)
    (p : option params_t) (ps : list json) : list request :=
  match ps with
  | [] => []
  | pg :: rest =>
      {| req_headers := session; req_url := u; req_params := p |}
        :: reqs session (link pg) None rest
  end.

(** [pages % LOG_EVERY == 0 or pages == 1]. *)
Definition logs_page (E : env) (pages : Z) : bool :=
  ((pages mod LOG_EVERY E =? 0) || (pages =? 1))%Z.

(** The loop variables after the page [p]. *)
Definition step_vars (p : json) (st : loop_vars) : loop_vars :=
  {| url := if has_next p then link p else url st;
     params := if has_next p then None else params st;
     pages := pages st + 1;
     items_total := items_total st + Z.of_nat (List.length (page_items p));
     first_item := first_item st && is_nil (page_items p) |}.

(** What the loop prints for the page [p]. *)
Definition page_events (E : env) (p : json) (st : loop_vars) : list event :=
  (if logs_page E (pages st + 1)
   then [EOut (MPage (pages st + 1)
                 (Z.of_nat (List.length (page_items p)))
                 (items_total st + Z.of_nat (List.length (page_items p))))]
   else [])
  ++ (if has_next p then []
      else [EOut (MDone (pages st + 1)
                    (items_total st + Z.of_nat (List.length (page_items p)))
                    (api_total p))]).

(** The computation returned: no exception, fuel left. *)
Definition returned (A : Type) (r : outcome A) : bool :=
  match r with Ret _ => true | _ => false end.

(** An attempt fails when [session.get] raises a [RequestException] or
    returns a retryable status. *)
Definition fails (res : exception + response) : bool :=
  match res with
  | inl e => is_RequestException e
  | inr r => retryable (status_code r)
  end.

(** The delay the code asks for after the failed attempt [res], the
    counter being [attempt]: [BACKOFF_BASE ** attempt] after an exception;
    after a retryable status the value of [Retry-After] when the header is
    there, is not empty and [float] accepts it, and the same power
    otherwise. *)
Definition delay (E : env) (res : exception + response) (attempt : Z)
  : pyfloat :=
  match res with
  | inl _ => backoff attempt
  | inr r => retry_sleep E r attempt
  end.

(** What [delay] is, case by case. *)
Definition delay_rule (E : env) : Prop :=
  (forall e a, delay E (inl e) a = Finite (BACKOFF_BASE ^ a)%Q) /\
  (forall r a,
      headers_get r "Retry-After" = None ->
      delay E (inr r) a = Finite (BACKOFF_BASE ^ a)%Q) /\
  (forall r a,
      headers_get r "Retry-After" = Some ""%string ->
      delay E (inr r) a = Finite (BACKOFF_BASE ^ a)%Q) /\
  (forall r a h,
      headers_get r "Retry-After" = Some h -> py_float E h = None ->
      delay E (inr r) a = Finite (BACKOFF_BASE ^ a)%Q) /\
  (forall r a h v,
      headers_get r "Retry-After" = Some h -> h <> ""%string ->
      py_float E h = Some v ->
      delay E (inr r) a = v).

(** The line printed before the retry. *)
Definition retry_message (res : exception + response) (attempt : Z)
    (d : pyfloat) : message :=
  match res with
  | inl e => MRequestError e attempt d
  | inr r => MHttpRetry (status_code r) attempt d
  end.

(** The world after a failed attempt, its log line and the call of
    [time.sleep]. *)
Definition after_retry (E : env) (rq : request) (attempt : Z) (w : world)
  : world :=
  let res := net E (gets w) rq in
  let d := delay E res attempt in
  {| trace := ((trace w ++ [EGet rq res])
                 ++ [EOut (retry_message res attempt d)]) ++ [ESleep d];
     gets := S (gets w); fs := fs w |}.


(** [quiet m]: [m] never raises [SystemExit]. *)
Definition quiet (A : Type) (m : M A) : Prop :=
  forall w c w', m w <> (Raise (SystemExit c), w').

(** The headers [_session] sets when the token passes the check. *)
Definition session_of (E : env) : list (string * string) :=
  [("Accept", "application/json");
   ("Authorization", "Bearer " ++ TOKEN E);
   ("Accept-Encoding", "gzip, deflate, br");
   ("Connection", "keep-alive");
   ("User-Agent", "VisionOne-DeviceVuln-Fetcher/1.0")]%string.

(** [w] after the event [ev]. *)
Definition log_event (ev : event) (w : world) : world :=
  {| trace := trace w ++ [ev]; gets := gets w; fs := fs w |}.

(** The world in which the loop of [stream_all] starts: the start line is
    printed, the file is open and holds the opening bracket. *)
Definition loop_start (E : env) (w : world) : world :=
  snd (bind (f_open_w (out_path_of (ts_local E)))
         (fun _ => f_write (out_path_of (ts_local E)) ["["%char; NL])
         (log_event (EOut (MStart BASE_URL (PAGE_SIZE E)
                             (out_path_of (ts_local E)))) w)).

(** Nothing was written to standard error. *)
Definition no_stderr (tr : list event) : bool :=
  forallb (fun ev => match ev with EErr _ => false | _ => true end) tr.

(** The reformat warning was printed. *)
Definition warned (tr : list event) : bool :=
  existsb (fun ev => match ev with
                     | EOut (MReformatWarning _) => true
                     | _ => false
                     end) tr.

(** ** Attempts of [fetch_page] *)

(** The world after [session.get] was called for [rq]. *)
Definition after_get (E : env) (rq : request) (w : world) : world :=
  {| trace := trace w ++ [EGet rq (net E (gets w) rq)];
     gets := S (gets w); fs := fs w |}.

(** The world after [k] failed attempts in a row, each followed by its log
    line and its sleep, the counter being [attempt] before the first. *)
Fixpoint retried (E : env) (rq : request) (k : nat) (attempt : Z) (w : world)
  : world :=
  match k with
  | O => w
  | S k' => retried E rq k' (attempt + 1) (after_retry E rq (attempt + 1) w)
  end.

(** The delays of [k] retries in a row, the first request being number
    [g] and the counter [attempt] before it. *)
Definition retry_delays (E : env) (rq : request) (g : nat) (attempt : Z)
    (k : nat) : list pyfloat :=
  map (fun i => delay E (net E (g + i) rq) (attempt + Z.of_nat (S i)))
    (seq 0 k).

(** A status [raise_for_status] raises for. *)
Definition error_status (s : Z) : bool := ((400 <=? s) && (s <? 600))%Z.

(** A status [fetch_page] has no branch for: not 200, not retried, and no
    error for [raise_for_status]. *)
Definition ignored_status (s : Z) : bool :=
  negb (s =? 200)%Z && negb (retryable s) && negb (error_status s).

(** The error an attempt ends the fetch with at once: an exception that is
    no [RequestException], or an error status that is not retried. *)
Definition fatal (res : exception + response) : option exception :=
  match res with
  | inl e => if is_RequestException e then None else Some e
  | inr r =>
      if (status_code r =? 200)%Z || retryable (status_code r) then None
      else if error_status (status_code r)
           then Some (HTTPError (status_code r))
           else None
  end.

(** ** The run as a whole *)

(** Every file but [out] is as it was. *)
Definition others_kept (out : string) (w w' : world) : Prop :=
  forall p, p <> out -> fs w' p = fs w p.

(** [m] writes no file but [out]. *)
Definition writes_only (out : string) (A : Type) (m : M A) : Prop :=
  sat (others_kept out) (fun _ : A => True) (fun _ => True) m.

(** What a page that is no object, or whose [items] cannot be walked,
    makes the loop raise: [data.get] needs a dict, [for item in ...] an
    iterable. *)
Definition page_error (data : json) : option exception :=
  match data with
  | JObj m =>
      match lookup "items" m with
      | Some (JNull | JBool _ | JInt _ | JFloat _) => Some TypeError
      | _ => None
      end
  | _ => Some AttributeError
  end.

(** The request [stream_all] starts with. *)
Definition first_request (E : env) (session : list (string * string))
  : request :=
  {| req_headers := session; req_url := JStr BASE_URL;
     req_params := Some [("top"%string, PAGE_SIZE E)] |}.

(** The world once the output file is open and holds the opening
    bracket. *)
Definition opened (out : string) (w : world) : world :=
  snd (bind (f_open_w out) (fun _ => f_write out ["["%char; NL]) w).

(** A character [json.dumps] writes as it is. *)
Definition plain (c : ascii) : bool :=
  printable c && negb (Ascii.eqb c DQUOTE) && negb (Ascii.eqb c BSLASH).

(** The server fails the request for each page once, then sends the page:
    request [g + 2 i] fails and [time.sleep] accepts the delay that
    follows, request [g + 2 i + 1] is answered 200 with the [i]-th page. *)
Definition served_on_second_try (E : env) (g : nat) (ps : list json) : Prop :=
  forall i p rq,
    nth_error ps i = Some p ->
    fails (net E (g + 2 * i) rq) = true /\
    sleep_error E (delay E (net E (g + 2 * i) rq) 1) = None /\
    exists r, net E (g + 2 * i + 1) rq = inr r /\ status_code r = 200%Z
              /\ json_body r = inr p.

(** ** Concrete runs *)

(** The answer [200] with body [p]. *)
Definition ok_response (p : json) : response :=
  {| status_code := 200; headers_get := fun _ => None; json_body := inr p |}.

(** A server that sends the pages [ps] in order and then drops the
    connection. *)
Definition serve (ps : list json) : nat -> request -> exception + response :=
  fun n _ =>
    match nth_error ps n with
    | Some p => inr (ok_response p)
    | None => inl (RequestException "ConnectionError")
    end.

(** [float(s)] on strings of decimal digits (at most 15, so that the value
    is exact); every other string is rejected here. *)
Definition demo_float (s : string) : option pyfloat :=
  if (String.length s <=? 15)%nat then
    match DecimalString.NilZero.uint_of_string s with
    | Some u => Some (Finite (inject_Z (Z.of_uint u)))
    | None => None
    end
  else None.

(** [time.sleep] rejects what is not a non-negative number. *)
Definition demo_sleep_error (d : pyfloat) : option exception :=
  match d with
  | Finite q => if Qle_bool 0 q then None else Some ValueError
  | NaN => Some ValueError
  | Inf _ => Some OverflowError
  end.

(** A configuration with the defaults of the script ([PAGE_SIZE=200],
    [LOG_EVERY=5]), a given token, output mode and server, and no fault
    in the reformat step. *)
Definition demo_env (token : option string) (compact : bool)
    (server : nat -> request -> exception + response) : env :=
  {| getenv_token := token; PAGE_SIZE := 200; LOG_EVERY := 5;
     COMPACT_OUTPUT := compact; ts_local := "20250101_0930";
     net := server; py_float := demo_float; sleep_error := demo_sleep_error;
     load_fault := None; reopen_fault := None; dump_fault := None |}.

(** A vulnerable-device record. *)
Definition device (id : Z) (name : string) (score : string) : json :=
  JObj [("id"%string, JInt id); ("deviceName"%string, JStr name);
        ("cveRiskScore"%string, JFloat score)].

(** Three pages: two items, none, one. *)
Definition page1 : json :=
  JObj [("totalCount"%string, JInt 3);
        ("items"%string, JArr [device 1 "web-01" "7.5"; device 2 "db-02" "9.8"]);
        ("nextLink"%string, JStr "https://api.xdr.trendmicro.com/v3.0/asrm/vulnerableDevices?skipToken=a")].

Definition page2 : json :=
  JObj [("items"%string, JArr []);
        ("nextLink"%string, JStr "https://api.xdr.trendmicro.com/v3.0/asrm/vulnerableDevices?skipToken=b")].

Definition page3 : json :=
  JObj [("items"%string, JArr [device 3 (String DQUOTE "q") "0.0"])].

Definition demo_pages : list json := [page1; page2; page3].

(** A session with a token. *)
Definition demo_session : list (string * string) :=
  [("Authorization", "Bearer t")]%string.

(** Pages without items and empty pages among pages with items. *)
Definition sparse_pages : list json :=
  [JObj [("nextLink"%string, JStr "p2")]; page1; page2;
   JObj [("items"%string, JArr []); ("nextLink"%string, JStr "p5")]; page3].


(** A page whose [nextLink] is present and empty. *)
Definition blank_link_page : json :=
  JObj [("items"%string, JArr [device 1 "web-01" "7.5"]);
        ("nextLink"%string, JStr "")].

(** The members of a page whose [nextLink] is present and [null]. *)
Definition null_link_members : list (string * json) :=
  [("items"%string, JArr [device 1 "web-01" "7.5"]);
   ("nextLink"%string, JNull)].

(** A server no request reaches. *)
Definition unreachable : nat -> request -> exception + response :=
  fun _ _ => inl (RequestException "ConnectionError").

(** A server that answers [429] with [Retry-After: 2], always. *)
Definition throttled : nat -> request -> exception + response :=
  fun _ _ =>
    inr {| status_code := 429;
           headers_get :=
             fun h => if String.eqb h "Retry-After" then Some "2"%string
                      else None;
           json_body := inl (OtherError "JSONDecodeError") |}.

(** [E], with [json.dump] failing with [e] after [n] bytes. *)
Definition with_dump_fault (E : env) (n : nat) (e : exception) : env :=
  {| getenv_token := getenv_token E; PAGE_SIZE := PAGE_SIZE E;
     LOG_EVERY := LOG_EVERY E; COMPACT_OUTPUT := COMPACT_OUTPUT E;
     ts_local := ts_local E; net := net E; py_float := py_float E;
     sleep_error := sleep_error E; load_fault := load_fault E;
     reopen_fault := reopen_fault E; dump_fault := Some (n, e) |}.

(** A response that is only a status. *)
Definition status_only (s : Z) : response :=
  {| status_code := s; headers_get := fun _ => None;
     json_body := inl (OtherError "JSONDecodeError") |}.

(** A server that answers every request with the status [s]. *)
Definition answering (s : Z) : nat -> request -> exception + response :=
  fun _ _ => inr (status_only s).

(** A server that times out, then answers [503], then sends [p]. *)
Definition flaky (p : json) : nat -> request -> exception + response :=
  fun n _ =>
    match n with
    | 0 => inl (RequestException "Timeout")
    | 1 => inr (status_only 503)
    | _ => inr (ok_response p)
    end.

(** [float(s)] on decimal digits with an optional minus sign before
    them. *)
Definition signed_float (s : string) : option pyfloat :=
  match s with
  | String "-" r =>
      match demo_float r with
      | Some (Finite q) => Some (Finite (- q)%Q)
      | o => o
      end
  | _ => demo_float s
  end.

(** A server that answers [429] with [Retry-After: -1], always. *)
Definition hasty : nat -> request -> exception + response :=
  fun _ _ =>
    inr {| status_code := 429;
           headers_get :=
             fun h => if String.eqb h "Retry-After" then Some "-1"%string
                      else None;
           json_body := inl (OtherError "JSONDecodeError") |}.

(** [E], with [float] reading a sign. *)
Definition with_signed_float (E : env) : env :=
  {| getenv_token := getenv_token E; PAGE_SIZE := PAGE_SIZE E;
     LOG_EVERY := LOG_EVERY E; COMPACT_OUTPUT := COMPACT_OUTPUT E;
     ts_local := ts_local E; net := net E; py_float := signed_float;
     sleep_error := sleep_error E; load_fault := load_fault E;
     reopen_fault := reopen_fault E; dump_fault := dump_fault E |}.

(** A server that times out on every other request and sends the pages
    [ps] in between. *)
Definition stubborn (ps : list json) : nat -> request -> exception + response :=
  fun n _ =>
    if Nat.even n then inl (RequestException "Timeout")
    else match nth_error ps (Nat.div2 n) with
         | Some p => inr (ok_response p)
         | None => inl (RequestException "ConnectionError")
         end.

(** Seven pages, an item on the last only. *)
Definition seven_pages : list json :=
  [page2; page2; page2; page2; page2; page2; page3].

(** ** The pages a run fetched *)


(** The items of a page as the [for] loop of lines 129-130 walks them;
    none when the page cannot be walked. *)
Definition items_of (p : json) : list json :=
  match py_get p "items" (JArr []) with
  | inr v => match py_iter v with
             | inr l => l
             | inl _ => []
             end
  | inl _ => []
  end.

(** ** Concrete processes and pages *)

(** [int(s)] on strings of decimal digits; every other string is rejected
    here. *)
Definition demo_int (s : string) : option Z :=
  match s with
  | EmptyString => None
  | _ =>
      match DecimalString.NilZero.uint_of_string s with
      | Some u => Some (Z.of_uint u)
      | None => None
      end
  end.

(** [s.lower()] on ASCII text. *)
Definition demo_lower (s : string) : string :=
  string_of_list_ascii
    (map (fun c =>
            let n := N_of_ascii c in
            if ((65 <=? n) && (n <=? 90))%N then ascii_of_N (n + 32) else c)
       (list_ascii_of_string s)).

(** The value of the variable [name] among [vars]. *)
Fixpoint lookup_var (vars : list (string * string)) (name : string)
  : option string :=
  match vars with
  | [] => None
  | (k, v) :: r => if String.eqb name k then Some v else lookup_var r name
  end.

(** A process with the environment variables [vars], in which every
    import succeeds. *)
Definition demo_process (vars : list (string * string))
    (server : nat -> request -> exception + response) : process :=
  {| import_fault := None; os_getenv := lookup_var vars;
     py_int := demo_int; py_lower := demo_lower;
     surroundings := demo_env None true server |}.

(** [E], with [LOG_EVERY] set to [n]. *)
Definition with_log_every (E : env) (n : Z) : env :=
  {| getenv_token := getenv_token E; PAGE_SIZE := PAGE_SIZE E;
     LOG_EVERY := n; COMPACT_OUTPUT := COMPACT_OUTPUT E;
     ts_local := ts_local E; net := net E; py_float := py_float E;
     sleep_error := sleep_error E; load_fault := load_fault E;
     reopen_fault := reopen_fault E; dump_fault := dump_fault E |}.



(** A page without [items] whose [nextLink] is present and empty. *)
Definition bare_blank_link_page : json :=
  JObj [("totalCount"%string, JInt 0); ("nextLink"%string, JStr "")].

(** The placeholder between two no-break spaces (U+00A0). *)
Definition padded_placeholder : string :=
  (String "194" (String "160" PLACEHOLDER)
   ++ String "194" (String "160" ""))%string.

End Spec.

(** * Properties *)

Module JsonFacts.

Import Json Py Spec.

(** ** White space and spans *)

Lemma join_cons2 sep (a a' : bytes) l :
  join sep (a :: a' :: l) = a ++ sep ++ join sep (a' :: l).
Proof. reflexivity. Qed.

Lemma elems_text_cons2 w1 w2 v v' vs rest :
  elems_text w1 w2 (v :: v' :: vs) rest
  = w1 ++ dumps_bytes v ++ ","%char :: elems_text w1 w2 (v' :: vs) rest.
Proof. reflexivity. Qed.

Lemma skip_ws_app (w s : bytes) :
  forallb is_ws w = true -> skip_ws (w ++ s) = skip_ws s.
Proof.
  induction w as [|c w IH]; simpl; [reflexivity|].
  intros H. apply andb_prop in H as [Hc Hw]. now rewrite Hc, IH.
Qed.

Lemma skip_ws_cons (c : ascii) (s : bytes) :
  is_ws c = false -> skip_ws (c :: s) = c :: s.
Proof. intros H; simpl; now rewrite H. Qed.

Lemma span_app (p : ascii -> bool) (l rest : bytes) :
  forallb p l = true ->
  match rest with [] => True | c :: _ => p c = false end ->
  span p (l ++ rest) = (l, rest).
Proof.
  intros Hl Hr. induction l as [|c l IH]; simpl in *.
  - destruct rest as [|c r]; [reflexivity|]. simpl. now rewrite Hr.
  - apply andb_prop in Hl as [Hc Hl]. now rewrite Hc, (IH Hl).
Qed.

(** ** Numbers *)

Lemma num_step_numchar st c st' :
  num_step st c = Some st' -> is_numchar c = true.
Proof.
  unfold is_numchar.
  destruct st; simpl;
    repeat match goal with
      | |- context [if ?x then _ else _] => destruct x eqn:?
      end; intros; try discriminate;
    repeat match goal with
      | H : (_ || _) = true |- _ => apply orb_prop in H as [H|H]
      end;
    try match goal with
      | H : Ascii.eqb _ _ = true |- _ =>
          apply Ascii.eqb_eq in H; subst c; reflexivity
      end;
    reflexivity.
Qed.

Lemma num_run_numchars st l :
  num_run st l = true -> forallb is_numchar l = true.
Proof.
  revert st; induction l as [|c l IH]; intros st; simpl; [reflexivity|].
  destruct (num_step st c) as [st'|] eqn:Hs; [|discriminate].
  intros H. rewrite (num_step_numchar Hs), (IH _ H). reflexivity.
Qed.

Lemma num_run_start l :
  num_run NStart l = true ->
  exists c t, l = c :: t /\ (is_digit c || Ascii.eqb c "-") = true.
Proof.
  destruct l as [|c t]; simpl; [discriminate|].
  intros H. exists c, t. split; [reflexivity|].
  destruct (Ascii.eqb c "-"); [now rewrite orb_true_r|].
  destruct (Ascii.eqb c "0") eqn:H0.
  - apply Ascii.eqb_eq in H0. subst c. reflexivity.
  - destruct (is_digit c); [reflexivity|discriminate].
Qed.

Lemma digits_of_digits u : forallb is_digit (digits_of u) = true.
Proof. induction u; simpl; auto. Qed.

Lemma num_run_digits u : num_run NInt (digits_of u) = true.
Proof. induction u; simpl; auto. Qed.

Lemma num_run_uint st u :
  st = NStart \/ st = NMinus ->
  u <> Decimal.Nil -> (forall d, u <> Decimal.D0 d) ->
  num_run st (digits_of u) = true.
Proof.
  intros Hst Hnil H0.
  destruct u as [|u|u|u|u|u|u|u|u|u|u];
    [congruence | exfalso; eapply H0; reflexivity | ..];
    destruct Hst; subst st; simpl; apply num_run_digits.
Qed.

Lemma to_uint_head p d : Pos.to_uint p <> Decimal.D0 d.
Proof.
  intros H.
  assert (Hn : Decimal.unorm (Pos.to_uint p) = Pos.to_uint p).
  { rewrite <- DecimalPos.Unsigned.to_of, DecimalPos.Unsigned.of_to.
    reflexivity. }
  rewrite H, DecimalFacts.unorm_D0 in Hn.
  destruct d as [|d|d|d|d|d|d|d|d|d|d];
    try (apply (@DecimalPos.Unsigned.to_uint_nonzero p); exact H);
    match goal with
    | Hn : Decimal.unorm ?x = _ |- _ =>
        assert (Hl : Decimal.nb_digits (Decimal.unorm x) <= Decimal.nb_digits x)
          by (apply DecimalFacts.nb_digits_unorm; discriminate);
        rewrite Hn in Hl; simpl in Hl; lia
    end.
Qed.

Lemma nilzero_digits u :
  u <> Decimal.Nil ->
  list_ascii_of_string (DecimalString.NilZero.string_of_uint u) = digits_of u.
Proof. destruct u; try reflexivity. congruence. Qed.

Lemma encode_int_cases z :
  exists u, u <> Decimal.Nil /\
    ((forall d, u <> Decimal.D0 d) \/ u = Decimal.zero) /\
    ((Z.to_int z = Decimal.Pos u /\ encode_int z = digits_of u) \/
     (Z.to_int z = Decimal.Neg u /\ (forall d, u <> Decimal.D0 d) /\
      encode_int z = "-"%char :: digits_of u)).
Proof.
  destruct z as [|p|p]; unfold encode_int; simpl.
  - exists Decimal.zero. split; [discriminate|]. split; [now right|].
    left. split; reflexivity.
  - exists (Pos.to_uint p).
    pose proof (@DecimalPos.Unsigned.to_uint_nonnil p) as Hn.
    split; [exact Hn|]. split; [left; intros d; apply to_uint_head|].
    left. split; [reflexivity|]. now apply nilzero_digits.
  - exists (Pos.to_uint p).
    pose proof (@DecimalPos.Unsigned.to_uint_nonnil p) as Hn.
    split; [exact Hn|]. split; [left; intros d; apply to_uint_head|].
    right. split; [reflexivity|]. split; [intros d; apply to_uint_head|].
    simpl. f_equal. now apply nilzero_digits.
Qed.

Lemma encode_int_valid z : valid_number (encode_int z) = true.
Proof.
  destruct (encode_int_cases z) as (u & Hn & H0 & [[_ ->]|(_ & H0' & ->)]).
  - destruct H0 as [H0| ->]; [|reflexivity].
    apply num_run_uint; auto.
  - unfold valid_number. simpl. apply num_run_uint; auto.
Qed.

Lemma digit_not_float_char c :
  (is_digit c || Ascii.eqb c "-") = true ->
  (Ascii.eqb c "." || Ascii.eqb c "e" || Ascii.eqb c "E") = false.
Proof.
  destruct c as [[] [] [] [] [] [] [] []]; try reflexivity; discriminate.
Qed.

Lemma digits_not_float l :
  forallb (fun c => is_digit c || Ascii.eqb c "-") l = true ->
  is_float_lit l = false.
Proof.
  induction l as [|c l IH]; simpl; [reflexivity|].
  intros H. apply andb_prop in H as [Hc Hl].
  now rewrite (digit_not_float_char Hc), (IH Hl).
Qed.

Lemma forallb_weaken (A : Type) (p q : A -> bool) (l : list A) :
  (forall x, p x = true -> q x = true) ->
  forallb p l = true -> forallb q l = true.
Proof.
  intros Hpq. induction l as [|x l IH]; simpl; [reflexivity|].
  intros H. apply andb_prop in H as [Hx Hl]. now rewrite (Hpq _ Hx), IH.
Qed.

Lemma encode_int_chars z :
  forallb (fun c => is_digit c || Ascii.eqb c "-") (encode_int z) = true.
Proof.
  destruct (encode_int_cases z) as (u & Hn & H0 & [[_ ->]|(_ & _ & ->)]);
    simpl; eapply forallb_weaken; try apply digits_of_digits;
    intros x ->; reflexivity.
Qed.

Lemma encode_int_read z : num_of_lit (encode_int z) = Some (JInt z).
Proof.
  unfold num_of_lit.
  rewrite encode_int_valid, (digits_not_float (encode_int_chars z)).
  unfold encode_int. rewrite string_of_list_ascii_of_string.
  rewrite DecimalString.NilZero.isi.
  - now rewrite DecimalZ.of_to.
  - destruct z; simpl; try discriminate.
    intros [= H]. now apply (@DecimalPos.Unsigned.to_uint_nonnil p).
  - destruct z; simpl; try discriminate.
    intros [= H]. now apply (@DecimalPos.Unsigned.to_uint_nonnil p).
Qed.

(** ** Strings *)

Lemma read_escape_char c s :
  read_str (escape_char c ++ s) = prepend [c] (read_str s).
Proof.
  destruct c as [[] [] [] [] [] [] [] []]; reflexivity.
Qed.

Lemma read_escape l rest :
  read_str (escape l ++ DQUOTE :: rest) = Some (l, rest).
Proof.
  induction l as [|c l IH]; simpl; [reflexivity|].
  rewrite <- app_assoc, read_escape_char, IH. reflexivity.
Qed.

(** ** Values *)

Lemma parse_value_S n s :
  parse_value (S n) s =
  match skip_ws s with
  | [] => None
  | c :: r =>
      if Ascii.eqb c "[" then
        match skip_ws r with
        | c' :: r' =>
            if Ascii.eqb c' "]" then Some (JArr [], r')
            else match parse_elems n r with
                 | Some (l, t) => Some (JArr l, t)
                 | None => None
                 end
        | [] => None
        end
      else if Ascii.eqb c "{" then
        match skip_ws r with
        | c' :: r' =>
            if Ascii.eqb c' "}" then Some (JObj [], r')
            else match parse_members n r with
                 | Some (m, t) => Some (JObj m, t)
                 | None => None
                 end
        | [] => None
        end
      else if Ascii.eqb c DQUOTE then
        match read_str r with
        | Some (cs, t) => Some (JStr (string_of_list_ascii cs), t)
        | None => None
        end
      else if Ascii.eqb c "t" then expect (b "true") (JBool true) (c :: r)
      else if Ascii.eqb c "f" then expect (b "false") (JBool false) (c :: r)
      else if Ascii.eqb c "n" then expect (b "null") JNull (c :: r)
      else
        let (lit, t) := span is_numchar (c :: r) in
        match num_of_lit lit with
        | Some v => Some (v, t)
        | None => None
        end
  end.
Proof. reflexivity. Qed.

Lemma parse_elems_S n s :
  parse_elems (S n) s =
  match parse_value n s with
  | None => None
  | Some (v, r) =>
      match skip_ws r with
      | c :: r' =>
          if Ascii.eqb c "," then
            match parse_elems n r' with
            | Some (vs, t) => Some (v :: vs, t)
            | None => None
            end
          else if Ascii.eqb c "]" then Some ([v], r')
          else None
      | [] => None
      end
  end.
Proof. reflexivity. Qed.

Lemma parse_members_S n s :
  parse_members (S n) s =
  match skip_ws s with
  | q :: r0 =>
      if Ascii.eqb q DQUOTE then
        match read_str r0 with
        | None => None
        | Some (k, r1) =>
            match skip_ws r1 with
            | c1 :: r2 =>
                if Ascii.eqb c1 ":" then
                  match parse_value n r2 with
                  | None => None
                  | Some (v, r3) =>
                      match skip_ws r3 with
                      | c :: r' =>
                          if Ascii.eqb c "," then
                            match parse_members n r' with
                            | Some (m, t) =>
                                Some ((string_of_list_ascii k, v) :: m, t)
                            | None => None
                            end
                          else if Ascii.eqb c "}" then
                            Some ([(string_of_list_ascii k, v)], r')
                          else None
                      | [] => None
                      end
                  end
                else None
            | [] => None
            end
        end
      else None
  | [] => None
  end.
Proof. reflexivity. Qed.

Lemma numstart_value_start c :
  (is_digit c || Ascii.eqb c "-") = true -> value_start c = true.
Proof.
  destruct c as [[] [] [] [] [] [] [] []]; try reflexivity; discriminate.
Qed.

Lemma numstart_dispatch c :
  (is_digit c || Ascii.eqb c "-") = true ->
  is_ws c = false /\ Ascii.eqb c "[" = false /\ Ascii.eqb c "{" = false /\
  Ascii.eqb c DQUOTE = false /\ Ascii.eqb c "t" = false /\
  Ascii.eqb c "f" = false /\ Ascii.eqb c "n" = false.
Proof.
  destruct c as [[] [] [] [] [] [] [] []]; try discriminate;
    intros _; repeat split; reflexivity.
Qed.

Lemma value_start_spec c :
  value_start c = true ->
  is_ws c = false /\ Ascii.eqb c "]" = false /\ Ascii.eqb c "}" = false.
Proof.
  unfold value_start. intros H.
  apply andb_prop in H as [H _]. apply andb_prop in H as [H H3].
  apply andb_prop in H as [H1 H2].
  apply negb_true_iff in H1, H2, H3. auto.
Qed.

Lemma ws_not_numchar c : is_ws c = true -> is_numchar c = false.
Proof.
  destruct c as [[] [] [] [] [] [] [] []]; try reflexivity; discriminate.
Qed.

Lemma dumps_start v :
  wf v = true ->
  exists c t, dumps_bytes v = c :: t /\ value_start c = true.
Proof.
  destruct v as [|[]|z|lit|s|l|m]; simpl; intros Hwf;
    try (eexists _, _; split; reflexivity).
  - destruct (num_run_start (encode_int_valid z)) as (c & t & E & Hc).
    exists c, t. split; [exact E|]. now apply numstart_value_start.
  - apply andb_prop in Hwf as [Hv _].
    destruct (num_run_start Hv) as (c & t & E & Hc).
    exists c, t. split; [exact E|]. now apply numstart_value_start.
Qed.

Lemma parse_number n w lit rest v :
  forallb is_ws w = true ->
  valid_number lit = true ->
  num_of_lit lit = Some v ->
  delim rest = true ->
  parse_value (S n) (w ++ lit ++ rest) = Some (v, rest).
Proof.
  intros Hw Hv Hn Hd.
  destruct (num_run_start Hv) as (c & t & E & Hc).
  destruct (numstart_dispatch Hc) as (H1 & H2 & H3 & H4 & H5 & H6 & H7).
  rewrite parse_value_S, skip_ws_app by assumption.
  rewrite E at 1. simpl app. rewrite skip_ws_cons by assumption.
  rewrite H2, H3, H4, H5, H6, H7.
  change (c :: t ++ rest) with ((c :: t) ++ rest). rewrite <- E.
  rewrite span_app.
  - now rewrite Hn.
  - exact (num_run_numchars Hv).
  - destruct rest as [|c' r]; [exact I|].
    simpl in Hd. now apply negb_true_iff in Hd.
Qed.

Lemma delim_ws w c r :
  forallb is_ws w = true -> is_numchar c = false -> delim (w ++ c :: r) = true.
Proof.
  destruct w as [|c' w]; simpl.
  - now intros _ ->.
  - intros H _. apply andb_prop in H as [H _].
    now rewrite (ws_not_numchar H).
Qed.

Lemma join_elems l rest :
  join [","%char] (map dumps_bytes l) ++ "]"%char :: rest
  = elems_text [] [] l rest.
Proof.
  induction l as [|v vs IH]; [reflexivity|].
  destruct vs as [|v' vs']; [reflexivity|].
  change (join [","%char] (map dumps_bytes (v :: v' :: vs')))
    with (dumps_bytes v ++ [","%char]
            ++ join [","%char] (map dumps_bytes (v' :: vs'))).
  rewrite <- !app_assoc, IH. reflexivity.
Qed.

Lemma join_members m rest :
  join [","%char]
    (map (fun kv => match kv with
                    | (k, x) => encode_str k ++ ":"%char :: dumps_bytes x
                    end) m) ++ "}"%char :: rest
  = members_text m rest.
Proof.
  induction m as [|[k v] ms IH]; [reflexivity|].
  destruct ms as [|kv' ms'].
  - simpl. rewrite <- app_assoc. reflexivity.
  - set (f := fun kv : string * json =>
                match kv with
                | (k, x) => encode_str k ++ ":"%char :: dumps_bytes x
                end) in *.
    change (join [","%char] (map f ((k, v) :: kv' :: ms')))
      with (f (k, v) ++ [","%char] ++ join [","%char] (map f (kv' :: ms'))).
    rewrite <- !app_assoc, IH. unfold f. simpl.
    rewrite <- !app_assoc. reflexivity.
Qed.

Lemma parse_elems_text l :
  Forall parses l -> forallb wf l = true -> l <> [] ->
  forall fuel w1 w2 rest,
    (list_size l <= fuel)%nat ->
    forallb is_ws w1 = true -> forallb is_ws w2 = true ->
    parse_elems fuel (elems_text w1 w2 l rest) = Some (l, rest).
Proof.
  induction l as [|v vs IH]; [congruence|].
  intros HF Hwf _ fuel w1 w2 rest Hsz Hw1 Hw2.
  inversion HF as [|? ? Hv Hvs]; subst.
  simpl in Hwf. apply andb_prop in Hwf as [Hwv Hwvs].
  unfold list_size in Hsz; simpl in Hsz; fold (list_size vs) in Hsz.
  destruct fuel as [|n]; [lia|].
  rewrite parse_elems_S. cbn [elems_text].
  destruct vs as [|v' vs'].
  - rewrite (Hv Hwv n w1 (w2 ++ "]"%char :: rest)); try assumption;
      [|lia|now apply delim_ws].
    rewrite skip_ws_app by assumption. reflexivity.
  - rewrite (Hv Hwv n w1 (","%char :: elems_text w1 w2 (v' :: vs') rest));
      try assumption; [|lia|reflexivity].
    rewrite skip_ws_cons by reflexivity.
    change (Ascii.eqb "," ",") with true. cbv iota.
    rewrite IH; try assumption; [reflexivity|discriminate|lia].
Qed.

Lemma read_encode_str k rest :
  exists body,
    encode_str k ++ rest = DQUOTE :: body /\
    read_str body = Some (list_ascii_of_string k, rest).
Proof.
  exists (escape (list_ascii_of_string k) ++ DQUOTE :: rest). split.
  - unfold encode_str. simpl. now rewrite <- app_assoc.
  - apply read_escape.
Qed.

Lemma parse_members_text m :
  Forall (fun kv => parses (snd kv)) m ->
  forallb (fun kv => match kv with (_, x) => wf x end) m = true ->
  m <> [] ->
  forall fuel rest,
    (members_size m <= fuel)%nat ->
    parse_members fuel (members_text m rest) = Some (m, rest).
Proof.
  induction m as [|[k v] ms IH]; [congruence|].
  intros HF Hwf _ fuel rest Hsz.
  inversion HF as [|? ? Hv Hvs]; subst. simpl in Hv.
  simpl in Hwf. apply andb_prop in Hwf as [Hwv Hwvs].
  unfold members_size in Hsz; simpl in Hsz; fold (members_size ms) in Hsz.
  destruct fuel as [|n]; [lia|].
  rewrite parse_members_S. cbn [members_text].
  destruct (read_encode_str k
              (":"%char :: dumps_bytes v
                 ++ match ms with
                    | [] => "}"%char :: rest
                    | _ :: _ => ","%char :: members_text ms rest
                    end)) as (body & Eb & Hb).
  rewrite Eb, skip_ws_cons by reflexivity.
  change (Ascii.eqb DQUOTE DQUOTE) with true. cbv iota.
  rewrite Hb, skip_ws_cons by reflexivity.
  change (Ascii.eqb ":" ":") with true. cbv iota.
  rewrite string_of_list_ascii_of_string.
  destruct ms as [|kv' ms'].
  - assert (Hp := Hv Hwv n [] ("}"%char :: rest)).
    cbn [app] in Hp. rewrite Hp by (try reflexivity; lia).
    reflexivity.
  - assert (Hp := Hv Hwv n [] (","%char :: members_text (kv' :: ms') rest)).
    cbn [app] in Hp. rewrite Hp by (try reflexivity; lia).
    rewrite skip_ws_cons by reflexivity.
    change (Ascii.eqb "," ",") with true. cbv iota.
    rewrite IH; try assumption; [reflexivity|discriminate|lia].
Qed.

Lemma parses_all v : parses v.
Proof.
  induction v as [| x | z | lit | s | l IH | m IH] using json_rect';
    intros Hwf fuel w rest Hsz Hw Hd;
    (destruct fuel as [|n]; [simpl in Hsz; lia|]).
  - rewrite parse_value_S, skip_ws_app by assumption. reflexivity.
  - rewrite parse_value_S, skip_ws_app by assumption. destruct x; reflexivity.
  - change (dumps_bytes (JInt z)) with (encode_int z).
    apply parse_number;
      [assumption|apply encode_int_valid|apply encode_int_read|assumption].
  - simpl in Hwf. apply andb_prop in Hwf as [Hv Hf].
    change (dumps_bytes (JFloat lit)) with (list_ascii_of_string lit).
    apply parse_number; [assumption|assumption| |assumption].
    unfold num_of_lit. now rewrite Hv, Hf, string_of_list_ascii_of_string.
  - rewrite parse_value_S, skip_ws_app by assumption.
    destruct (read_encode_str s rest) as (body & Eb & Hb).
    cbn [dumps_bytes]. rewrite Eb, skip_ws_cons by reflexivity.
    change (Ascii.eqb DQUOTE "[") with false.
    change (Ascii.eqb DQUOTE "{") with false.
    change (Ascii.eqb DQUOTE DQUOTE) with true. cbv iota.
    now rewrite Hb, string_of_list_ascii_of_string.
  - rewrite parse_value_S, skip_ws_app by assumption.
    cbn [dumps_bytes]. simpl app. rewrite <- app_assoc. simpl app.
    rewrite join_elems, skip_ws_cons by reflexivity.
    change (Ascii.eqb "[" "[") with true. cbv iota.
    destruct l as [|v vs]; [reflexivity|].
    simpl in Hwf. pose proof Hwf as Hwf'.
    apply andb_prop in Hwf' as [Hwv _].
    destruct (dumps_start Hwv) as (c & t & Ec & Hc).
    destruct (value_start_spec Hc) as (Hc1 & Hc2 & _).
    assert (Hs : skip_ws (elems_text [] [] (v :: vs) rest)
                 = c :: t ++ match vs with
                             | [] => [] ++ "]"%char :: rest
                             | _ :: _ =>
                                 ","%char :: elems_text [] [] vs rest
                             end).
    { cbn [elems_text app]. rewrite Ec. simpl app.
      now rewrite skip_ws_cons. }
    rewrite Hs, Hc2.
    rewrite parse_elems_text; try reflexivity; try assumption;
      [discriminate|].
    simpl in Hsz. unfold list_size. simpl. lia.
  - rewrite parse_value_S, skip_ws_app by assumption.
    cbn [dumps_bytes]. simpl app. rewrite <- app_assoc. simpl app.
    rewrite join_members, skip_ws_cons by reflexivity.
    change (Ascii.eqb "{" "[") with false.
    change (Ascii.eqb "{" "{") with true. cbv iota.
    destruct m as [|[k v] ms]; [reflexivity|].
    assert (Hs : exists t, skip_ws (members_text ((k, v) :: ms) rest)
                           = DQUOTE :: t).
    { cbn [members_text]. unfold encode_str. simpl app.
      rewrite skip_ws_cons by reflexivity. eauto. }
    destruct Hs as (t & ->).
    change (Ascii.eqb DQUOTE "}") with false. cbv iota.
    rewrite parse_members_text; try reflexivity; try assumption;
      [discriminate|].
    simpl in Hsz. unfold members_size. simpl. lia.
Qed.

(** Reading back what [dumps_bytes] wrote. *)
Lemma loads_dumps v : wf v = true -> size v <= S (List.length (dumps_bytes v)) ->
  loads (dumps_bytes v) = Some v.
Proof.
  intros Hwf Hsz. unfold loads.
  pose proof (@parses_all v Hwf (S (List.length (dumps_bytes v))) [] []
                Hsz eq_refl eq_refl) as Hp.
  cbn [app] in Hp. rewrite app_nil_r in Hp. now rewrite Hp.
Qed.

(** ** Fuel: the text of a value is at least as long as the value is big *)

Lemma join_length_bound (A : Type) (sz : A -> nat) (txt : A -> bytes)
    (sep : bytes) (l : list A) :
  Forall (fun x => sz x <= List.length (txt x)) l ->
  1 <= List.length sep ->
  fold_right (fun x n => S (sz x + n)) 0 l
  <= List.length (join sep (map txt l)) + 1.
Proof.
  intros HF Hsep. induction HF as [|x l Hx HF IH]; [simpl; lia|].
  destruct l as [|y l'].
  - simpl. lia.
  - cbn [map fold_right] in IH |- *. rewrite join_cons2, !length_app. lia.
Qed.

Lemma size_le_length v :
  wf v = true -> size v <= List.length (dumps_bytes v).
Proof.
  induction v as [| x | z | lit | s | l IH | m IH] using json_rect';
    intros Hwf.
  - simpl. lia.
  - destruct x; simpl; lia.
  - destruct (num_run_start (encode_int_valid z)) as (c & t & E & _).
    simpl. rewrite E. simpl. lia.
  - simpl in Hwf. apply andb_prop in Hwf as [Hv _].
    destruct (num_run_start Hv) as (c & t & E & _).
    simpl. rewrite E. simpl. lia.
  - simpl. lia.
  - cbn [size dumps_bytes]. simpl List.length. rewrite length_app. simpl.
    assert (H : Forall (fun x => size x <= List.length (dumps_bytes x)) l).
    { simpl in Hwf. rewrite forallb_forall in Hwf.
      rewrite Forall_forall in IH |- *. intros x Hx. apply IH; auto. }
    pose proof (@join_length_bound _ size dumps_bytes [","%char] l H
                  (le_n 1)). lia.
  - set (f := fun kv : string * json =>
                match kv with
                | (k, x) => encode_str k ++ ":"%char :: dumps_bytes x
                end).
    change (dumps_bytes (JObj m))
      with ("{"%char :: join [","%char] (map f m) ++ ["}"%char]).
    change (size (JObj m)) with (S (members_size m)). unfold members_size.
    cbn [List.length]. rewrite length_app. cbn [List.length].
    assert (H : Forall (fun kv => size (snd kv) <= List.length (f kv)) m).
    { simpl in Hwf. rewrite forallb_forall in Hwf.
      rewrite Forall_forall in IH |- *. intros [k x] Hx.
      specialize (IH _ Hx). specialize (Hwf _ Hx). simpl in *.
      rewrite length_app. simpl. specialize (IH Hwf). lia. }
    pose proof (@join_length_bound _ (fun kv => size (snd kv)) f
                  [","%char] m H (le_n 1)) as Hb.
    apply le_n_S. exact Hb.
Qed.

(** ** The written file reads back as the array of the items *)

Lemma render_elems v vs rest :
  NL :: join [","%char; NL] (map dumps_bytes (v :: vs)) ++ NL :: "]"%char :: rest
  = elems_text [NL] [NL] (v :: vs) rest.
Proof.
  revert v. induction vs as [|v' vs IH]; intros v.
  - reflexivity.
  - rewrite elems_text_cons2, <- IH. cbn [map]. rewrite join_cons2.
    cbn [map]. simpl app. rewrite <- !app_assoc. reflexivity.
Qed.

Lemma loads_render items :
  forallb wf items = true -> loads (render items) = Some (JArr items).
Proof.
  intros Hwf. destruct items as [|v vs]; [reflexivity|].
  unfold loads. remember (List.length (render (v :: vs))) as n eqn:Hn.
  rewrite parse_value_S.
  assert (Hr : render (v :: vs)
               = "["%char :: elems_text [NL] [NL] (v :: vs) [NL]).
  { unfold render. rewrite <- render_elems. reflexivity. }
  rewrite Hr. rewrite skip_ws_cons by reflexivity.
  change (Ascii.eqb "[" "[") with true. cbv iota.
  pose proof Hwf as Hwf'. simpl in Hwf'.
  apply andb_prop in Hwf' as [Hwv Hwvs].
  destruct (dumps_start Hwv) as (c & t & Ec & Hc).
  destruct (value_start_spec Hc) as (Hc1 & Hc2 & _).
  assert (Hs : exists t', skip_ws (elems_text [NL] [NL] (v :: vs) [NL])
                          = c :: t').
  { cbn [elems_text]. rewrite Ec. simpl app.
    match goal with
    | |- context [skip_ws (NL :: ?r)] =>
        change (skip_ws (NL :: r)) with (skip_ws r)
    end.
    rewrite skip_ws_cons by assumption. eauto. }
  destruct Hs as (t' & ->). rewrite Hc2.
  rewrite parse_elems_text; try reflexivity; try assumption.
  - rewrite Forall_forall. intros x _. apply parses_all.
  - discriminate.
  - subst n. unfold render, list_size.
    assert (H : Forall (fun x => size x <= List.length (dumps_bytes x))
                  (v :: vs)).
    { rewrite Forall_forall. rewrite forallb_forall in Hwf.
      intros x Hx. apply size_le_length; auto. }
    pose proof (@join_length_bound _ size dumps_bytes [","%char; NL]
                  (v :: vs) H (le_S _ _ (le_n 1))) as Hb.
    rewrite length_app. simpl List.length in *. lia.
Qed.

(** ** The reader is strict about separators *)

Example loads_empty_array : loads ["["%char; NL; NL; "]"%char; NL] = Some (JArr []).
Proof. reflexivity. Qed.

Example loads_spaced_array :
  loads (b "[ 1 , 2.5e3 ,[] , {} ]")
  = Some (JArr [JInt 1; JFloat "2.5e3"; JArr []; JObj []]).
Proof. reflexivity. Qed.

Example loads_leading_comma : loads (b "[,1]") = None.
Proof. reflexivity. Qed.

Example loads_trailing_comma : loads (b "[1,]") = None.
Proof. reflexivity. Qed.

Example loads_doubled_comma : loads (b "[1,,2]") = None.
Proof. reflexivity. Qed.

Example loads_missing_comma : loads (b "[1 2]") = None.
Proof. reflexivity. Qed.

Example loads_two_arrays : loads (b "[1][2]") = None.
Proof. reflexivity. Qed.

Example loads_unclosed_array : loads (b "[1,2") = None.
Proof. reflexivity. Qed.

Example loads_leading_zero : loads (b "[01]") = None.
Proof. reflexivity. Qed.

(** ** The reader of [json.load] and the reader of RFC 8259 *)

Lemma strip_prefix_Some lit : forall s t,
  strip_prefix lit s = Some t -> s = lit ++ t.
Proof.
  induction lit as [|c lit IH]; intros s t; cbn [strip_prefix app].
  - now intros [= ->].
  - destruct s as [|d s]; [discriminate|].
    destruct (Ascii.eqb c d) eqn:Hc; [|discriminate].
    apply Ascii.eqb_eq in Hc. subst d. intros H. now rewrite (IH _ _ H).
Qed.

(** What the reader of RFC 8259 accepts, [json.load] reads as the same
    value. *)
Lemma load_value_agrees fuel :
  (forall s r, parse_value fuel s = Some r -> load_value fuel s = Some r) /\
  (forall s r, parse_elems fuel s = Some r -> load_elems fuel s = Some r) /\
  (forall s r, parse_members fuel s = Some r -> load_members fuel s = Some r).
Proof.
  induction fuel as [|n (IHv & IHe & IHm)];
    [repeat split; intros s r; discriminate|].
  split; [|split]; intros s r H.
  - cbn [parse_value] in H. cbn [load_value].
    destruct (skip_ws s) as [|c r0]; [discriminate|].
    destruct (Ascii.eqb c "[").
    { destruct (skip_ws r0) as [|c' r']; [discriminate|].
      destruct (Ascii.eqb c' "]"); [exact H|].
      destruct (parse_elems n r0) as [[l t]|] eqn:He; [|discriminate].
      now rewrite (IHe _ _ He). }
    destruct (Ascii.eqb c "{").
    { destruct (skip_ws r0) as [|c' r']; [discriminate|].
      destruct (Ascii.eqb c' "}"); [exact H|].
      destruct (parse_members n r0) as [[m t]|] eqn:Hm; [|discriminate].
      now rewrite (IHm _ _ Hm). }
    destruct (Ascii.eqb c DQUOTE); [exact H|].
    destruct (Ascii.eqb c "t"); [exact H|].
    destruct (Ascii.eqb c "f"); [exact H|].
    destruct (Ascii.eqb c "n"); [exact H|].
    destruct (Ascii.eqb c "N") eqn:HN.
    { apply Ascii.eqb_eq in HN. subst c. cbn in H. discriminate. }
    destruct (Ascii.eqb c "I") eqn:HI.
    { apply Ascii.eqb_eq in HI. subst c. cbn in H. discriminate. }
    destruct (strip_prefix (b "-Infinity") (c :: r0)) as [t|] eqn:Hp;
      [|exact H].
    apply strip_prefix_Some in Hp. cbn in Hp. injection Hp as -> ->.
    cbn in H. discriminate.
  - cbn [parse_elems] in H. cbn [load_elems].
    destruct (parse_value n s) as [[v r0]|] eqn:Hv; [|discriminate].
    rewrite (IHv _ _ Hv).
    destruct (skip_ws r0) as [|c r']; [discriminate|].
    destruct (Ascii.eqb c ","); [|exact H].
    destruct (parse_elems n r') as [[vs t]|] eqn:He; [|discriminate].
    now rewrite (IHe _ _ He).
  - cbn [parse_members] in H. cbn [load_members].
    destruct (skip_ws s) as [|q r0]; [discriminate|].
    destruct (Ascii.eqb q DQUOTE); [|discriminate].
    destruct (read_str r0) as [[k r1]|]; [|discriminate].
    destruct (skip_ws r1) as [|c1 r2]; [discriminate|].
    destruct (Ascii.eqb c1 ":"); [|discriminate].
    destruct (parse_value n r2) as [[v r3]|] eqn:Hv; [|discriminate].
    rewrite (IHv _ _ Hv).
    destruct (skip_ws r3) as [|c r']; [discriminate|].
    destruct (Ascii.eqb c ","); [|exact H].
    destruct (parse_members n r') as [[m t]|] eqn:Hm; [|discriminate].
    now rewrite (IHm _ _ Hm).
Qed.

Lemma loads_json_loads c v : loads c = Some v -> json_loads c = Some v.
Proof.
  unfold loads, json_loads. intros H.
  destruct (parse_value (S (List.length c)) c) as [[x r]|] eqn:Hp;
    [|discriminate].
  now rewrite (proj1 (load_value_agrees _) _ _ Hp).
Qed.

End JsonFacts.

Module Logic.

Import Json Py Script Spec.

Section Rules.

Variable R : world -> world -> Prop.
Hypothesis R_refl : forall w, R w w.
Hypothesis R_trans : forall w1 w2 w3, R w1 w2 -> R w2 w3 -> R w1 w3.

Lemma sat_ret A (P : A -> Prop) ok (a : A) : P a -> sat R P ok (ret a).
Proof. intros H w. simpl. auto. Qed.

Lemma sat_raise A (P : A -> Prop) (ok : exn -> Prop) e :
  ok e -> sat R P ok (raise e).
Proof. intros H w. simpl. auto. Qed.

Lemma sat_out_of_fuel A (P : A -> Prop) ok : sat R P ok (@out_of_fuel A).
Proof. intros w. simpl. auto. Qed.

Lemma sat_lift A (P : A -> Prop) (ok : exn -> Prop) (r : exception + A) :
  (forall e, ok (Exc e)) -> (forall a, r = inr a -> P a) ->
  sat R P ok (lift r).
Proof.
  intros Hok HP. destruct r as [e|a]; simpl.
  - apply sat_raise, Hok.
  - apply sat_ret, HP. reflexivity.
Qed.

Lemma sat_bind A B (P : A -> Prop) (Q : B -> Prop) ok (m : M A) (k : A -> M B) :
  sat R P ok m -> (forall a, P a -> sat R Q ok (k a)) ->
  sat R Q ok (bind m k).
Proof.
  intros Hm Hk w. unfold bind. specialize (Hm w).
  destruct (m w) as [[a|e|] w1]; simpl in *; try tauto.
  destruct Hm as [HR HP]. specialize (Hk a HP w1).
  destruct (k a w1) as [r w2]; simpl in *.
  destruct Hk as [HR' HQ]. split; [eapply R_trans; eauto|exact HQ].
Qed.

Lemma sat_try_except A B (P : A -> Prop) (Q : B -> Prop) ok ok'
    (m : M A) filter (handler : exception -> M B) (normal : A -> M B) :
  sat R P ok' m ->
  (forall e, filter e = true -> sat R Q ok (handler e)) ->
  (forall a, P a -> sat R Q ok (normal a)) ->
  (forall c, ok' (SystemExit c) -> ok (SystemExit c)) ->
  (forall e, filter e = false -> ok' (Exc e) -> ok (Exc e)) ->
  sat R Q ok (try_except m filter handler normal).
Proof.
  intros Hm Hh Hn Hx He w. unfold try_except. specialize (Hm w).
  destruct (m w) as [[a|[c|e]|] w1]; simpl in *.
  - destruct Hm as [HR HP]. specialize (Hn a HP w1).
    destruct (normal a w1) as [r w2]; simpl in *.
    destruct Hn as [HR' HQ]. split; [eapply R_trans; eauto|exact HQ].
  - destruct Hm; split; auto.
  - destruct Hm as [HR Hok]. destruct (filter e) eqn:Hf.
    + specialize (Hh e Hf w1). destruct (handler e w1) as [r w2]; simpl in *.
      destruct Hh as [HR' HQ]. split; [eapply R_trans; eauto|exact HQ].
    + simpl. auto.
  - tauto.
Qed.

Lemma sat_weaken A (P P' : A -> Prop) (ok ok' : exn -> Prop) (m : M A) :
  sat R P ok m -> (forall a, P a -> P' a) -> (forall e, ok e -> ok' e) ->
  sat R P' ok' m.
Proof.
  intros Hm HP Hok w. specialize (Hm w).
  destruct (m w) as [[a|e|] w1]; simpl in *; intuition.
Qed.

(** Logging, sleeping and talking to the server leave [R] alone when [R]
    only looks at the files. *)
Hypothesis R_log :
  forall w tr g, R w {| trace := tr; gets := g; fs := fs w |}.

Lemma sat_emit ok ev : sat R (fun _ => True) ok (emit ev).
Proof. intros w. simpl. split; [apply R_log|exact I]. Qed.

Lemma sat_print ok m : sat R (fun _ => True) ok (print m).
Proof. apply sat_emit. Qed.

Lemma sat_print_stderr ok m : sat R (fun _ => True) ok (print_stderr m).
Proof. apply sat_emit. Qed.

Lemma sat_raise_for_status ok r :
  (forall e, ok (Exc e)) -> sat R (fun _ => True) ok (raise_for_status r).
Proof.
  intros Hok. unfold raise_for_status.
  destruct (_ && _); [apply sat_raise, Hok|now apply sat_ret].
Qed.

Variable E : env.

Lemma sat_time_sleep ok d :
  (forall e, ok (Exc e)) -> sat R (fun _ => True) ok (time_sleep E d).
Proof.
  intros Hok. unfold time_sleep.
  eapply sat_bind; [apply sat_emit|]. intros _ _.
  destruct (sleep_error E d); [apply sat_raise, Hok|now apply sat_ret].
Qed.

Lemma sat_session_get ok session u p :
  (forall e, ok (Exc e)) ->
  sat R (fun r => exists n rq, net E n rq = inr r) ok
    (session_get E session u p).
Proof.
  intros Hok w. unfold session_get.
  destruct (net E (gets w) _) as [e|r] eqn:Hn; simpl.
  - split; [apply R_log|apply Hok].
  - split; [apply R_log|eauto].
Qed.

Lemma sat_fetch_loop fuel session u p attempt :
  sat R (sent E) not_exit (fetch_loop E fuel session u p attempt).
Proof.
  revert attempt.
  induction fuel as [|fuel IH]; intros attempt; simpl.
  - apply sat_out_of_fuel.
  - eapply sat_try_except with (ok' := not_exit).
    + apply sat_session_get. intros; exact I.
    + intros e _. destruct (_ >? _)%Z; [now apply sat_raise|].
      eapply sat_bind; [apply sat_print|]. intros _ _.
      eapply sat_bind; [apply sat_time_sleep; intros; exact I|].
      intros _ _. apply IH.
    + intros r (n & rq & Hr).
      destruct (status_code r =? 200)%Z.
      * apply sat_lift; [intros; exact I|]. intros v Hv. exists n, rq, r. auto.
      * destruct (retryable (status_code r)).
        -- eapply sat_bind with (P := fun _ => True).
           ++ destruct (_ >? _)%Z;
                [apply sat_raise_for_status; intros; exact I|now apply sat_ret].
           ++ intros _ _. eapply sat_bind; [apply sat_print|]. intros _ _.
              eapply sat_bind; [apply sat_time_sleep; intros; exact I|].
              intros _ _. apply IH.
        -- eapply sat_bind;
             [apply sat_raise_for_status; intros; exact I|].
           intros _ _. apply IH.
    + auto.
    + auto.
Qed.

End Rules.

End Logic.

Module ScriptFacts.

Import Json Py Script Spec JsonFacts Logic.

(** ** The [for] loop *)

Lemma write_items_spec f items first w :
  exists w',
    write_items f items first w = (Ret (first && is_nil items), w') /\
    trace w' = trace w /\ gets w' = gets w /\
    (items = [] -> w' = w) /\
    (forall c, fs w f = Some c ->
               fs w' f = Some (c ++ items_bytes first items)).
Proof.
  revert first w. induction items as [|x r IH]; intros first w.
  - exists w. simpl. rewrite andb_true_r. repeat split; auto.
    intros c ->. now rewrite app_nil_r.
  - cbn [write_items]. unfold bind.
    set (w1 := snd ((if negb first then f_write f [","%char; NL] else ret tt) w)).
    assert (H1 : (if negb first then f_write f [","%char; NL] else ret tt) w
                 = (Ret tt, w1)) by (unfold w1; destruct first; reflexivity).
    rewrite H1. cbn [f_write].
    destruct (IH false
                (fs_set f (match fs w1 f with Some c => c | None => [] end
                            ++ dumps_bytes x) w1))
      as (w' & Hw & Ht & Hg & _ & Hf).
    exists w'. rewrite Hw. rewrite andb_false_r.
    split; [reflexivity|].
    assert (Hw1 : trace w1 = trace w /\ gets w1 = gets w)
      by (unfold w1; destruct first; simpl; auto).
    destruct Hw1 as [Ht1 Hg1].
    split; [now rewrite Ht; simpl|]. split; [now rewrite Hg; simpl|].
    split; [discriminate|].
    intros c Hc.
    assert (Hc1 : fs w1 f = Some (c ++ (if first then [] else [","%char; NL]))).
    { unfold w1. destruct first; simpl.
      - now rewrite app_nil_r.
      - now rewrite String.eqb_refl, Hc. }
    rewrite (Hf ((c ++ (if first then [] else [","%char; NL]))
                   ++ dumps_bytes x)).
    + cbn [items_bytes]. now rewrite <- !app_assoc.
    + simpl. now rewrite String.eqb_refl, Hc1.
Qed.

Lemma items_bytes_app first a c :
  items_bytes first (a ++ c)
  = items_bytes first a ++ items_bytes (first && is_nil a) c.
Proof.
  revert first. induction a as [|x r IH]; intros first; simpl.
  - now rewrite andb_true_r.
  - rewrite IH, andb_false_r. simpl. now rewrite <- !app_assoc.
Qed.

Lemma items_bytes_false x r :
  items_bytes false (x :: r)
  = [","%char; NL] ++ join [","%char; NL] (map dumps_bytes (x :: r)).
Proof.
  revert x. induction r as [|y r IH]; intros x.
  - simpl. now rewrite app_nil_r.
  - cbn [map]. rewrite join_cons2. cbn [map] in IH. rewrite <- IH.
    reflexivity.
Qed.

Lemma items_bytes_join items :
  items_bytes true items = join [","%char; NL] (map dumps_bytes items).
Proof.
  destruct items as [|x [|y r]]; try reflexivity.
  - simpl. now rewrite app_nil_r.
  - cbn [map]. rewrite join_cons2.
    change (items_bytes true (x :: y :: r))
      with (dumps_bytes x ++ items_bytes false (y :: r)).
    now rewrite items_bytes_false.
Qed.

Lemma render_items items :
  render items = (["["%char; NL] ++ items_bytes true items)
                   ++ [NL; "]"%char; NL].
Proof. unfold render. now rewrite items_bytes_join. Qed.

(** ** One turn of the loop *)

Lemma page_step_ok E f p st w :
  page_ok p = true -> LOG_EVERY E <> 0%Z ->
  exists w',
    page_step E f p st w = (Ret (step_vars p st, has_next p), w') /\
    trace w' = trace w ++ page_events E p st /\
    gets w' = gets w /\
    (page_items p = [] -> fs w' = fs w) /\
    (forall c, fs w f = Some c ->
               fs w' f = Some (c ++ items_bytes (first_item st) (page_items p))).
Proof.
  intros Hok Hlog. destruct p as [| | | | | |m]; try discriminate.
  assert (Hit : py_iter (match lookup "items" m with
                         | Some v => v
                         | None => JArr []
                         end) = inr (page_items (JObj m))).
  { simpl in *. destruct (lookup "items" m) as [[| | | | |l|]|];
      try discriminate; reflexivity. }
  destruct (write_items_spec f (page_items (JObj m)) (first_item st) w)
    as (w1 & Hw & Ht & Hg & Hnil & Hf).
  unfold page_step, bind. cbn [py_get lift ret]. rewrite Hit. cbn [lift ret].
  rewrite Hw. apply Z.eqb_neq in Hlog. rewrite Hlog. cbn [ret].
  unfold page_events, logs_page, step_vars, has_next, api_total.
  cbn [link].
  set (lg := ((pages st + 1) mod LOG_EVERY E =? 0)%Z || (pages st + 1 =? 1)%Z).
  set (nl := match lookup "nextLink" m with Some v => v | None => JNull end).
  destruct lg, (truthy nl); cbn [negb print emit ret trace gets fs];
    eexists; (split; [reflexivity|]); cbn [trace gets fs];
    rewrite ?Ht, ?Hg, <- ?app_assoc, ?app_nil_r;
    (split; [reflexivity|]); (split; [reflexivity|]);
    (split; [intros Hn; now rewrite (Hnil Hn)|exact Hf]).
Qed.

(** ** Fetching a page the server sends at once *)

Lemma fetch_page_served E fuel session u p w r v :
  net E (gets w)
    {| req_headers := session; req_url := u; req_params := p |} = inr r ->
  status_code r = 200%Z -> json_body r = inr v ->
  fetch_page E (S fuel) session u p w
  = (Ret v,
     {| trace := trace w
                   ++ [EGet {| req_headers := session; req_url := u;
                               req_params := p |} (inr r)];
        gets := S (gets w); fs := fs w |}).
Proof.
  intros Hn Hs Hb. unfold fetch_page. cbn [fetch_loop].
  unfold try_except, session_get. rewrite Hn, Hs. cbn [Z.eqb Pos.eqb].
  unfold lift. now rewrite Hb.
Qed.

Lemma requests_app a c : requests (a ++ c) = requests a ++ requests c.
Proof. unfold requests. apply flat_map_app. Qed.

Lemma requests_page_events E p st : requests (page_events E p st) = [].
Proof.
  unfold page_events. destruct (logs_page _ _), (has_next p); reflexivity.
Qed.

Lemma served_from_tail E g p ps :
  served_from E g (p :: ps) -> served_from E (S g) ps.
Proof.
  intros H i q rq Hq. specialize (H (S i) q rq Hq).
  now rewrite Nat.add_succ_r in H.
Qed.

(** ** The loop against a server that sends [ps] *)

Lemma stream_loop_served E session f ffuel ps :
  LOG_EVERY E <> 0%Z ->
  forall st w c fuel,
    chain ps = true -> served_from E (gets w) ps ->
    fs w f = Some c -> List.length ps <= fuel ->
    exists st' w',
      stream_loop E fuel (S ffuel) session f st w = (Ret st', w') /\
      fs w' f = Some (c ++ items_bytes (first_item st) (all_items ps)) /\
      gets w' = gets w + List.length ps /\
      requests (trace w')
      = requests (trace w) ++ reqs session (url st) (params st) ps /\
      pages st' = (pages st + Z.of_nat (List.length ps))%Z /\
      items_total st'
      = (items_total st + Z.of_nat (List.length (all_items ps)))%Z /\
      first_item st' = first_item st && is_nil (all_items ps).
Proof.
  intros Hlog. induction ps as [|p ps IH]; intros st w c fuel Hch Hsv Hc Hfuel;
    [discriminate|].
  destruct fuel as [|fuel]; [simpl in Hfuel; lia|].
  cbn [chain] in Hch. apply andb_prop in Hch as [Hok Hch].
  destruct (Hsv 0 p {| req_headers := session; req_url := url st;
                       req_params := params st |} eq_refl)
    as (r & Hn & Hs & Hb).
  rewrite Nat.add_0_r in Hn.
  cbn [stream_loop]. unfold bind at 1.
  rewrite (fetch_page_served ffuel Hn Hs Hb).
  set (w1 := {| trace := _; gets := _; fs := _ |}).
  destruct (page_step_ok f st w1 Hok Hlog) as (w2 & Hstep & Ht & Hg & _ & Hf).
  unfold bind. rewrite Hstep. cbn [fst snd].
  specialize (Hf c Hc).
  destruct ps as [|q ps'].
  - apply negb_true_iff in Hch. rewrite Hch. cbn [ret].
    exists (step_vars p st), w2. split; [reflexivity|].
    unfold all_items. cbn [map List.concat]. rewrite app_nil_r.
    split; [exact Hf|].
    split; [rewrite Hg; unfold w1; simpl; lia|].
    split.
    { rewrite Ht, requests_app, requests_page_events, app_nil_r.
      unfold w1. cbn [trace]. now rewrite requests_app. }
    unfold step_vars. cbn [pages items_total first_item List.length].
    repeat split; lia.
  - apply andb_prop in Hch as [Hnext Hch]. rewrite Hnext.
    assert (Hsv2 : served_from E (gets w2) (q :: ps')).
    { rewrite Hg. unfold w1. cbn [gets].
      now apply served_from_tail with (p := p). }
    destruct (IH (step_vars p st) w2 _ fuel Hch Hsv2 Hf)
      as (st' & w' & Hrun & Hf' & Hg' & Hrq & Hp & Hit & Hfi);
      [simpl in Hfuel |- *; lia|].
    exists st', w'. split; [exact Hrun|].
    unfold all_items in *. cbn [map List.concat].
    rewrite items_bytes_app, app_assoc.
    split; [exact Hf'|].
    split; [rewrite Hg', Hg; unfold w1; simpl; lia|].
    split.
    { rewrite Hrq, Ht, requests_app, requests_page_events, app_nil_r.
      unfold w1. cbn [trace]. rewrite requests_app, <- app_assoc.
      unfold step_vars. rewrite Hnext. reflexivity. }
    rewrite Hp, Hit, Hfi. unfold step_vars.
    cbn [pages items_total first_item].
    rewrite length_app. cbn [map List.concat List.length].
    split; [lia|]. split; [lia|].
    destruct (page_items p); simpl; now rewrite ?andb_true_r, ?andb_false_r.
Qed.

(** ** The loop against any server *)

Lemma lookup_wf k m v :
  forallb (fun kv => match kv with (_, x) => wf x end) m = true ->
  lookup k m = Some v -> wf v = true.
Proof.
  induction m as [|[k' x] m IH]; simpl; [discriminate|].
  intros H. apply andb_prop in H as [Hx Hm].
  destruct (String.eqb k k'); [now intros [= <-]|auto].
Qed.

Lemma py_iter_wf v items :
  wf v = true -> py_iter v = inr items -> forallb wf items = true.
Proof.
  destruct v as [| | | |s|l|m]; simpl; try discriminate; intros Hwf [= <-].
  - apply forallb_forall. intros x Hx. apply in_map_iff in Hx.
    now destruct Hx as (ch & <- & _).
  - exact Hwf.
  - apply forallb_forall. intros x Hx. apply in_map_iff in Hx.
    now destruct Hx as (kv & <- & _).
Qed.

(** ** Servers that send given pages *)

Lemma served_serve E ps :
  net E = serve ps -> served_from E 0 ps.
Proof.
  intros HE i p rq Hi. exists (ok_response p).
  rewrite HE. unfold serve. simpl. now rewrite Hi.
Qed.

Lemma wf_net_serve E ps :
  net E = serve ps -> forallb wf ps = true -> wf_net E.
Proof.
  intros HE Hwf n rq r v. rewrite HE. unfold serve.
  destruct (nth_error ps n) as [p|] eqn:Hp; [|discriminate].
  intros [= <-]. simpl. intros [= <-].
  rewrite forallb_forall in Hwf. apply Hwf. eapply nth_error_In; eauto.
Qed.

End ScriptFacts.

Module Properties.

Import Json Py Script Spec JsonFacts Logic ScriptFacts.

(** ** The file the streaming loop writes *)

Lemma chain_wf ps : chain ps = true -> forallb wf (all_items ps) = true.
Proof.
  induction ps as [|p ps IH]; [discriminate|].
  cbn [chain]. intros H. apply andb_prop in H as [Hok Hch].
  unfold all_items. cbn [map List.concat]. rewrite forallb_app.
  apply andb_true_intro. split.
  - destruct p as [| | | | | |m]; try discriminate. simpl in *.
    destruct (lookup "items" m) as [[| | | | |l|]|]; try discriminate;
      auto.
  - destruct ps as [|q ps']; [reflexivity|].
    apply andb_prop in Hch as [_ Hch]. now apply IH.
Qed.


(** The [with] block against a server that sends [ps]: it returns, and
    the file is [render (all_items ps)]. *)
Lemma stream_to_file_served E session out ps fuel w :
  LOG_EVERY E <> 0%Z -> chain ps = true -> served_from E (gets w) ps ->
  List.length ps <= fuel ->
  exists st w',
    stream_to_file E fuel session out w = (Ret st, w') /\
    fs w' out = Some (render (all_items ps)) /\
    gets w' = gets w + List.length ps /\
    requests (trace w')
    = requests (trace w)
        ++ reqs session (JStr BASE_URL) (Some [("top"%string, PAGE_SIZE E)]) ps /\
    items_total st = Z.of_nat (List.length (all_items ps)) /\
    pages st = Z.of_nat (List.length ps).
Proof.
  intros Hlog Hch Hsv Hfuel.
  destruct fuel as [|ffuel]; [destruct ps; [discriminate|simpl in Hfuel; lia]|].
  unfold stream_to_file, bind. cbn [f_open_w f_write].
  set (w0 := fs_set out _ (fs_set out [] w)).
  assert (Hc : fs w0 out = Some ["["%char; NL]).
  { unfold w0. simpl. now rewrite !String.eqb_refl. }
  destruct (@stream_loop_served E session out ffuel ps Hlog (loop_vars0 E) w0
              _ (S ffuel) Hch Hsv Hc Hfuel)
    as (st & w1 & Hrun & Hf & Hg & Hrq & Hp & Hit & _).
  rewrite Hrun. eexists st, _. split; [reflexivity|].
  cbn [fs fs_set gets trace]. rewrite String.eqb_refl, Hf.
  split; [now rewrite render_items|].
  split; [exact Hg|]. split; [exact Hrq|].
  rewrite Hit, Hp. simpl. split; lia.
Qed.




(** ** Pagination *)

Lemma chain_intro pre p :
  forallb page_ok (pre ++ [p]) = true -> forallb has_next pre = true ->
  has_next p = false -> chain (pre ++ [p]) = true.
Proof.
  induction pre as [|q pre IH]; cbn [app forallb chain]; intros Hok Hn Hp.
  - apply andb_prop in Hok as [-> _]. now rewrite Hp.
  - apply andb_prop in Hok as [-> Hok]. apply andb_prop in Hn as [-> Hn].
    rewrite (IH Hok Hn Hp). now destruct pre.
Qed.

Lemma served_from_prefix E g ps post :
  served_from E g (ps ++ post) -> served_from E g ps.
Proof.
  intros H i p rq Hi. apply (H i p rq).
  rewrite nth_error_app1; [exact Hi|].
  apply nth_error_Some. congruence.
Qed.

(** C5, as the code has it.  The loop stops after the first fetched page
    whose [nextLink] is absent or falsy, and until then goes on to the next
    page, requesting the link it was given with no parameters: against a
    server that sends [pre ++ p :: post], where the pages of [pre] carry a
    truthy link and [p] does not, it makes exactly [length pre + 1]
    requests and returns; the first request goes to [BASE_URL] with the
    parameter [top], each of the others to the link of the page before it,
    without parameters. *)
Theorem pagination_follows_truthy_links E session out pre p post fuel w :
  LOG_EVERY E <> 0%Z ->
  forallb page_ok (pre ++ [p]) = true ->
  forallb has_next pre = true -> has_next p = false ->
  served_from E (gets w) (pre ++ p :: post) ->
  List.length pre < fuel ->
  exists st w',
    stream_to_file E fuel session out w = (Ret st, w') /\
    gets w' = gets w + List.length pre + 1 /\
    map req_url (requests (trace w'))
    = map req_url (requests (trace w)) ++ JStr BASE_URL :: map link pre /\
    requests (trace w')
    = requests (trace w)
        ++ {| req_headers := session; req_url := JStr BASE_URL;
              req_params := Some [("top"%string, PAGE_SIZE E)] |}
        :: map (fun q => {| req_headers := session; req_url := link q;
                            req_params := None |}) pre /\
    pages st = Z.of_nat (List.length pre + 1).
Proof.
  intros Hlog Hok Hn Hp Hsv Hfuel.
  assert (Hch : chain (pre ++ [p]) = true) by now apply chain_intro.
  assert (Hsv' : served_from E (gets w) (pre ++ [p])).
  { apply served_from_prefix with (post := post).
    now rewrite <- app_assoc. }
  assert (Hlen : List.length (pre ++ [p]) <= fuel)
    by (rewrite length_app; simpl; lia).
  destruct (stream_to_file_served session out Hlog Hch Hsv' Hlen)
    as (st & w' & Hrun & _ & Hg & Hrq & _ & Hpg).
  exists st, w'. split; [exact Hrun|].
  rewrite length_app in Hg, Hpg. simpl in Hg, Hpg.
  split; [lia|].
  assert (Hreqs : forall u ps,
             reqs session u ps (pre ++ [p])
             = {| req_headers := session; req_url := u; req_params := ps |}
                 :: map (fun q => {| req_headers := session; req_url := link q;
                                     req_params := None |}) pre).
  { clear. induction pre as [|q pre IH]; intros u ps; [reflexivity|].
    cbn [app reqs map]. f_equal. apply IH. }
  rewrite Hrq, Hreqs. split; [|split; [reflexivity|exact Hpg]].
  rewrite map_app. cbn [map req_url]. rewrite map_map. reflexivity.
Qed.

Lemma pagination_follows_truthy_links_witness :
  exists st w',
    stream_to_file (demo_env (Some "t"%string) true (serve demo_pages)) 3
      demo_session "out.json" world0 = (Ret st, w') /\
    gets w' = 0 + 2 + 1 /\
    map req_url (requests (trace w'))
    = [] ++ [JStr BASE_URL; link page1; link page2] /\
    requests (trace w')
    = [] ++ [{| req_headers := demo_session; req_url := JStr BASE_URL;
                req_params := Some [("top"%string, 200%Z)] |};
             {| req_headers := demo_session; req_url := link page1;
                req_params := None |};
             {| req_headers := demo_session; req_url := link page2;
                req_params := None |}] /\
    pages st = 3%Z.
Proof.
  apply (@pagination_follows_truthy_links
           (demo_env (Some "t"%string) true (serve demo_pages))
           demo_session "out.json" [page1; page2] page3 [] 3 world0).
  - discriminate.
  - reflexivity.
  - reflexivity.
  - reflexivity.
  - apply served_serve. reflexivity.
  - simpl. lia.
Defined.

(** While every page carries a truthy link, the loop does not stop. *)
Lemma pagination_goes_on_while_linked E session f ffuel :
  LOG_EVERY E <> 0%Z ->
  (forall n rq, exists r p,
      net E n rq = inr r /\ status_code r = 200%Z /\ json_body r = inr p /\
      page_ok p = true /\ has_next p = true) ->
  forall fuel st w,
    fst (stream_loop E fuel (S ffuel) session f st w) = OutOfFuel.
Proof.
  intros Hlog Hnet. induction fuel as [|fuel IH]; intros st w; [reflexivity|].
  destruct (Hnet (gets w) {| req_headers := session; req_url := url st;
                             req_params := params st |})
    as (r & p & Hn & Hs & Hb & Hok & Hnext).
  cbn [stream_loop]. unfold bind at 1.
  rewrite (fetch_page_served ffuel Hn Hs Hb).
  set (w1 := {| trace := _; gets := _; fs := _ |}).
  destruct (page_step_ok f st w1 Hok Hlog) as (w2 & Hstep & _).
  unfold bind. rewrite Hstep. cbn [fst snd]. rewrite Hnext. apply IH.
Qed.

(** C5 as it is worded fails: a page whose [nextLink] field is present but
    empty, or present and [null], ends the loop; the second page is never
    requested. *)
Lemma pagination_stops_on_blank_link :
  py_get blank_link_page "nextLink" JNull = inr (JStr "") /\
  returned
    (fst (stream_to_file
            (demo_env (Some "t"%string) true (serve [blank_link_page; page3]))
            5 demo_session "out.json" world0)) = true /\
  gets
    (snd (stream_to_file
            (demo_env (Some "t"%string) true (serve [blank_link_page; page3]))
            5 demo_session "out.json" world0)) = 1 /\
  lookup "nextLink" null_link_members = Some JNull /\
  returned
    (fst (stream_to_file
            (demo_env (Some "t"%string) true
               (serve [JObj null_link_members; page3]))
            5 demo_session "out.json" world0)) = true /\
  gets
    (snd (stream_to_file
            (demo_env (Some "t"%string) true
               (serve [JObj null_link_members; page3]))
            5 demo_session "out.json" world0)) = 1.
Proof. repeat split; vm_compute; reflexivity. Qed.

(** C10, as the code has it.  A page (an object) without an [items]
    field is treated as an empty page: the turn of the loop does what it
    does for the same page with an empty [items] list; [LOG_EVERY] not
    being zero, it raises nothing, leaves every file as it is, keeps the
    item count and the first-item flag and counts the page; the loop goes
    on exactly when the [nextLink] of the page is truthy, and then to
    that link, without parameters. *)
Theorem page_without_items_is_empty E f m st w :
  lookup "items" m = None -> LOG_EVERY E <> 0%Z ->
  page_step E f (JObj m) st w
  = page_step E f (JObj (("items"%string, JArr []) :: m)) st w /\
  exists st' w',
    page_step E f (JObj m) st w = (Ret (st', truthy (link (JObj m))), w') /\
    fs w' = fs w /\
    items_total st' = items_total st /\
    first_item st' = first_item st /\
    pages st' = (pages st + 1)%Z /\
    (forall v, lookup "nextLink" m = Some v -> truthy v = true ->
               truthy (link (JObj m)) = true /\ url st' = v /\ params st' = None).
Proof.
  intros Hitems Hlog. split.
  { unfold page_step. cbn [py_get lookup String.eqb Ascii.eqb Bool.eqb].
    rewrite Hitems. reflexivity. }
  assert (Hok : page_ok (JObj m) = true) by (simpl; now rewrite Hitems).
  assert (Hnil : page_items (JObj m) = []) by (simpl; now rewrite Hitems).
  destruct (page_step_ok f st w Hok Hlog) as (w' & Hstep & _ & _ & Hfs & _).
  exists (step_vars (JObj m) st), w'. split; [exact Hstep|].
  split; [now apply Hfs|].
  unfold step_vars. rewrite Hnil. cbn [items_total first_item pages url params].
  split; [simpl; lia|]. split; [simpl; now rewrite andb_true_r|].
  split; [reflexivity|].
  intros v Hv Ht. unfold has_next. cbn [link]. rewrite Hv, Ht. auto.
Qed.

Lemma page_without_items_is_empty_witness :
  page_step (demo_env (Some "t"%string) true (serve []))
    "out.json" (JObj [("nextLink"%string, JStr "p2")])
    (loop_vars0 (demo_env (Some "t"%string) true (serve []))) world0
  = page_step (demo_env (Some "t"%string) true (serve []))
      "out.json"
      (JObj [("items"%string, JArr []); ("nextLink"%string, JStr "p2")])
      (loop_vars0 (demo_env (Some "t"%string) true (serve []))) world0 /\
  exists st' w',
    page_step (demo_env (Some "t"%string) true (serve []))
      "out.json" (JObj [("nextLink"%string, JStr "p2")])
      (loop_vars0 (demo_env (Some "t"%string) true (serve []))) world0
    = (Ret (st', truthy (link (JObj [("nextLink"%string, JStr "p2")]))), w') /\
    fs w' = fs world0 /\
    items_total st' = 0%Z /\
    first_item st' = true /\
    pages st' = (0 + 1)%Z /\
    (forall v, lookup "nextLink" [("nextLink"%string, JStr "p2")] = Some v ->
               truthy v = true ->
               truthy (link (JObj [("nextLink"%string, JStr "p2")])) = true
               /\ url st' = v /\ params st' = None).
Proof.
  apply (@page_without_items_is_empty
           (demo_env (Some "t"%string) true (serve []))
           "out.json" [("nextLink"%string, JStr "p2")]
           (loop_vars0 (demo_env (Some "t"%string) true (serve []))) world0).
  - reflexivity.
  - discriminate.
Defined.

(** C10 as it is worded fails on two points.  A page without [items]
    whose [nextLink] is present and empty ends the loop: the link is not
    followed and the next page is never requested.  And with
    [LOG_EVERY=0] the turn of the loop for a page without [items] raises
    [ZeroDivisionError], as it does for any page. *)
Lemma page_without_items_stops_on_blank_link :
  let E := demo_env (Some "t"%string) true
             (serve [bare_blank_link_page; page3]) in
  py_get bare_blank_link_page "items" (JStr "absent") = inr (JStr "absent") /\
  py_get bare_blank_link_page "nextLink" JNull = inr (JStr "") /\
  (exists st',
      fst (page_step E "out.json" bare_blank_link_page (loop_vars0 E) world0)
      = Ret (st', false)) /\
  returned (fst (stream_to_file E 5 demo_session "out.json" world0)) = true /\
  gets (snd (stream_to_file E 5 demo_session "out.json" world0)) = 1 /\
  fst (page_step (with_log_every E 0) "out.json"
         (JObj [("nextLink"%string, JStr "p2")])
         (loop_vars0 (with_log_every E 0)) world0)
  = Raise (Exc ZeroDivisionError).
Proof.
  repeat split; try (vm_compute; reflexivity).
  eexists. cbv. reflexivity.
Qed.

(** ** Retries *)

Lemma retryable_status s :
  retryable s = true ->
  (s =? 200)%Z = false /\ ((400 <=? s) && (s <? 600))%Z = true.
Proof.
  unfold retryable. intros H.
  repeat (apply orb_prop in H as [H|H]);
    apply Z.eqb_eq in H; subst s; split; reflexivity.
Qed.

(** A failed attempt below the ceiling: log, sleep, and the same request
    again with the counter advanced. *)
Lemma fetch_loop_retry E fuel session u p attempt w :
  let rq := {| req_headers := session; req_url := u; req_params := p |} in
  fails (net E (gets w) rq) = true ->
  (attempt + 1 <= MAX_RETRIES)%Z ->
  fetch_loop E (S fuel) session u p attempt w
  = match sleep_error E (delay E (net E (gets w) rq) (attempt + 1)) with
    | Some e => (Raise (Exc e), after_retry E rq (attempt + 1) w)
    | None =>
        fetch_loop E fuel session u p (attempt + 1)
          (after_retry E rq (attempt + 1) w)
    end.
Proof.
  intros rq Hf Ha. cbn [fetch_loop]. unfold try_except, session_get.
  fold rq. unfold after_retry.
  assert (Hgt : (attempt + 1 >? MAX_RETRIES)%Z = false)
    by (rewrite Z.gtb_ltb; now apply Z.ltb_ge).
  destruct (net E (gets w) rq) as [e|r] eqn:Hn; cbn [fails] in Hf.
  - rewrite Hf, Hgt. unfold bind, print, time_sleep, bind, emit.
    cbn [delay retry_message trace gets fs].
    destruct (sleep_error E (backoff (attempt + 1))); reflexivity.
  - destruct (retryable_status Hf) as [H200 _]. rewrite H200, Hf, Hgt.
    unfold bind, print, time_sleep, bind, emit, ret.
    cbn [delay retry_message trace gets fs].
    destruct (sleep_error E (retry_sleep E r (attempt + 1))); reflexivity.
Qed.

(** A failed attempt at the ceiling: the error is raised. *)
Lemma fetch_loop_last E fuel session u p attempt w :
  let rq := {| req_headers := session; req_url := u; req_params := p |} in
  fails (net E (gets w) rq) = true ->
  (MAX_RETRIES < attempt + 1)%Z ->
  exists e,
    fetch_loop E (S fuel) session u p attempt w
    = (Raise (Exc e),
       {| trace := trace w ++ [EGet rq (net E (gets w) rq)];
          gets := S (gets w); fs := fs w |}).
Proof.
  intros rq Hf Ha. cbn [fetch_loop]. unfold try_except, session_get.
  fold rq.
  assert (Hgt : (attempt + 1 >? MAX_RETRIES)%Z = true)
    by (rewrite Z.gtb_ltb; now apply Z.ltb_lt).
  destruct (net E (gets w) rq) as [e|r] eqn:Hn; cbn [fails] in Hf.
  - rewrite Hf, Hgt. exists e. reflexivity.
  - destruct (retryable_status Hf) as [H200 H4]. rewrite H200, Hf, Hgt.
    exists (HTTPError (status_code r)).
    unfold bind, raise_for_status. rewrite H4. reflexivity.
Qed.

Lemma sleeps_app a c : sleeps (a ++ c) = sleeps a ++ sleeps c.
Proof. unfold sleeps. apply flat_map_app. Qed.

Lemma sleeps_after_retry E rq attempt w :
  sleeps (trace (after_retry E rq attempt w))
  = sleeps (trace w) ++ [delay E (net E (gets w) rq) attempt].
Proof.
  unfold after_retry. cbn [trace]. rewrite !sleeps_app.
  destruct (net E (gets w) rq); simpl; now rewrite !app_nil_r.
Qed.

Lemma fetch_loop_gives_up E session u p :
  let rq := {| req_headers := session; req_url := u; req_params := p |} in
  (forall n, fails (net E n rq) = true) ->
  forall k attempt fuel w,
    (attempt + Z.of_nat k = MAX_RETRIES)%Z -> k < fuel ->
    exists e w' n m,
      fetch_loop E fuel session u p attempt w = (Raise (Exc e), w') /\
      gets w' = gets w + n /\ 1 <= n <= S k /\
      n <= S m /\ m <= n /\ m <= k /\
      sleeps (trace w')
      = sleeps (trace w)
          ++ map (fun i => delay E (net E (gets w + i) rq)
                             (attempt + Z.of_nat (S i)))
               (seq 0 m) /\
      ((forall d, sleep_error E d = None) -> n = S k /\ m = k).
Proof.
  intros rq Hfail. induction k as [|k IH]; intros attempt fuel w Ha Hfuel;
    (destruct fuel as [|fuel]; [lia|]).
  - destruct (@fetch_loop_last E fuel session u p attempt w (Hfail _))
      as (e & Hrun); [lia|].
    exists e. eexists. exists 1, 0. split; [exact Hrun|]. cbn [gets trace].
    rewrite sleeps_app. fold rq.
    split; [lia|]. split; [lia|]. split; [lia|]. split; [lia|].
    split; [lia|]. split; [|auto].
    destruct (net E (gets w) rq); simpl; now rewrite !app_nil_r.
  - rewrite (@fetch_loop_retry E fuel session u p attempt w (Hfail _))
      by lia.
    fold rq.
    pose proof (sleeps_after_retry E rq (attempt + 1) w) as Hs.
    assert (Hg : gets (after_retry E rq (attempt + 1) w) = S (gets w))
      by reflexivity.
    destruct (sleep_error E (delay E (net E (gets w) rq) (attempt + 1)))
      as [e|] eqn:Hse.
    + exists e. eexists. exists 1, 1. split; [reflexivity|]. rewrite Hg, Hs.
      split; [lia|]. split; [lia|]. split; [lia|]. split; [lia|].
      split; [lia|]. split.
      * cbn [seq map]. rewrite Nat.add_0_r.
        replace (attempt + Z.of_nat 1)%Z with (attempt + 1)%Z by lia.
        reflexivity.
      * intros Hnone. rewrite Hnone in Hse. discriminate.
    + destruct (IH (attempt + 1)%Z fuel (after_retry E rq (attempt + 1) w))
        as (e & w' & n & m & Hrun & Hg' & Hn & Hnm & Hmn & Hmk & Hsl & Hall);
        [lia|lia|].
      exists e, w', (S n), (S m). split; [exact Hrun|].
      rewrite Hg', Hg, Hsl, Hs.
      split; [lia|]. split; [lia|]. split; [lia|]. split; [lia|].
      split; [lia|]. split.
      * rewrite <- app_assoc. f_equal. cbn [seq map app].
        rewrite Nat.add_0_r.
        replace (attempt + Z.of_nat 1)%Z with (attempt + 1)%Z by lia.
        f_equal. rewrite <- seq_shift, map_map.
        apply map_ext. intros i. rewrite Hg.
        replace (S (gets w) + i) with (gets w + S i) by lia.
        f_equal. lia.
      * intros Hnone. destruct (Hall Hnone). split; lia.
Qed.

Lemma delay_rule_holds E : delay_rule E.
Proof.
  unfold delay_rule, delay, retry_sleep, backoff.
  split; [reflexivity|]. split; [now intros r a ->|].
  split; [now intros r a ->|]. split.
  - intros r a h -> Hf. rewrite Hf. now destruct (negb _).
  - intros r a h v -> Hh Hf. rewrite Hf.
    apply String.eqb_neq in Hh. now rewrite Hh.
Qed.

(** C6, as the code has it.  When every attempt fails (a request exception
    or a retryable status), [fetch_page] raises after at most
    [MAX_RETRIES] retries: it makes [n] requests, [n <= MAX_RETRIES + 1],
    never runs out of fuel above that, and the delays it asks for are, in
    order, [delay] of each failed attempt ([delay_rule]):
    [BACKOFF_BASE ** a] before retry [a] after an exception or a status
    without a usable [Retry-After], the value of [Retry-After] otherwise.
    When [time.sleep] accepts every
    delay there are exactly [MAX_RETRIES + 1] requests and [MAX_RETRIES]
    sleeps. *)
Theorem fetch_page_gives_up E session u p fuel w :
  (forall n,
      fails (net E n {| req_headers := session; req_url := u;
                        req_params := p |}) = true) ->
  Z.to_nat MAX_RETRIES < fuel ->
  exists e w' n m,
    fetch_page E fuel session u p w = (Raise (Exc e), w') /\
    gets w' = gets w + n /\ 1 <= n <= S (Z.to_nat MAX_RETRIES) /\
    n <= S m /\ m <= n /\ m <= Z.to_nat MAX_RETRIES /\
    sleeps (trace w')
    = sleeps (trace w)
        ++ map (fun i =>
                  delay E (net E (gets w + i)
                             {| req_headers := session; req_url := u;
                                req_params := p |})
                    (Z.of_nat (S i)))
             (seq 0 m) /\
    delay_rule E /\
    ((forall d, sleep_error E d = None) ->
     n = S (Z.to_nat MAX_RETRIES) /\ m = Z.to_nat MAX_RETRIES).
Proof.
  intros Hfail Hfuel.
  destruct (@fetch_loop_gives_up E session u p Hfail (Z.to_nat MAX_RETRIES)
              0%Z fuel w eq_refl Hfuel)
    as (e & w' & n & m & Hrun & Hg & Hn & Hnm & Hmn & Hmk & Hsl & Hall).
  exists e, w', n, m. unfold fetch_page.
  split; [exact Hrun|]. split; [exact Hg|]. split; [exact Hn|].
  split; [exact Hnm|]. split; [exact Hmn|]. split; [exact Hmk|].
  split; [exact Hsl|]. split; [apply delay_rule_holds|exact Hall].
Qed.

Lemma fetch_page_gives_up_witness :
  exists e w' n m,
    fetch_page (demo_env (Some "t"%string) true unreachable) 6 demo_session
      (JStr BASE_URL) None world0 = (Raise (Exc e), w') /\
    gets w' = 0 + n /\ 1 <= n <= 6 /\
    n <= S m /\ m <= n /\ m <= 5 /\
    sleeps (trace w')
    = [] ++ map (fun i =>
                   delay (demo_env (Some "t"%string) true unreachable)
                     (unreachable (0 + i)
                        {| req_headers := demo_session;
                           req_url := JStr BASE_URL; req_params := None |})
                     (Z.of_nat (S i)))
              (seq 0 m) /\
    delay_rule (demo_env (Some "t"%string) true unreachable) /\
    ((forall d, demo_sleep_error d = None) -> n = 6 /\ m = 5).
Proof.
  apply (@fetch_page_gives_up (demo_env (Some "t"%string) true unreachable)
           demo_session (JStr BASE_URL) None 6 world0).
  - intros n. reflexivity.
  - simpl. lia.
Defined.

(** C6 as it is worded fails: when every attempt is answered
    [429] with [Retry-After: 2], all six attempts fail, [fetch_page] raises,
    and every delay is 2 seconds, not [BACKOFF_BASE ** a]. *)
Lemma throttled_sleeps_are_not_backoff :
  map fails
    (outcomes (trace (snd (fetch_page
                             (demo_env (Some "t"%string) true throttled)
                             6 demo_session (JStr BASE_URL) None world0))))
  = [true; true; true; true; true; true] /\
  fst (fetch_page (demo_env (Some "t"%string) true throttled)
         6 demo_session (JStr BASE_URL) None world0)
  = Raise (Exc (HTTPError 429)) /\
  sleeps (trace (snd (fetch_page (demo_env (Some "t"%string) true throttled)
                        6 demo_session (JStr BASE_URL) None world0)))
  = [Finite (2 # 1); Finite (2 # 1); Finite (2 # 1); Finite (2 # 1);
     Finite (2 # 1)] /\
  map backoff [1; 2; 3; 4; 5]%Z
  = [Finite (3 # 2); Finite (9 # 4); Finite (27 # 8); Finite (81 # 16);
     Finite (243 # 32)] /\
  ~ (2 # 1 == BACKOFF_BASE ^ 1)%Q.
Proof.
  split; [vm_compute; reflexivity|]. split; [vm_compute; reflexivity|].
  split; [vm_compute; reflexivity|]. split; [reflexivity|].
  intros H. vm_compute in H. discriminate.
Qed.



(** ** Exit statuses *)

Lemma quiet_ret A (a : A) : quiet (ret a).
Proof. intros w c w'. discriminate. Qed.

Lemma quiet_raise A e : quiet (@raise A (Exc e)).
Proof. intros w c w'. discriminate. Qed.

Lemma quiet_emit ev : quiet (emit ev).
Proof. intros w c w'. discriminate. Qed.

Lemma quiet_lift A (r : exception + A) : quiet (lift r).
Proof. destruct r; [apply quiet_raise|apply quiet_ret]. Qed.

Lemma quiet_f_write f d : quiet (f_write f d).
Proof. intros w c w'. discriminate. Qed.

Lemma quiet_f_open_w f : quiet (f_open_w f).
Proof. intros w c w'. discriminate. Qed.

Lemma quiet_bind A B (m : M A) (k : A -> M B) :
  quiet m -> (forall a, quiet (k a)) -> quiet (bind m k).
Proof.
  intros Hm Hk w c w'. unfold bind.
  destruct (m w) as [[a|[c'|e]|] w1] eqn:Hmw; try discriminate.
  - apply Hk.
  - exfalso. eapply Hm. exact Hmw.
Qed.

Lemma quiet_try_except A B (m : M A) filter (h : exception -> M B)
    (n : A -> M B) :
  quiet m -> (forall e, quiet (h e)) -> (forall a, quiet (n a)) ->
  quiet (try_except m filter h n).
Proof.
  intros Hm Hh Hn w c w'. unfold try_except.
  destruct (m w) as [[a|[c'|e]|] w1] eqn:Hmw; try discriminate.
  - apply Hn.
  - exfalso. eapply Hm. exact Hmw.
  - destruct (filter e); [apply Hh|discriminate].
Qed.

Lemma quiet_fetch_loop E fuel session u p attempt :
  quiet (fetch_loop E fuel session u p attempt).
Proof.
  intros w c w' H.
  pose proof (@sat_fetch_loop (fun _ _ => True) (fun _ => I)
                (fun _ _ _ _ _ => I) (fun _ _ _ => I)
                E fuel session u p attempt w) as [_ Hs].
  rewrite H in Hs. exact Hs.
Qed.

Lemma quiet_write_items f items first : quiet (write_items f items first).
Proof.
  intros w c w' H.
  destruct (write_items_spec f items first w) as (w1 & Hw & _).
  rewrite Hw in H. discriminate.
Qed.

Lemma quiet_print m : quiet (print m).
Proof. apply quiet_emit. Qed.

Lemma quiet_load_file E path : quiet (load_file E path).
Proof.
  unfold load_file. destruct (load_fault E); [apply quiet_raise|].
  intros w c w'. destruct (fs w path) as [x|]; [|discriminate].
  destruct (json_loads x); discriminate.
Qed.

Create HintDb quiet.

#[local] Hint Resolve quiet_ret quiet_raise quiet_emit quiet_print quiet_lift
  quiet_f_write quiet_f_open_w quiet_write_items quiet_fetch_loop
  quiet_load_file : quiet.

(** One step through a sequence of statements none of which exits. *)
Ltac quiet_step :=
  match goal with
  | |- quiet (bind _ _) => apply quiet_bind; [|intros ?]
  | |- quiet (try_except _ _ _ _) =>
      apply quiet_try_except; [|intros ?|intros ?]
  | |- quiet (if ?c then _ else _) => destruct c
  | |- quiet (match ?c with _ => _ end) => destruct c
  | |- quiet _ => solve [auto with quiet]
  end.

Lemma quiet_page_step E f data st : quiet (page_step E f data st).
Proof. unfold page_step. cbv zeta. repeat quiet_step. Qed.

Lemma quiet_stream_loop E fuel ffuel session f st :
  quiet (stream_loop E fuel ffuel session f st).
Proof.
  revert st. induction fuel as [|fuel IH]; intros st; cbn [stream_loop].
  - intros w c w'. discriminate.
  - unfold fetch_page. pose proof quiet_page_step. repeat quiet_step.
Qed.

Lemma quiet_stream_to_file E fuel session out :
  quiet (stream_to_file E fuel session out).
Proof.
  unfold stream_to_file. pose proof quiet_stream_loop. repeat quiet_step.
Qed.

Lemma quiet_reformat E out : quiet (reformat E out).
Proof. unfold reformat, dump_file. repeat quiet_step. Qed.

Lemma stream_all_rejected E fuel w :
  token_rejected E = true ->
  stream_all E fuel w = (Raise (SystemExit 1), log_event (EErr MTokenError) w).
Proof.
  intros H. unfold stream_all, _session, _auth_header, bind. now rewrite H.
Qed.

Lemma stream_all_accepted E fuel w :
  token_rejected E = false ->
  stream_all E fuel w
  = bind (stream_to_file E fuel (session_of E) (out_path_of (ts_local E)))
      (fun _ => bind (reformat E (out_path_of (ts_local E)))
                  (fun _ => ret (out_path_of (ts_local E))))
      (log_event (EOut (MStart BASE_URL (PAGE_SIZE E)
                          (out_path_of (ts_local E)))) w).
Proof.
  intros H. unfold stream_all, _session, _auth_header, bind at 1 2 3.
  rewrite H. reflexivity.
Qed.

Lemma stream_all_quiet E fuel :
  token_rejected E = false -> quiet (stream_all E fuel).
Proof.
  intros H w c w'. rewrite (stream_all_accepted fuel w H).
  apply quiet_bind; [apply quiet_stream_to_file|]. intros _.
  apply quiet_bind; [apply quiet_reformat|]. intros _. apply quiet_ret.
Qed.

(** [main], once the module is loaded: on success it prints the line
    naming the output file and ends with status 0; every exception that
    leaves [stream_all], in particular every one that leaves its loop, is
    reported on standard error and the status is 2; the status is 1
    exactly when the token check fails, and then nothing but its
    diagnostic has happened. *)
Lemma main_exit_status E fuel w :
  (forall path w1,
      stream_all E fuel w = (Ret path, w1) ->
      main E fuel w = (Ret tt, log_event (EOut (MWrote path)) w1) /\
      path = out_path_of (ts_local E) /\
      exit_status (fst (main E fuel w)) = Some 0%Z) /\
  (forall e w1,
      stream_all E fuel w = (Raise (Exc e), w1) ->
      main E fuel w = (Raise (SystemExit 2), log_event (EErr (MFailed e)) w1) /\
      exit_status (fst (main E fuel w)) = Some 2%Z) /\
  (forall e w1,
      token_rejected E = false ->
      stream_loop E fuel fuel (session_of E) (out_path_of (ts_local E))
        (loop_vars0 E) (loop_start E w) = (Raise (Exc e), w1) ->
      stream_all E fuel w = (Raise (Exc e), w1)) /\
  (exit_status (fst (main E fuel w)) = Some 1%Z <-> token_rejected E = true) /\
  (token_rejected E = true ->
   main E fuel w = (Raise (SystemExit 1), log_event (EErr MTokenError) w)).
Proof.
  assert (Hrej : token_rejected E = true ->
                 main E fuel w
                 = (Raise (SystemExit 1), log_event (EErr MTokenError) w)).
  { intros H. unfold main, try_except.
    now rewrite (stream_all_rejected fuel w H). }
  split; [|split; [|split; [|split]]].
  - intros path w1 H. unfold main, try_except. rewrite H. cbn.
    split; [reflexivity|]. split; [|reflexivity].
    destruct (token_rejected E) eqn:Ht.
    + rewrite (stream_all_rejected fuel w Ht) in H. discriminate.
    + rewrite (stream_all_accepted fuel w Ht) in H. unfold bind in H.
      destruct (stream_to_file _ _ _ _ _) as [[?|?|] ?]; try discriminate.
      destruct (reformat _ _ _) as [[?|?|] ?]; try discriminate.
      cbn [ret] in H. now inversion H.
  - intros e w1 H. unfold main, try_except. rewrite H. cbn. auto.
  - intros e w1 Ht H. rewrite (stream_all_accepted fuel w Ht).
    unfold bind at 1. unfold stream_to_file. unfold loop_start in H.
    unfold bind in H |- *. cbn [f_open_w f_write snd] in H |- *.
    now rewrite H.
  - split.
    + intros H. destruct (token_rejected E) eqn:Ht; [reflexivity|].
      exfalso. unfold main, try_except in H.
      destruct (stream_all E fuel w) as [[path|[c|e]|] w1] eqn:Hs;
        cbn in H; try discriminate.
      eapply (@stream_all_quiet E fuel Ht). exact Hs.
    + intros H. now rewrite (Hrej H).
  - exact Hrej.
Qed.

(** C8, as the code has it.  The process that runs the script: when the
    module does not load (an import fails, or [int] rejects the value of
    [PAGE_SIZE] or [LOG_EVERY]) the script prints nothing and requests
    nothing, and the status is 1; when it loads, the process does what [main] does: on
    success it prints the line naming the output file and the status is
    0; every exception that leaves [stream_all], in particular every one
    that leaves its loop, is reported on standard error and the status is
    2; a token the check rejects gives its diagnostic and the status 1.
    The status is 1 exactly when the module does not load or the token
    check fails. *)
Theorem process_exit_status H fuel w :
  (forall e,
      load_module H = inl e ->
      script H fuel w = (Raise (Exc e), w) /\
      exit_status (fst (script H fuel w)) = Some 1%Z) /\
  (forall E,
      load_module H = inr E ->
      script H fuel w = main E fuel w /\
      (forall path w1,
          stream_all E fuel w = (Ret path, w1) ->
          script H fuel w = (Ret tt, log_event (EOut (MWrote path)) w1) /\
          path = out_path_of (ts_local E) /\
          exit_status (fst (script H fuel w)) = Some 0%Z) /\
      (forall e w1,
          stream_all E fuel w = (Raise (Exc e), w1) ->
          script H fuel w
          = (Raise (SystemExit 2), log_event (EErr (MFailed e)) w1) /\
          exit_status (fst (script H fuel w)) = Some 2%Z) /\
      (forall e w1,
          token_rejected E = false ->
          stream_loop E fuel fuel (session_of E) (out_path_of (ts_local E))
            (loop_vars0 E) (loop_start E w) = (Raise (Exc e), w1) ->
          stream_all E fuel w = (Raise (Exc e), w1)) /\
      (token_rejected E = true ->
       script H fuel w
       = (Raise (SystemExit 1), log_event (EErr MTokenError) w))) /\
  (exit_status (fst (script H fuel w)) = Some 1%Z <->
   (exists e, load_module H = inl e) \/
   (exists E, load_module H = inr E /\ token_rejected E = true)).
Proof.
  unfold script.
  destruct (load_module H) as [e|E] eqn:Hload.
  - split; [|split].
    + intros e' [= <-]. split; reflexivity.
    + intros E [=].
    + split; [intros _; left; now exists e|reflexivity].
  - destruct (main_exit_status E fuel w) as (Hret & Hexc & Hloop & Hone & Hrej).
    split; [|split].
    + intros e [=].
    + intros E' [= <-]. split; [reflexivity|]. split; [exact Hret|].
      split; [exact Hexc|]. split; [exact Hloop|exact Hrej].
    + rewrite Hone. split.
      * intros Ht. right. now exists E.
      * intros [(e & [=])|(E' & [= <-] & Ht)]. exact Ht.
Qed.

Lemma process_exit_status_witness :
  exit_status
    (fst (script (demo_process [("TM_API_TOKEN", "t"); ("PAGE_SIZE", "50");
                                ("COMPACT_OUTPUT", "True")]%string
                    (serve demo_pages)) 3 world0)) = Some 0%Z /\
  exit_status
    (fst (script (demo_process [("TM_API_TOKEN", "t")]%string unreachable)
            6 world0)) = Some 2%Z /\
  exit_status
    (fst (script (demo_process [("TM_API_TOKEN", padded_placeholder)]%string
                    (serve demo_pages)) 3 world0)) = Some 1%Z /\
  exit_status
    (fst (script (demo_process [("TM_API_TOKEN", "t"); ("LOG_EVERY", "often")]%string
                    (serve demo_pages)) 3 world0)) = Some 1%Z.
Proof.
  split; [|split; [|split]].
  - pose proof (@process_exit_status
                  (demo_process [("TM_API_TOKEN", "t"); ("PAGE_SIZE", "50");
                                 ("COMPACT_OUTPUT", "True")]%string
                     (serve demo_pages)) 3 world0) as (_ & Hrun & _).
    destruct (Hrun _ eq_refl) as (_ & Hret & _).
    eapply Hret. cbv. reflexivity.
  - pose proof (@process_exit_status
                  (demo_process [("TM_API_TOKEN", "t")]%string unreachable)
                  6 world0) as (_ & Hrun & _).
    destruct (Hrun _ eq_refl) as (_ & _ & Hexc & _).
    eapply Hexc. cbv. reflexivity.
  - pose proof (@process_exit_status
                  (demo_process [("TM_API_TOKEN", padded_placeholder)]%string
                     (serve demo_pages)) 3 world0) as (_ & _ & Hone).
    apply Hone. right. eexists. split; reflexivity.
  - pose proof (@process_exit_status
                  (demo_process [("TM_API_TOKEN", "t");
                                 ("LOG_EVERY", "often")]%string
                     (serve demo_pages)) 3 world0) as (Hload & _).
    now destruct (Hload ValueError eq_refl) as (_ & Hst).
Defined.

(** C8 as it is worded fails: the token check is not the only path to the
    status 1.  With a token the check accepts and [PAGE_SIZE=abc], line 31
    raises [ValueError] while the module loads: the status is 1, and
    neither the diagnostic of the token check nor anything else has been
    printed by the script, and no request has been made. *)
Lemma bad_page_size_gives_status_1 :
  let H := demo_process [("TM_API_TOKEN", "t"); ("PAGE_SIZE", "abc")]%string
             (serve demo_pages) in
  os_getenv H "PAGE_SIZE" = Some "abc"%string /\
  py_int H "abc" = None /\
  load_module H = inl ValueError /\
  script H 3 world0 = (Raise (Exc ValueError), world0) /\
  exit_status (fst (script H 3 world0)) = Some 1%Z /\
  (forall E, getenv_token E = os_getenv H "TM_API_TOKEN" ->
             token_rejected E = false).
Proof.
  repeat split; try (vm_compute; reflexivity).
  intros E HE. unfold token_rejected, TOKEN. rewrite HE. reflexivity.
Qed.

(** The check of line 39 strips the white space of Unicode: the
    placeholder between two no-break spaces is rejected as the bare
    placeholder is. *)
Example padded_placeholder_is_rejected E fuel w :
  getenv_token E = Some padded_placeholder ->
  strip (TOKEN E) = PLACEHOLDER /\ token_rejected E = true /\
  main E fuel w = (Raise (SystemExit 1), log_event (EErr MTokenError) w).
Proof.
  intros HE.
  assert (Ht : token_rejected E = true)
    by (unfold token_rejected, TOKEN; rewrite HE; reflexivity).
  split; [unfold TOKEN; rewrite HE; reflexivity|]. split; [exact Ht|].
  unfold main, try_except. now rewrite (stream_all_rejected fuel w Ht).
Qed.

(** ** The token check *)

(** With [TM_API_TOKEN] unset or empty, [TOKEN] is the built-in default,
    which the check does not recognise. *)
Lemma default_token_passes E w :
  getenv_token E = None \/ getenv_token E = Some ""%string ->
  TOKEN E = DEFAULT_TOKEN /\ token_rejected E = false /\
  _auth_header E w = (Ret "Bearer <API key here>"%string, w).
Proof.
  intros H.
  assert (Ht : TOKEN E = DEFAULT_TOKEN)
    by (unfold TOKEN; destruct H as [-> | ->]; reflexivity).
  assert (Hr : token_rejected E = false)
    by (unfold token_rejected; rewrite Ht; reflexivity).
  split; [exact Ht|]. split; [exact Hr|].
  unfold _auth_header. rewrite Hr, Ht. reflexivity.
Qed.

(** C1 fails on the code.  With [TM_API_TOKEN] unset the run passes the
    token check, sends [Authorization: Bearer <API key here>] to the
    server, writes nothing to standard error and exits with status 0. *)
Theorem unset_token_reaches_the_network :
  let E := demo_env None true (serve demo_pages) in
  TOKEN E = "<API key here>"%string /\
  token_rejected E = false /\
  exit_status (fst (main E 3 world0)) = Some 0%Z /\
  gets (snd (main E 3 world0)) = 3 /\
  no_stderr (trace (snd (main E 3 world0))) = true /\
  map (fun rq => lookup_header "Authorization" (req_headers rq))
    (requests (trace (snd (main E 3 world0))))
  = [Some "Bearer <API key here>"%string;
     Some "Bearer <API key here>"%string;
     Some "Bearer <API key here>"%string].
Proof. repeat split; vm_compute; reflexivity. Qed.

(** ** The reformat step *)

Lemma reformat_load_failure_keeps_file E out w e :
  COMPACT_OUTPUT E = false -> load_fault E = Some e ->
  reformat E out w
  = (Ret tt, log_event (EOut (MReformatWarning e))
               (log_event (EOut MReformatting) w)).
Proof.
  intros Hc Hl. unfold reformat, bind, try_except, load_file.
  rewrite Hc, Hl. reflexivity.
Qed.

Lemma reformat_reopen_failure_keeps_file E out w c v e :
  COMPACT_OUTPUT E = false -> load_fault E = None ->
  fs w out = Some c -> loads c = Some v -> reopen_fault E = Some e ->
  reformat E out w
  = (Ret tt, log_event (EOut (MReformatWarning e))
               (log_event (EOut MReformatting) w)).
Proof.
  intros Hc Hl Hf Hv Hr. apply loads_json_loads in Hv.
  unfold reformat, bind, try_except, load_file, dump_file.
  rewrite Hc, Hl. cbn [negb print emit fs]. rewrite Hf, Hv, Hr. reflexivity.
Qed.

(** When [json.dump] fails, the file has already been truncated by
    [open(out_path, "w")]: what is left is the part of the indented text
    written so far. *)
Lemma reformat_dump_failure_truncates E out w c v n e :
  COMPACT_OUTPUT E = false -> load_fault E = None -> reopen_fault E = None ->
  fs w out = Some c -> loads c = Some v -> dump_fault E = Some (n, e) ->
  fst (reformat E out w) = Ret tt /\
  fs (snd (reformat E out w)) out = Some (firstn n (pretty 0 v)) /\
  warned (trace (snd (reformat E out w))) = true.
Proof.
  intros Hc Hl Hr Hf Hv Hd. apply loads_json_loads in Hv.
  unfold reformat, bind, try_except, load_file, dump_file, bind.
  rewrite Hc, Hl, Hr, Hd. cbn [negb print emit fs]. rewrite Hf, Hv.
  cbn. rewrite !String.eqb_refl. repeat split.
  unfold warned. rewrite existsb_app. cbn. now rewrite orb_true_r.
Qed.

(** C9 fails on the code.  Pretty-printing is on and writing the indented
    text fails after four bytes: the failure is caught, the warning is
    printed and the status is 0, but the file no longer holds the compact
    output; it holds the four bytes written. *)
Theorem failed_rewrite_loses_compact_output :
  let E := with_dump_fault (demo_env (Some "t"%string) false (serve demo_pages))
             4 OSError in
  let out := out_path_of (ts_local E) in
  fs (snd (stream_to_file E 3 (session_of E) out world0)) out
  = Some (render (all_items demo_pages)) /\
  exit_status (fst (main E 3 world0)) = Some 0%Z /\
  warned (trace (snd (main E 3 world0))) = true /\
  fs (snd (main E 3 world0)) out = Some ["["%char; NL; " "%char; " "%char] /\
  render (all_items demo_pages) <> ["["%char; NL; " "%char; " "%char].
Proof.
  repeat split; try (vm_compute; reflexivity).
  intros H. vm_compute in H. discriminate.
Qed.

End Properties.

(** * Further properties of the code *)

Module TextFacts.

Import Json Py Script Spec JsonFacts.

(** ** The compact text holds no control character *)

Lemma forallb_join (p : ascii -> bool) (sep : bytes) (parts : list bytes) :
  forallb p sep = true -> Forall (fun x => forallb p x = true) parts ->
  forallb p (join sep parts) = true.
Proof.
  intros Hs HF. induction HF as [|x l Hx HF IH]; [reflexivity|].
  destruct l as [|y l']; [exact Hx|].
  rewrite join_cons2, forallb_app, forallb_app, Hx, Hs. exact IH.
Qed.

Lemma escape_char_printable c : forallb printable (escape_char c) = true.
Proof. destruct c as [[] [] [] [] [] [] [] []]; reflexivity. Qed.

Lemma escape_printable l : forallb printable (escape l) = true.
Proof.
  induction l as [|c l IH]; simpl; [reflexivity|].
  now rewrite forallb_app, escape_char_printable.
Qed.

Lemma encode_str_printable s : forallb printable (encode_str s) = true.
Proof.
  unfold encode_str. cbn [forallb]. rewrite forallb_app, escape_printable.
  reflexivity.
Qed.

Lemma numchar_printable c : is_numchar c = true -> printable c = true.
Proof.
  destruct c as [[] [] [] [] [] [] [] []]; try reflexivity; discriminate.
Qed.

Lemma numstart_printable c :
  (is_digit c || Ascii.eqb c "-") = true -> printable c = true.
Proof.
  destruct c as [[] [] [] [] [] [] [] []]; try reflexivity; discriminate.
Qed.

Lemma dumps_printable v :
  wf v = true -> forallb printable (dumps_bytes v) = true.
Proof.
  induction v as [| x | z | lit | s | l IH | m IH] using json_rect';
    intros Hwf.
  - reflexivity.
  - destruct x; reflexivity.
  - eapply forallb_weaken; [|apply (encode_int_chars z)].
    apply numstart_printable.
  - simpl in Hwf. apply andb_prop in Hwf as [Hv _].
    eapply forallb_weaken; [|apply (num_run_numchars Hv)].
    apply numchar_printable.
  - apply encode_str_printable.
  - cbn [dumps_bytes forallb]. rewrite forallb_app.
    rewrite forallb_join; [reflexivity|reflexivity|].
    simpl in Hwf. rewrite forallb_forall in Hwf.
    rewrite Forall_forall in IH |- *. intros t Ht.
    apply in_map_iff in Ht as (x & <- & Hx). apply IH; auto.
  - cbn [dumps_bytes forallb]. rewrite forallb_app.
    rewrite forallb_join; [reflexivity|reflexivity|].
    simpl in Hwf. rewrite forallb_forall in Hwf.
    rewrite Forall_forall in IH |- *. intros t Ht.
    apply in_map_iff in Ht as ([k x] & <- & Hx).
    rewrite forallb_app, encode_str_printable. cbn [forallb andb].
    change (printable ":") with true. cbn [andb].
    apply (IH _ Hx). apply (Hwf _ Hx).
Qed.

(** ** Lines *)





(** ** Reading the indented text *)

Lemma newline_indent_ws lvl : forallb is_ws (newline_indent lvl) = true.
Proof.
  unfold newline_indent. cbn [forallb]. change (is_ws NL) with true.
  cbn [andb]. induction (2 * lvl) as [|n IH]; [reflexivity|exact IH].
Qed.

Lemma parse_elems_text_of pr l :
  Forall (reads pr) l -> forallb wf l = true -> l <> [] ->
  forall fuel w1 w2 rest,
    (list_size l <= fuel)%nat ->
    forallb is_ws w1 = true -> forallb is_ws w2 = true ->
    parse_elems fuel (elems_text_of pr w1 w2 l rest) = Some (l, rest).
Proof.
  induction l as [|v vs IH]; [congruence|].
  intros HF Hwf _ fuel w1 w2 rest Hsz Hw1 Hw2.
  inversion HF as [|? ? Hv Hvs]; subst.
  simpl in Hwf. apply andb_prop in Hwf as [Hwv Hwvs].
  unfold list_size in Hsz; simpl in Hsz; fold (list_size vs) in Hsz.
  destruct fuel as [|n]; [lia|].
  rewrite parse_elems_S. cbn [elems_text_of].
  destruct vs as [|v' vs'].
  - rewrite (Hv Hwv n w1 (w2 ++ "]"%char :: rest)); try assumption;
      [|lia|now apply delim_ws].
    rewrite skip_ws_app by assumption. reflexivity.
  - rewrite (Hv Hwv n w1 (","%char :: elems_text_of pr w1 w2 (v' :: vs') rest));
      try assumption; [|lia|reflexivity].
    rewrite skip_ws_cons by reflexivity.
    change (Ascii.eqb "," ",") with true. cbv iota.
    rewrite IH; try assumption; [reflexivity|discriminate|lia].
Qed.

Lemma parse_members_text_of pr m :
  Forall (fun kv => reads pr (snd kv)) m ->
  forallb (fun kv => match kv with (_, x) => wf x end) m = true ->
  m <> [] ->
  forall fuel w1 w2 rest,
    (members_size m <= fuel)%nat ->
    forallb is_ws w1 = true -> forallb is_ws w2 = true ->
    parse_members fuel (members_text_of pr w1 w2 m rest) = Some (m, rest).
Proof.
  induction m as [|[k v] ms IH]; [congruence|].
  intros HF Hwf _ fuel w1 w2 rest Hsz Hw1 Hw2.
  inversion HF as [|? ? Hv Hvs]; subst. simpl in Hv.
  simpl in Hwf. apply andb_prop in Hwf as [Hwv Hwvs].
  unfold members_size in Hsz; simpl in Hsz; fold (members_size ms) in Hsz.
  destruct fuel as [|n]; [lia|].
  rewrite parse_members_S. cbn [members_text_of].
  destruct (read_encode_str k
              (":"%char :: " "%char :: pr v
                 ++ match ms with
                    | [] => w2 ++ "}"%char :: rest
                    | _ :: _ => ","%char :: members_text_of pr w1 w2 ms rest
                    end)) as (body & Eb & Hb).
  rewrite skip_ws_app by assumption.
  rewrite Eb, skip_ws_cons by reflexivity.
  change (Ascii.eqb DQUOTE DQUOTE) with true. cbv iota.
  rewrite Hb, skip_ws_cons by reflexivity.
  change (Ascii.eqb ":" ":") with true. cbv iota.
  rewrite string_of_list_ascii_of_string.
  destruct ms as [|kv' ms'].
  - assert (Hp := Hv Hwv n [" "%char] (w2 ++ "}"%char :: rest)).
    cbn [app] in Hp. rewrite Hp; [|lia|reflexivity|now apply delim_ws].
    rewrite skip_ws_app by assumption. reflexivity.
  - assert (Hp := Hv Hwv n [" "%char]
                    (","%char :: members_text_of pr w1 w2 (kv' :: ms') rest)).
    cbn [app] in Hp. rewrite Hp by (try reflexivity; lia).
    rewrite skip_ws_cons by reflexivity.
    change (Ascii.eqb "," ",") with true. cbv iota.
    rewrite IH; try assumption; [reflexivity|discriminate|lia].
Qed.

Lemma join_elems_of pr w1 w2 l rest :
  l <> [] ->
  w1 ++ join (","%char :: w1) (map pr l) ++ w2 ++ "]"%char :: rest
  = elems_text_of pr w1 w2 l rest.
Proof.
  induction l as [|v vs IH]; [congruence|]. intros _.
  destruct vs as [|v' vs']; [reflexivity|].
  cbn [map]. rewrite join_cons2. cbn [map] in IH.
  change (elems_text_of pr w1 w2 (v :: v' :: vs') rest)
    with (w1 ++ pr v ++ ","%char :: elems_text_of pr w1 w2 (v' :: vs') rest).
  rewrite <- IH by discriminate. rewrite <- !app_assoc. reflexivity.
Qed.

Lemma join_members_of pr w1 w2 m rest :
  m <> [] ->
  w1 ++ join (","%char :: w1)
          (map (fun kv => match kv with
                          | (k, x) =>
                              encode_str k ++ ":"%char :: " "%char :: pr x
                          end) m)
     ++ w2 ++ "}"%char :: rest
  = members_text_of pr w1 w2 m rest.
Proof.
  induction m as [|[k v] ms IH]; [congruence|]. intros _.
  destruct ms as [|kv' ms'].
  - cbn [map join members_text_of]. rewrite <- !app_assoc. reflexivity.
  - set (f := fun kv : string * json =>
                match kv with
                | (k, x) => encode_str k ++ ":"%char :: " "%char :: pr x
                end) in *.
    cbn [map]. rewrite join_cons2. cbn [map] in IH.
    change (members_text_of pr w1 w2 ((k, v) :: kv' :: ms') rest)
      with (w1 ++ encode_str k ++ ":"%char :: " "%char :: pr v
              ++ ","%char :: members_text_of pr w1 w2 (kv' :: ms') rest).
    rewrite <- IH by discriminate. unfold f at 1.
    rewrite <- ?app_assoc. cbn [app]. rewrite <- ?app_assoc. reflexivity.
Qed.

Lemma pretty_start lvl v :
  wf v = true ->
  exists c t, pretty lvl v = c :: t /\ value_start c = true.
Proof.
  intros Hwf.
  destruct v as [| x | z | lit | s | [|x l] | [|kv m]];
    try (eexists _, _; split; reflexivity);
    change (pretty lvl ?v) with (dumps_bytes v); now apply dumps_start.
Qed.

Lemma reads_pretty v : forall lvl, reads (pretty lvl) v.
Proof.
  induction v as [| x | z | lit | s | l IH | m IH] using json_rect';
    intros lvl; try exact (@parses_all _);
    intros Hwf fuel w rest Hsz Hw Hd;
    (destruct fuel as [|n]; [simpl in Hsz; lia|]).
  - destruct l as [|v vs].
    { rewrite parse_value_S, skip_ws_app by assumption. reflexivity. }
    rewrite parse_value_S, skip_ws_app by assumption.
    cbn [pretty]. cbn [app]. rewrite <- !app_assoc.
    rewrite skip_ws_cons by reflexivity.
    change (Ascii.eqb "[" "[") with true. cbv iota.
    cbn [app].
    rewrite (@join_elems_of (pretty (S lvl)) (newline_indent (S lvl))
               (newline_indent lvl) (v :: vs) rest) by discriminate.
    simpl in Hwf. pose proof Hwf as Hwf'.
    apply andb_prop in Hwf' as [Hwv _].
    destruct (@pretty_start (S lvl) v Hwv) as (c & t & Ec & Hc).
    destruct (value_start_spec Hc) as (Hc1 & Hc2 & _).
    assert (Hs : exists t',
               skip_ws (elems_text_of (pretty (S lvl)) (newline_indent (S lvl))
                          (newline_indent lvl) (v :: vs) rest) = c :: t').
    { cbn [elems_text_of]. rewrite skip_ws_app by apply newline_indent_ws.
      rewrite Ec. cbn [app]. rewrite skip_ws_cons by assumption. eauto. }
    destruct Hs as (t' & ->). rewrite Hc2.
    rewrite parse_elems_text_of; try apply newline_indent_ws;
      try assumption; [reflexivity| |discriminate|].
    + rewrite Forall_forall in IH |- *. intros x Hx. apply IH. exact Hx.
    + simpl in Hsz. unfold list_size. simpl. lia.
  - destruct m as [|[k v] ms].
    { rewrite parse_value_S, skip_ws_app by assumption. reflexivity. }
    rewrite parse_value_S, skip_ws_app by assumption.
    cbn [pretty]. cbn [app]. rewrite <- !app_assoc.
    rewrite skip_ws_cons by reflexivity.
    change (Ascii.eqb "{" "[") with false.
    change (Ascii.eqb "{" "{") with true. cbv iota.
    cbn [app].
    rewrite (@join_members_of (pretty (S lvl)) (newline_indent (S lvl))
               (newline_indent lvl) ((k, v) :: ms) rest) by discriminate.
    assert (Hs : exists t,
               skip_ws (members_text_of (pretty (S lvl))
                          (newline_indent (S lvl)) (newline_indent lvl)
                          ((k, v) :: ms) rest) = DQUOTE :: t).
    { cbn [members_text_of]. rewrite skip_ws_app by apply newline_indent_ws.
      unfold encode_str. cbn [app].
      rewrite skip_ws_cons by reflexivity. eauto. }
    destruct Hs as (t & ->).
    change (Ascii.eqb DQUOTE "}") with false. cbv iota.
    rewrite parse_members_text_of; try apply newline_indent_ws;
      try assumption; [reflexivity| |discriminate|].
    + rewrite Forall_forall in IH |- *. intros x Hx. apply IH. exact Hx.
    + simpl in Hsz. unfold members_size. simpl. lia.
Qed.

Lemma size_le_length_pretty v :
  forall lvl, wf v = true -> size v <= List.length (pretty lvl v).
Proof.
  induction v as [| x | z | lit | s | l IH | m IH] using json_rect';
    intros lvl Hwf;
    try (change (pretty lvl ?v) with (dumps_bytes v);
         now apply size_le_length).
  - destruct l as [|v vs]; [simpl; lia|].
    cbn [pretty size]. cbn [List.length]. rewrite !length_app.
    assert (H : Forall (fun x => size x <= List.length (pretty (S lvl) x))
                  (v :: vs)).
    { change (forallb wf (v :: vs) = true) in Hwf.
      rewrite forallb_forall in Hwf.
      rewrite Forall_forall in IH |- *. intros x Hx. apply IH; auto. }
    pose proof (@join_length_bound _ size (pretty (S lvl))
                  (","%char :: newline_indent (S lvl)) (v :: vs) H) as Hb.
    cbn [List.length] in Hb |- *. lia.
  - destruct m as [|kv ms]; [simpl; lia|].
    set (f := fun kv : string * json =>
                match kv with
                | (k, x) =>
                    encode_str k ++ ":"%char :: " "%char :: pretty (S lvl) x
                end).
    change (pretty lvl (JObj (kv :: ms)))
      with ("{"%char :: newline_indent (S lvl)
              ++ join (","%char :: newline_indent (S lvl)) (map f (kv :: ms))
              ++ newline_indent lvl ++ ["}"%char]).
    change (size (JObj (kv :: ms))) with (S (members_size (kv :: ms))).
    unfold members_size. cbn [List.length]. rewrite !length_app.
    assert (H : Forall (fun kv => size (snd kv) <= List.length (f kv))
                  (kv :: ms)).
    { change (forallb (fun kv : string * json =>
                         match kv with (_, x) => wf x end) (kv :: ms) = true)
        in Hwf.
      rewrite forallb_forall in Hwf.
      rewrite Forall_forall in IH |- *. intros [k x] Hx.
      specialize (IH _ Hx (S lvl)). specialize (Hwf _ Hx). simpl in *.
      rewrite length_app. simpl. specialize (IH Hwf). lia. }
    pose proof (@join_length_bound _ (fun kv => size (snd kv)) f
                  (","%char :: newline_indent (S lvl)) (kv :: ms) H) as Hb.
    cbv beta in Hb. cbn [List.length] in Hb |- *.
    specialize (Hb ltac:(lia)). unfold bytes in *. lia.
Qed.

Lemma loads_pretty v : wf v = true -> loads (pretty 0 v) = Some v.
Proof.
  intros Hwf. unfold loads.
  pose proof (@reads_pretty v 0 Hwf (S (List.length (pretty 0 v))) [] []) as Hp.
  cbn [app] in Hp. rewrite app_nil_r in Hp. rewrite Hp; try reflexivity.
  pose proof (@size_le_length_pretty v 0 Hwf). lia.
Qed.

Lemma loads_dumps_bytes v : wf v = true -> loads (dumps_bytes v) = Some v.
Proof.
  intros Hwf. apply loads_dumps; [exact Hwf|].
  pose proof (size_le_length Hwf). lia.
Qed.

(** ** An array that is not closed does not read *)

Lemma parse_elems_unterminated l :
  forallb wf l = true -> l <> [] ->
  forall fuel w1,
    (list_size l <= fuel)%nat -> forallb is_ws w1 = true ->
    parse_elems fuel (w1 ++ join (","%char :: w1) (map dumps_bytes l)) = None.
Proof.
  induction l as [|v vs IH]; [congruence|].
  intros Hwf _ fuel w1 Hsz Hw1.
  simpl in Hwf. apply andb_prop in Hwf as [Hwv Hwvs].
  unfold list_size in Hsz; simpl in Hsz; fold (list_size vs) in Hsz.
  destruct fuel as [|n]; [reflexivity|].
  rewrite parse_elems_S.
  destruct vs as [|v' vs'].
  - cbn [map join].
    pose proof (@parses_all v Hwv n w1 []) as Hp.
    rewrite app_nil_r in Hp. rewrite Hp; [reflexivity|lia|assumption|reflexivity].
  - cbn [map]. rewrite join_cons2. cbn [app]. cbn [map] in IH.
    rewrite (@parses_all v Hwv n w1
               (","%char :: w1
                  ++ join (","%char :: w1)
                       (dumps_bytes v' :: map dumps_bytes vs')));
      [|lia|assumption|reflexivity].
    rewrite skip_ws_cons by reflexivity.
    change (Ascii.eqb "," ",") with true. cbv iota.
    rewrite IH; [reflexivity|assumption|discriminate|lia|assumption].
Qed.

Lemma loads_unterminated items :
  forallb wf items = true -> loads (unterminated items) = None.
Proof.
  intros Hwf. destruct items as [|v vs]; [reflexivity|].
  unfold loads, unterminated.
  remember (List.length ("["%char :: NL
                           :: join [","%char; NL] (map dumps_bytes (v :: vs))))
    as n eqn:Hn.
  rewrite parse_value_S, skip_ws_cons by reflexivity.
  change (Ascii.eqb "[" "[") with true. cbv iota.
  pose proof Hwf as Hwf'. simpl in Hwf'.
  apply andb_prop in Hwf' as [Hwv Hwvs].
  destruct (dumps_start Hwv) as (c & t & Ec & Hc).
  destruct (value_start_spec Hc) as (Hc1 & Hc2 & _).
  assert (Hs : exists t',
             skip_ws (NL :: join [","%char; NL] (map dumps_bytes (v :: vs)))
             = c :: t').
  { change (skip_ws (NL :: ?r)) with (skip_ws r).
    destruct vs as [|v' vs'].
    - cbn [map join]. rewrite Ec, skip_ws_cons by assumption. eauto.
    - cbn [map]. rewrite join_cons2, Ec. cbn [app].
      rewrite skip_ws_cons by assumption. eauto. }
  destruct Hs as (t' & ->). rewrite Hc2.
  change (NL :: join [","%char; NL] (map dumps_bytes (v :: vs)))
    with ([NL] ++ join (","%char :: [NL]) (map dumps_bytes (v :: vs))).
  rewrite parse_elems_unterminated; try reflexivity; try assumption;
    [discriminate|].
  subst n. unfold list_size.
  assert (H : Forall (fun x => size x <= List.length (dumps_bytes x))
                (v :: vs)).
  { rewrite Forall_forall. rewrite forallb_forall in Hwf.
    intros x Hx. apply size_le_length; auto. }
  pose proof (@join_length_bound _ size dumps_bytes [","%char; NL]
                (v :: vs) H (le_S _ _ (le_n 1))) as Hb.
  simpl List.length in *. lia.
Qed.

End TextFacts.

Module FetchFacts.

Import Json Py Script Spec JsonFacts Logic ScriptFacts Properties.

(** ** One attempt *)

(** An attempt that does not fail: an exception that is no
    [RequestException] goes up; [200] ends the loop with the decoded body,
    or with what decoding raises; an error status that is not retried is
    raised; any other status starts the loop again at once. *)
Lemma fetch_loop_pass E fuel session u p attempt w :
  let rq := {| req_headers := session; req_url := u; req_params := p |} in
  fails (net E (gets w) rq) = false ->
  fetch_loop E (S fuel) session u p attempt w
  = match net E (gets w) rq with
    | inl e => (Raise (Exc e), after_get E rq w)
    | inr r =>
        if (status_code r =? 200)%Z then lift (json_body r) (after_get E rq w)
        else if error_status (status_code r)
             then (Raise (Exc (HTTPError (status_code r))), after_get E rq w)
             else fetch_loop E fuel session u p attempt (after_get E rq w)
    end.
Proof.
  intros rq Hf. cbn [fetch_loop]. unfold try_except, session_get.
  fold rq. unfold after_get.
  destruct (net E (gets w) rq) as [e|r] eqn:Hn; cbn [fails] in Hf.
  - now rewrite Hf.
  - rewrite Hf. destruct (status_code r =? 200)%Z; [reflexivity|].
    unfold bind, raise_for_status, error_status.
    destruct (_ && _); reflexivity.
Qed.

(** ** Retries in a row *)

Lemma gets_retried E rq k : forall attempt w,
  gets (retried E rq k attempt w) = gets w + k.
Proof.
  induction k as [|k IH]; intros attempt w; cbn [retried]; [lia|].
  rewrite IH. cbn [after_retry gets]. lia.
Qed.

Lemma fs_retried E rq k : forall attempt w,
  fs (retried E rq k attempt w) = fs w.
Proof.
  induction k as [|k IH]; intros attempt w; cbn [retried]; [reflexivity|].
  now rewrite IH.
Qed.

Lemma requests_after_retry E rq attempt w :
  requests (trace (after_retry E rq attempt w)) = requests (trace w) ++ [rq].
Proof.
  unfold after_retry. cbn [trace]. rewrite !requests_app. cbn.
  now rewrite !app_nil_r.
Qed.

Lemma requests_retried E rq k : forall attempt w,
  requests (trace (retried E rq k attempt w))
  = requests (trace w) ++ repeat rq k.
Proof.
  induction k as [|k IH]; intros attempt w; cbn [retried repeat].
  - now rewrite app_nil_r.
  - rewrite IH, requests_after_retry, <- app_assoc. reflexivity.
Qed.

Lemma retry_delays_S E rq g attempt k :
  retry_delays E rq g attempt (S k)
  = delay E (net E g rq) (attempt + 1)
      :: retry_delays E rq (S g) (attempt + 1) k.
Proof.
  unfold retry_delays. cbn [seq map]. rewrite Nat.add_0_r.
  replace (attempt + Z.of_nat 1)%Z with (attempt + 1)%Z by lia.
  f_equal. rewrite <- seq_shift, map_map. apply map_ext. intros i.
  replace (S g + i) with (g + S i) by lia. f_equal. lia.
Qed.

Lemma sleeps_retried E rq k : forall attempt w,
  sleeps (trace (retried E rq k attempt w))
  = sleeps (trace w) ++ retry_delays E rq (gets w) attempt k.
Proof.
  induction k as [|k IH]; intros attempt w; cbn [retried].
  - unfold retry_delays. cbn. now rewrite app_nil_r.
  - rewrite IH, sleeps_after_retry, retry_delays_S, <- app_assoc.
    reflexivity.
Qed.

Lemma fetch_loop_retries E session u p :
  let rq := {| req_headers := session; req_url := u; req_params := p |} in
  forall k attempt fuel w,
    (forall i, i < k -> fails (net E (gets w + i) rq) = true) ->
    Forall (fun d => sleep_error E d = None)
      (retry_delays E rq (gets w) attempt k) ->
    (attempt + Z.of_nat k <= MAX_RETRIES)%Z ->
    fetch_loop E (k + fuel) session u p attempt w
    = fetch_loop E fuel session u p (attempt + Z.of_nat k)
        (retried E rq k attempt w).
Proof.
  intros rq. induction k as [|k IH]; intros attempt fuel w Hf Hs Ha.
  - cbn [retried Nat.add]. now rewrite Z.add_0_r.
  - cbn [Nat.add retried].
    rewrite retry_delays_S in Hs. inversion Hs as [|? ? Hd Hs']; subst.
    rewrite fetch_loop_retry; fold rq.
    + rewrite Hd. rewrite IH.
      * f_equal. lia.
      * intros i Hi. cbn [after_retry gets].
        replace (S (gets w) + i) with (gets w + S i) by lia.
        apply Hf. lia.
      * exact Hs'.
      * lia.
    + specialize (Hf 0). rewrite Nat.add_0_r in Hf. apply Hf. lia.
    + lia.
Qed.

(** ** What [fetch_page] does whatever the server does *)

Lemma outcomes_app a c : outcomes (a ++ c) = outcomes a ++ outcomes c.
Proof. unfold outcomes. apply flat_map_app. Qed.

Lemma no_stderr_app a c : no_stderr (a ++ c) = no_stderr a && no_stderr c.
Proof. unfold no_stderr. apply forallb_app. Qed.

Lemma trace_after_retry E rq attempt w :
  trace (after_retry E rq attempt w)
  = trace w
      ++ [EGet rq (net E (gets w) rq);
          EOut (retry_message (net E (gets w) rq) attempt
                  (delay E (net E (gets w) rq) attempt));
          ESleep (delay E (net E (gets w) rq) attempt)].
Proof. unfold after_retry. cbn [trace]. now rewrite <- !app_assoc. Qed.

Lemma fetch_loop_footprint E session u p :
  let rq := {| req_headers := session; req_url := u; req_params := p |} in
  forall fuel attempt w,
  exists evs,
    trace (snd (fetch_loop E fuel session u p attempt w)) = trace w ++ evs /\
    gets (snd (fetch_loop E fuel session u p attempt w))
    = gets w + List.length (requests evs) /\
    requests evs = repeat rq (List.length (requests evs)) /\
    List.length (requests evs) <= fuel /\
    List.length (sleeps evs) <= Z.to_nat (MAX_RETRIES - attempt) /\
    List.length (filter fails (outcomes evs))
    <= S (Z.to_nat (MAX_RETRIES - attempt)) /\
    no_stderr evs = true /\
    fs (snd (fetch_loop E fuel session u p attempt w)) = fs w.
Proof.
  intros rq. induction fuel as [|fuel IH]; intros attempt w.
  - exists []. cbn [fetch_loop out_of_fuel snd requests sleeps outcomes
                    flat_map filter List.length repeat no_stderr forallb].
    rewrite app_nil_r. repeat split; lia.
  - destruct (fails (net E (gets w) rq)) eqn:Hf.
    + destruct (Z.leb (attempt + 1) MAX_RETRIES) eqn:Ha.
      * apply Z.leb_le in Ha.
        assert (HK : Z.to_nat (MAX_RETRIES - attempt)
                     = S (Z.to_nat (MAX_RETRIES - (attempt + 1)))) by lia.
        rewrite HK.
        rewrite fetch_loop_retry; fold rq; [|exact Hf|exact Ha].
        destruct (sleep_error E _) as [e|].
        -- eexists. cbn [snd]. rewrite trace_after_retry.
           split; [reflexivity|].
           cbn [requests sleeps outcomes flat_map app filter List.length
                  repeat no_stderr forallb andb after_retry gets fs].
           rewrite Hf. cbn [List.length].
           repeat split; lia.
        -- destruct (IH (attempt + 1)%Z (after_retry E rq (attempt + 1) w))
             as (evs & Ht & Hg & Hr & Hn & Hs & Ho & He & Hfs).
           eexists. rewrite Ht, trace_after_retry, <- app_assoc.
           split; [reflexivity|].
           rewrite Hg, Hfs, requests_app, sleeps_app, outcomes_app,
             no_stderr_app, filter_app, !length_app.
           cbn [requests sleeps outcomes flat_map app filter List.length
                  repeat no_stderr forallb andb after_retry gets fs].
           rewrite Hf. cbn [List.length Nat.add repeat].
           split; [lia|]. split; [now rewrite Hr at 1|].
           split; [lia|]. split; [lia|]. split; [lia|].
           split; [exact He|reflexivity].
      * apply Z.leb_gt in Ha.
        destruct (@fetch_loop_last E fuel session u p attempt w Hf Ha)
          as (e & ->).
        eexists. cbn [snd trace gets fs]. split; [reflexivity|].
        fold rq.
        cbn [requests sleeps outcomes flat_map app filter List.length
               repeat no_stderr forallb andb].
        rewrite Hf. cbn [List.length]. repeat split; lia.
    + rewrite fetch_loop_pass; fold rq; [|exact Hf].
      assert (Hone : exists evs,
                 trace (after_get E rq w) = trace w ++ evs /\
                 gets (after_get E rq w) = gets w + List.length (requests evs) /\
                 requests evs = repeat rq (List.length (requests evs)) /\
                 List.length (requests evs) <= S fuel /\
                 List.length (sleeps evs) <= Z.to_nat (MAX_RETRIES - attempt) /\
                 List.length (filter fails (outcomes evs))
                 <= S (Z.to_nat (MAX_RETRIES - attempt)) /\
                 no_stderr evs = true /\
                 fs (after_get E rq w) = fs w).
      { eexists. unfold after_get. cbn [trace gets fs].
        split; [reflexivity|].
        cbn [requests sleeps outcomes flat_map app filter List.length
               repeat no_stderr forallb andb].
        rewrite Hf. cbn [List.length]. repeat split; lia. }
      destruct (net E (gets w) rq) as [e|r] eqn:Hn; [exact Hone|].
      destruct (status_code r =? 200)%Z.
      { destruct (json_body r); exact Hone. }
      destruct (error_status (status_code r)); [exact Hone|].
      destruct (IH attempt (after_get E rq w))
        as (evs & Ht & Hg & Hr & Hl & Hs & Ho & He & Hfs).
      eexists. rewrite Ht. unfold after_get at 1. cbn [trace].
      rewrite <- app_assoc. split; [reflexivity|].
      rewrite Hg, Hfs, requests_app, sleeps_app, outcomes_app,
        no_stderr_app, filter_app, !length_app.
      rewrite Hn.
      cbn [requests sleeps outcomes flat_map app filter List.length
             repeat no_stderr forallb andb after_get gets fs].
      rewrite Hf. cbn [List.length Nat.add repeat app].
      split; [lia|]. split; [now rewrite Hr at 1|].
      split; [lia|]. split; [lia|]. split; [lia|].
      split; [exact He|reflexivity].
Qed.

End FetchFacts.

Module StreamFacts.

Import Json Py Script Spec JsonFacts Logic ScriptFacts Properties TextFacts
  FetchFacts.

(** ** One turn of the loop, whatever the page *)

Lemma page_step_any E f data st w c :
  fs w f = Some c ->
  exists items evs,
    (wf data = true -> forallb wf items = true) /\
    trace (snd (page_step E f data st w)) = trace w ++ evs /\
    requests evs = [] /\ no_stderr evs = true /\
    gets (snd (page_step E f data st w)) = gets w /\
    fs (snd (page_step E f data st w)) f
    = Some (c ++ items_bytes (first_item st) items) /\
    match fst (page_step E f data st w) with
    | Ret (st', go) =>
        first_item st' = first_item st && is_nil items /\
        items_total st' = (items_total st + Z.of_nat (List.length items))%Z /\
        pages st' = (pages st + 1)%Z /\
        (go = false ->
         exists evs0 tot,
           evs = evs0 ++ [EOut (MDone (pages st') (items_total st') tot)])
    | Raise e => not_exit e
    | OutOfFuel => False
    end.
Proof.
  intros Hc.
  assert (Hnone : forall e,
             page_step E f data st w = (Raise (Exc e), w) ->
             exists items evs,
               (wf data = true -> forallb wf items = true) /\
               trace (snd (page_step E f data st w)) = trace w ++ evs /\
               requests evs = [] /\ no_stderr evs = true /\
               gets (snd (page_step E f data st w)) = gets w /\
               fs (snd (page_step E f data st w)) f
               = Some (c ++ items_bytes (first_item st) items) /\
               match fst (page_step E f data st w) with
               | Ret (st', go) =>
                   first_item st' = first_item st && is_nil items /\
                   items_total st'
                   = (items_total st + Z.of_nat (List.length items))%Z /\
                   pages st' = (pages st + 1)%Z /\
                   (go = false ->
                    exists evs0 tot,
                      evs = evs0
                              ++ [EOut (MDone (pages st') (items_total st') tot)])
               | Raise e => not_exit e
               | OutOfFuel => False
               end).
  { intros e ->. exists [], []. cbn. rewrite !app_nil_r. now repeat split. }
  destruct data as [| | | | | |m]; try (eapply Hnone; reflexivity).
  set (v := match lookup "items" m with Some v => v | None => JArr [] end).
  destruct (py_iter v) as [e|items] eqn:Hit.
  { eapply Hnone. unfold page_step, bind. cbn [py_get lift ret].
    fold v. rewrite Hit. reflexivity. }
  clear Hnone.
  destruct (write_items_spec f items (first_item st) w)
    as (w1 & Hw & Ht & Hg & _ & Hf).
  specialize (Hf c Hc).
  exists items.
  assert (Hwf : wf (JObj m) = true -> forallb wf items = true).
  { intros Hm. eapply py_iter_wf; [|exact Hit].
    unfold v. destruct (lookup "items" m) eqn:Hl; [|reflexivity].
    eapply lookup_wf; eauto. }
  unfold page_step, bind. cbn [py_get lift ret]. fold v. rewrite Hit.
  cbn [lift ret]. rewrite Hw.
  destruct (LOG_EVERY E =? 0)%Z.
  { exists []. cbn [raise fst snd]. rewrite app_nil_r.
    split; [exact Hwf|]. split; [exact Ht|]. now repeat split. }
  cbn [ret].
  set (lg := ((pages st + 1) mod LOG_EVERY E =? 0)%Z || (pages st + 1 =? 1)%Z).
  set (nl := match lookup "nextLink" m with Some x => x | None => JNull end).
  destruct lg, (truthy nl); cbn [negb print emit ret trace gets fs fst snd];
    eexists; (split; [exact Hwf|]);
    rewrite ?Ht, ?Hg, <- ?app_assoc;
    (split; [try reflexivity; symmetry; apply app_nil_r|]);
    (split; [reflexivity|]); (split; [reflexivity|]);
    (split; [reflexivity|]); (split; [exact Hf|]);
    cbn [first_item items_total pages];
    (split; [reflexivity|]); (split; [reflexivity|]);
    (split; [reflexivity|]);
    try discriminate; intros _.
  - eexists [_], _. reflexivity.
  - eexists [], _. reflexivity.
Qed.

(** ** The loop, whatever the server does *)

Lemma Forall_repeat (A : Type) (P : A -> Prop) (x : A) n :
  P x -> Forall P (repeat x n).
Proof. intros H. induction n; simpl; auto. Qed.

Lemma stream_loop_footprint E session f ffuel :
  forall fuel st w c r w',
    fs w f = Some c ->
    stream_loop E fuel ffuel session f st w = (r, w') ->
    exists items evs,
      (wf_net E -> forallb wf items = true) /\
      trace w' = trace w ++ evs /\
      Forall (fun rq => req_headers rq = session) (requests evs) /\
      gets w' = gets w + List.length (requests evs) /\
      no_stderr evs = true /\
      fs w' f = Some (c ++ items_bytes (first_item st) items) /\
      match r with
      | Ret st' =>
          items_total st'
          = (items_total st + Z.of_nat (List.length items))%Z /\
          exists evs0 tot,
            evs = evs0 ++ [EOut (MDone (pages st') (items_total st') tot)]
      | Raise e => not_exit e
      | OutOfFuel => True
      end.
Proof.
  induction fuel as [|fuel IH]; intros st w c r w' Hc Hrun.
  { cbn in Hrun. inversion Hrun; subst. exists [], [].
    cbn. rewrite !app_nil_r. repeat split; auto. }
  cbn [stream_loop] in Hrun. unfold bind at 1, fetch_page in Hrun.
  destruct (@fetch_loop_footprint E session (url st) (params st) ffuel 0%Z w)
    as (evs1 & Ht1 & Hg1 & Hr1 & _ & _ & _ & He1 & Hfs1).
  pose proof (@sat_fetch_loop (fun _ _ => True) (fun _ => I)
                (fun _ _ _ _ _ => I) (fun _ _ _ => I)
                E ffuel session (url st) (params st) 0%Z w) as [_ Hsent].
  assert (Hh1 : Forall (fun rq => req_headers rq = session) (requests evs1)).
  { rewrite Hr1. now apply Forall_repeat. }
  destruct (fetch_loop E ffuel session (url st) (params st) 0 w)
    as [[data|e|] w1]; cbn [fst snd] in *.
  - assert (Hc1 : fs w1 f = Some c) by now rewrite Hfs1.
    destruct (@page_step_any E f data st w1 c Hc1)
      as (items1 & evs2 & Hwf1 & Ht2 & Hr2 & He2 & Hg2 & Hf2 & Hres).
    unfold bind in Hrun.
    destruct (page_step E f data st w1) as [[[st1 go]|e|] w2];
      cbn [fst snd] in *; [| |contradiction].
    + destruct Hres as (Hfi & Hit & Hpg & Hdone).
      destruct go.
      * destruct (IH st1 w2 _ r w' Hf2 Hrun)
          as (items2 & evs3 & Hwf2 & Ht3 & Hh3 & Hg3 & He3 & Hf3 & Hres3).
        exists (items1 ++ items2), (evs1 ++ evs2 ++ evs3).
        split.
        { intros Hnet. rewrite forallb_app, (Hwf2 Hnet), Hwf1; [reflexivity|].
          destruct Hsent as (n0 & rq0 & r0 & Hn0 & Hb0). eapply Hnet; eauto. }
        split; [now rewrite Ht3, Ht2, Ht1, <- !app_assoc|].
        rewrite !requests_app, Hr2, !no_stderr_app, He1, He2, He3.
        cbn [app]. split; [now apply Forall_app|].
        split; [rewrite Hg3, Hg2, Hg1, length_app; lia|].
        split; [reflexivity|].
        split.
        { rewrite Hf3, Hfi, items_bytes_app, <- app_assoc. reflexivity. }
        destruct r as [st2|e|]; auto.
        destruct Hres3 as (Hit3 & evs0 & tot & Hev).
        split; [rewrite Hit3, Hit, length_app; lia|].
        exists (evs1 ++ evs2 ++ evs0), tot. rewrite Hev.
        now rewrite <- !app_assoc.
      * cbn [ret] in Hrun. inversion Hrun; subst.
        exists items1, (evs1 ++ evs2).
        split.
        { intros Hnet. apply Hwf1.
          destruct Hsent as (n0 & rq0 & r0 & Hn0 & Hb0). eapply Hnet; eauto. }
        split; [now rewrite Ht2, Ht1, <- !app_assoc|].
        rewrite !requests_app, Hr2, !no_stderr_app, He1, He2, app_nil_r.
        split; [exact Hh1|]. split; [lia|]. split; [reflexivity|].
        split; [exact Hf2|]. split; [exact Hit|].
        destruct (Hdone eq_refl) as (evs0 & tot & ->).
        exists (evs1 ++ evs0), tot. now rewrite <- !app_assoc.
    + inversion Hrun; subst.
      exists items1, (evs1 ++ evs2).
      split.
      { intros Hnet. apply Hwf1.
        destruct Hsent as (n0 & rq0 & r0 & Hn0 & Hb0). eapply Hnet; eauto. }
      split; [now rewrite Ht2, Ht1, <- !app_assoc|].
      rewrite !requests_app, Hr2, !no_stderr_app, He1, He2, app_nil_r.
      split; [exact Hh1|]. split; [lia|]. split; [reflexivity|].
      split; [exact Hf2|exact Hres].
  - inversion Hrun; subst. exists [], evs1.
    split; [reflexivity|]. split; [exact Ht1|]. split; [exact Hh1|].
    split; [exact Hg1|]. split; [exact He1|].
    cbn [items_bytes]. rewrite app_nil_r, Hfs1. auto.
  - inversion Hrun; subst. exists [], evs1.
    split; [reflexivity|]. split; [exact Ht1|]. split; [exact Hh1|].
    split; [exact Hg1|]. split; [exact He1|].
    cbn [items_bytes]. rewrite app_nil_r, Hfs1. auto.
Qed.

Lemma unterminated_items items :
  unterminated items = ["["%char; NL] ++ items_bytes true items.
Proof. unfold unterminated. now rewrite items_bytes_join. Qed.

Lemma stream_to_file_footprint E fuel session out w r w' :
  stream_to_file E fuel session out w = (r, w') ->
  exists items evs,
    (wf_net E -> forallb wf items = true) /\
    trace w' = trace w ++ evs /\
    Forall (fun rq => req_headers rq = session) (requests evs) /\
    gets w' = gets w + List.length (requests evs) /\
    no_stderr evs = true /\
    match r with
    | Ret st =>
        fs w' out = Some (render items) /\
        items_total st = Z.of_nat (List.length items) /\
        exists evs0 tot,
          evs = evs0 ++ [EOut (MDone (pages st) (items_total st) tot)]
    | Raise e => fs w' out = Some (unterminated items) /\ not_exit e
    | OutOfFuel => fs w' out = Some (unterminated items)
    end.
Proof.
  unfold stream_to_file, bind. cbn [f_open_w f_write].
  set (w0 := fs_set out _ (fs_set out [] w)).
  assert (Hc : fs w0 out = Some ["["%char; NL]).
  { unfold w0. simpl. now rewrite !String.eqb_refl. }
  destruct (stream_loop E fuel fuel session out (loop_vars0 E) w0)
    as [r1 w1] eqn:Hrun.
  destruct (stream_loop_footprint Hc Hrun)
    as (items & evs & Hwf & Ht & Hh & Hg & He & Hf & Hres).
  cbn [loop_vars0 first_item items_total] in Hf, Hres.
  intros H. exists items, evs.
  split; [exact Hwf|].
  destruct r1 as [st|e|]; cbn [ret] in H; inversion H; subst; clear H;
    cbn [trace gets fs fs_set];
    (split; [exact Ht|]); (split; [exact Hh|]); (split; [exact Hg|]);
    (split; [exact He|]).
  - rewrite String.eqb_refl, Hf. split; [now rewrite render_items|].
    destruct Hres as (Hit & Hev). split; [lia|exact Hev].
  - rewrite Hf, unterminated_items. auto.
  - now rewrite Hf, unterminated_items.
Qed.

(** ** The reformat step *)

Lemma reformat_footprint E out w :
  exists evs,
    fst (reformat E out w) = Ret tt /\
    trace (snd (reformat E out w)) = trace w ++ evs /\
    requests evs = [] /\ no_stderr evs = true /\
    gets (snd (reformat E out w)) = gets w.
Proof.
  assert (Hfin : forall (r : outcome unit * world) evs,
             fst r = Ret tt -> trace (snd r) = trace w ++ evs ->
             requests evs = [] -> no_stderr evs = true ->
             gets (snd r) = gets w ->
             exists evs,
               fst r = Ret tt /\ trace (snd r) = trace w ++ evs /\
               requests evs = [] /\ no_stderr evs = true /\
               gets (snd r) = gets w) by eauto 10.
  unfold reformat, bind, try_except, load_file, dump_file, bind.
  destruct (COMPACT_OUTPUT E); cbn [negb].
  { now apply Hfin with (evs := [EOut MSkipPretty]). }
  cbn [print emit].
  destruct (load_fault E) as [e|].
  { apply Hfin with (evs := [EOut MReformatting; EOut (MReformatWarning e)]);
      cbn; rewrite <- ?app_assoc; reflexivity. }
  cbn [fs].
  destruct (fs w out) as [c|];
    [|apply Hfin with (evs := [EOut MReformatting;
                               EOut (MReformatWarning OSError)]);
      cbn; rewrite <- ?app_assoc; reflexivity].
  destruct (json_loads c) as [v|];
    [|apply Hfin with (evs := [EOut MReformatting;
                               EOut (MReformatWarning ValueError)]);
      cbn; rewrite <- ?app_assoc; reflexivity].
  destruct (reopen_fault E) as [e|].
  { apply Hfin with (evs := [EOut MReformatting; EOut (MReformatWarning e)]);
      cbn; rewrite <- ?app_assoc; reflexivity. }
  destruct (dump_fault E) as [[n e]|].
  - apply Hfin with (evs := [EOut MReformatting; EOut (MReformatWarning e)]);
      cbn; rewrite <- ?app_assoc; reflexivity.
  - apply Hfin with (evs := [EOut MReformatting]); reflexivity.
Qed.

(** ** Files the run leaves alone *)

Lemma others_kept_refl out w : others_kept out w w.
Proof. intros p _. reflexivity. Qed.

Lemma others_kept_trans out w1 w2 w3 :
  others_kept out w1 w2 -> others_kept out w2 w3 -> others_kept out w1 w3.
Proof. intros H1 H2 p Hp. now rewrite (H2 p Hp), (H1 p Hp). Qed.

Lemma others_kept_log out w tr g :
  others_kept out w {| trace := tr; gets := g; fs := fs w |}.
Proof. intros p _. reflexivity. Qed.

Lemma writes_only_ret out A (a : A) : writes_only out (ret a).
Proof. apply sat_ret; [apply others_kept_refl|exact I]. Qed.

Lemma writes_only_raise out A e : writes_only out (@raise A e).
Proof. apply sat_raise; [apply others_kept_refl|exact I]. Qed.

Lemma writes_only_bind out A B (m : M A) (k : A -> M B) :
  writes_only out m -> (forall a, writes_only out (k a)) ->
  writes_only out (bind m k).
Proof.
  intros Hm Hk. eapply sat_bind; [apply others_kept_trans|exact Hm|].
  intros a _. apply Hk.
Qed.

Lemma writes_only_try_except out A B (m : M A) filter (h : exception -> M B)
    (n : A -> M B) :
  writes_only out m -> (forall e, writes_only out (h e)) ->
  (forall a, writes_only out (n a)) ->
  writes_only out (try_except m filter h n).
Proof.
  intros Hm Hh Hn.
  eapply sat_try_except with (ok' := fun _ => True);
    [apply others_kept_trans|exact Hm|intros e _; apply Hh
    |intros a _; apply Hn|auto|auto].
Qed.

Lemma writes_only_emit out ev : writes_only out (emit ev).
Proof. apply sat_emit. apply others_kept_log. Qed.

Lemma writes_only_lift out A (r : exception + A) : writes_only out (lift r).
Proof. destruct r; [apply writes_only_raise|apply writes_only_ret]. Qed.

Lemma writes_only_f_write out d : writes_only out (f_write out d).
Proof.
  intros w. cbn. split; [|exact I]. intros p Hp.
  apply String.eqb_neq in Hp. cbn [fs fs_set]. now rewrite Hp.
Qed.

Lemma writes_only_f_open_w out : writes_only out (f_open_w out).
Proof.
  intros w. cbn. split; [|exact I]. intros p Hp.
  apply String.eqb_neq in Hp. cbn [fs fs_set]. now rewrite Hp.
Qed.

Lemma writes_only_fetch_loop out E fuel session u p attempt :
  writes_only out (fetch_loop E fuel session u p attempt).
Proof.
  eapply sat_weaken; [|intros a _; exact I|intros e _; exact I].
  apply sat_fetch_loop;
    [apply others_kept_refl|apply others_kept_trans|apply others_kept_log].
Qed.

Lemma writes_only_write_items out items : forall first,
  writes_only out (write_items out items first).
Proof.
  induction items as [|x r IH]; intros first; cbn [write_items].
  - apply writes_only_ret.
  - apply writes_only_bind.
    + destruct (negb first); [apply writes_only_f_write|apply writes_only_ret].
    + intros _. apply writes_only_bind; [apply writes_only_f_write|].
      intros _. apply IH.
Qed.

Lemma writes_only_load_file out E : writes_only out (load_file E out).
Proof.
  unfold load_file. destruct (load_fault E); [apply writes_only_raise|].
  intros w. destruct (fs w out) as [c|]; [destruct (json_loads c)|];
    (split; [apply others_kept_refl|exact I]).
Qed.

Create HintDb frame.

#[local] Hint Resolve writes_only_ret writes_only_raise writes_only_emit
  writes_only_lift writes_only_f_write writes_only_f_open_w
  writes_only_fetch_loop writes_only_write_items writes_only_load_file
  : frame.

(** One step through a sequence of statements. *)
Ltac frame_step :=
  match goal with
  | |- writes_only _ (bind _ _) => apply writes_only_bind; [|intros ?]
  | |- writes_only _ (try_except _ _ _ _) =>
      apply writes_only_try_except; [|intros ?|intros ?]
  | |- writes_only _ (if ?c then _ else _) => destruct c
  | |- writes_only _ (match ?c with _ => _ end) => destruct c
  | |- writes_only _ (print _) => apply writes_only_emit
  | |- writes_only _ (print_stderr _) => apply writes_only_emit
  | |- writes_only _ _ => solve [auto with frame]
  end.

Lemma writes_only_page_step out E data st :
  writes_only out (page_step E out data st).
Proof. unfold page_step. cbv zeta. repeat frame_step. Qed.

Lemma writes_only_stream_loop out E ffuel session : forall fuel st,
  writes_only out (stream_loop E fuel ffuel session out st).
Proof.
  induction fuel as [|fuel IH]; intros st; cbn [stream_loop].
  - apply sat_out_of_fuel. apply others_kept_refl.
  - unfold fetch_page. pose proof writes_only_page_step.
    repeat frame_step.
Qed.

Lemma writes_only_stream_to_file out E fuel session :
  writes_only out (stream_to_file E fuel session out).
Proof.
  unfold stream_to_file. pose proof writes_only_stream_loop.
  repeat frame_step.
Qed.

Lemma writes_only_reformat out E : writes_only out (reformat E out).
Proof. unfold reformat, dump_file. repeat frame_step. Qed.


Lemma writes_only_main E fuel :
  writes_only (out_path_of (ts_local E)) (main E fuel).
Proof.
  unfold main, stream_all, _session, _auth_header.
  pose proof (@writes_only_stream_to_file (out_path_of (ts_local E))).
  pose proof (@writes_only_reformat (out_path_of (ts_local E))).
  repeat (frame_step; auto with frame).
Qed.

Lemma reformat_ok E out w c v :
  COMPACT_OUTPUT E = false ->
  load_fault E = None -> reopen_fault E = None -> dump_fault E = None ->
  fs w out = Some c -> loads c = Some v ->
  fst (reformat E out w) = Ret tt /\
  fs (snd (reformat E out w)) out = Some (pretty 0 v) /\
  trace (snd (reformat E out w)) = trace w ++ [EOut MReformatting].
Proof.
  intros Hc Hl Hr Hd Hf Hv. apply loads_json_loads in Hv.
  unfold reformat, bind, try_except, load_file, dump_file, bind.
  rewrite Hc, Hl, Hr, Hd. cbn [negb print emit fs]. rewrite Hf, Hv.
  cbn. rewrite !String.eqb_refl. repeat split.
Qed.

(** ** A first page the loop cannot take *)

Lemma stream_to_file_first_page E fuel session out w r data e w2 :
  net E (gets w) (first_request E session) = inr r ->
  status_code r = 200%Z -> json_body r = inr data ->
  page_step E out data (loop_vars0 E)
    (after_get E (first_request E session) (opened out w))
  = (Raise (Exc e), w2) ->
  stream_to_file E (S fuel) session out w = (Raise (Exc e), w2).
Proof.
  intros Hn Hs Hb Hstep. unfold stream_to_file, bind at 1 2.
  cbn [f_open_w f_write]. unfold bind at 1. cbn [stream_loop].
  unfold bind at 1.
  unfold after_get, opened, bind in Hstep. cbn [f_open_w f_write snd] in Hstep.
  set (w0 := fs_set out _ (fs_set out [] w)) in *.
  assert (Hn0 : net E (gets w0)
                  {| req_headers := session; req_url := JStr BASE_URL;
                     req_params := Some [("top"%string, PAGE_SIZE E)] |}
                = inr r) by exact Hn.
  cbn [loop_vars0 url params].
  rewrite (fetch_page_served fuel Hn0 Hs Hb).
  unfold bind at 1. unfold first_request in Hstep. rewrite Hn0 in Hstep.
  rewrite Hstep. reflexivity.
Qed.

Lemma page_step_error E f data st w e :
  page_error data = Some e ->
  page_step E f data st w = (Raise (Exc e), w).
Proof.
  destruct data as [| | | | | |m]; cbn [page_error];
    try (intros [= <-]; reflexivity).
  unfold page_step, bind. cbn [py_get lift ret].
  destruct (lookup "items" m) as [[| | | | | |]|]; try discriminate;
    intros [= <-]; reflexivity.
Qed.

Lemma page_step_zero_log E f p st w c :
  page_ok p = true -> LOG_EVERY E = 0%Z -> fs w f = Some c ->
  exists w',
    page_step E f p st w = (Raise (Exc ZeroDivisionError), w') /\
    trace w' = trace w /\ gets w' = gets w /\
    fs w' f = Some (c ++ items_bytes (first_item st) (page_items p)).
Proof.
  intros Hok Hlog Hc. destruct p as [| | | | | |m]; try discriminate.
  assert (Hit : py_iter (match lookup "items" m with
                         | Some v => v
                         | None => JArr []
                         end) = inr (page_items (JObj m))).
  { simpl in *. destruct (lookup "items" m) as [[| | | | |l|]|];
      try discriminate; reflexivity. }
  destruct (write_items_spec f (page_items (JObj m)) (first_item st) w)
    as (w1 & Hw & Ht & Hg & _ & Hf).
  unfold page_step, bind. cbn [py_get lift ret]. rewrite Hit. cbn [lift ret].
  rewrite Hw, Hlog. cbn [Z.eqb raise]. exists w1. auto.
Qed.

Lemma page_ok_items_wf p : page_ok p = true -> forallb wf (page_items p) = true.
Proof.
  destruct p as [| | | | | |m]; try discriminate. simpl.
  destruct (lookup "items" m) as [[| | | | |l|]|]; try discriminate; auto.
Qed.

(** ** Pages that come on the second try *)

Lemma fetch_page_second_try E fuel session u p w r v :
  let rq := {| req_headers := session; req_url := u; req_params := p |} in
  fails (net E (gets w) rq) = true ->
  sleep_error E (delay E (net E (gets w) rq) 1) = None ->
  net E (S (gets w)) rq = inr r ->
  status_code r = 200%Z -> json_body r = inr v ->
  fetch_page E (S (S fuel)) session u p w
  = (Ret v, after_get E rq (after_retry E rq 1 w)).
Proof.
  intros rq Hf Hs Hn H200 Hb. unfold fetch_page.
  rewrite fetch_loop_retry; fold rq; [|exact Hf|unfold MAX_RETRIES; lia].
  change (0 + 1)%Z with 1%Z. rewrite Hs.
  assert (Hn' : net E (gets (after_retry E rq 1 w)) rq = inr r) by exact Hn.
  rewrite fetch_loop_pass; fold rq; [|now rewrite Hn'; cbn; rewrite H200].
  rewrite Hn', H200. cbn [Z.eqb Pos.eqb]. unfold lift. now rewrite Hb.
Qed.

Lemma served_on_second_try_tail E g p ps :
  served_on_second_try E g (p :: ps) -> served_on_second_try E (S (S g)) ps.
Proof.
  intros H i q rq Hq. specialize (H (S i) q rq Hq).
  replace (S (S g) + 2 * i) with (g + 2 * S i) by lia. exact H.
Qed.

Lemma stream_loop_second_try E session f ffuel ps :
  LOG_EVERY E <> 0%Z ->
  forall st w c fuel,
    chain ps = true -> served_on_second_try E (gets w) ps ->
    fs w f = Some c -> List.length ps <= fuel ->
    exists st' w',
      stream_loop E fuel (S (S ffuel)) session f st w = (Ret st', w') /\
      fs w' f = Some (c ++ items_bytes (first_item st) (all_items ps)) /\
      gets w' = gets w + 2 * List.length ps /\
      List.length (sleeps (trace w'))
      = List.length (sleeps (trace w)) + List.length ps.
Proof.
  intros Hlog. induction ps as [|p ps IH]; intros st w c fuel Hch Hsv Hc Hfuel;
    [discriminate|].
  destruct fuel as [|fuel]; [simpl in Hfuel; lia|].
  cbn [chain] in Hch. apply andb_prop in Hch as [Hok Hch].
  set (rq := {| req_headers := session; req_url := url st;
                req_params := params st |}).
  destruct (Hsv 0 p rq eq_refl) as (Hfail & Hsl & r & Hn & Hs & Hb).
  rewrite Nat.mul_0_r, Nat.add_0_r in Hfail, Hsl.
  replace (gets w + 2 * 0 + 1) with (S (gets w)) in Hn by lia.
  cbn [stream_loop]. unfold bind at 1.
  rewrite (@fetch_page_second_try E ffuel session (url st) (params st) w r p
             Hfail Hsl Hn Hs Hb).
  fold rq. set (w1 := after_get E rq (after_retry E rq 1 w)).
  assert (Hg1 : gets w1 = S (S (gets w))) by reflexivity.
  assert (Hs1 : List.length (sleeps (trace w1))
                = S (List.length (sleeps (trace w)))).
  { unfold w1, after_get. cbn [trace].
    rewrite sleeps_app, sleeps_after_retry, !length_app. cbn. lia. }
  assert (Hc1 : fs w1 f = Some c) by exact Hc.
  destruct (page_step_ok f st w1 Hok Hlog) as (w2 & Hstep & Ht & Hg & _ & Hf).
  unfold bind. rewrite Hstep. cbn [fst snd].
  specialize (Hf c Hc1).
  assert (Hs2 : List.length (sleeps (trace w2))
                = S (List.length (sleeps (trace w)))).
  { rewrite Ht, sleeps_app, length_app, Hs1.
    unfold page_events. destruct (logs_page _ _), (has_next p); cbn; lia. }
  destruct ps as [|q ps'].
  - apply negb_true_iff in Hch. rewrite Hch. cbn [ret].
    exists (step_vars p st), w2. split; [reflexivity|].
    unfold all_items. cbn [map List.concat]. rewrite app_nil_r.
    split; [exact Hf|]. cbn [List.length]. split; lia.
  - apply andb_prop in Hch as [Hnext Hch]. rewrite Hnext.
    assert (Hsv2 : served_on_second_try E (gets w2) (q :: ps')).
    { rewrite Hg, Hg1. now apply served_on_second_try_tail with (p := p). }
    destruct (IH (step_vars p st) w2 _ fuel Hch Hsv2 Hf)
      as (st' & w' & Hrun & Hf' & Hg' & Hsl');
      [simpl in Hfuel |- *; lia|].
    exists st', w'. split; [exact Hrun|].
    unfold all_items in *. cbn [map List.concat].
    rewrite items_bytes_app, app_assoc.
    split; [exact Hf'|]. cbn [List.length] in *. split; lia.
Qed.

Lemma served_on_second_try_stubborn E ps :
  net E = stubborn ps -> sleep_error E (backoff 1) = None ->
  served_on_second_try E 0 ps.
Proof.
  intros HE Hs i p rq Hi. rewrite HE. unfold stubborn. cbn [Nat.add].
  assert (He : Nat.even (2 * i) = true)
    by (rewrite Nat.even_mul; reflexivity).
  assert (Ho : Nat.even (2 * i + 1) = false).
  { rewrite Nat.add_1_r, Nat.even_succ, <- Nat.negb_even, He. reflexivity. }
  rewrite He, Ho.
  replace (2 * i + 1) with (S (2 * i)) by lia.
  rewrite Nat.div2_succ_double, Hi.
  split; [reflexivity|]. split; [exact Hs|].
  eexists. repeat split.
Qed.

(** ** [main], once the token is accepted *)

Lemma main_accepted E fuel w :
  token_rejected E = false ->
  main E fuel w
  = match stream_to_file E fuel (session_of E) (out_path_of (ts_local E))
            (log_event (EOut (MStart BASE_URL (PAGE_SIZE E)
                                (out_path_of (ts_local E)))) w) with
    | (Ret _, w1) =>
        (Ret tt,
         log_event (EOut (MWrote (out_path_of (ts_local E))))
           (snd (reformat E (out_path_of (ts_local E)) w1)))
    | (Raise (Exc e), w1) =>
        (Raise (SystemExit 2), log_event (EErr (MFailed e)) w1)
    | (Raise (SystemExit c), w1) => (Raise (SystemExit c), w1)
    | (OutOfFuel, w1) => (OutOfFuel, w1)
    end.
Proof.
  intros Ht. unfold main, try_except.
  rewrite (stream_all_accepted fuel w Ht). unfold bind at 1.
  destruct (stream_to_file _ _ _ _ _) as [[st|[c|e]|] w1]; try reflexivity.
  unfold bind.
  destruct (reformat_footprint E (out_path_of (ts_local E)) w1)
    as (evs & Hr & _).
  destruct (reformat E (out_path_of (ts_local E)) w1) as [r w2].
  cbn [fst snd] in *. subst r. reflexivity.
Qed.

End StreamFacts.

(** * The output file and the pages fetched *)

Module Output.

Import Json Py Script Spec JsonFacts Logic ScriptFacts Properties TextFacts
  FetchFacts StreamFacts.

(** ** The pages of a trace *)




(** ** One page *)

Lemma items_of_page_items p : page_ok p = true -> items_of p = page_items p.
Proof.
  destruct p as [| | | | | |m]; try discriminate.
  unfold items_of. cbn [py_get page_ok page_items].
  destruct (lookup "items" m) as [[| | | | |l|]|]; try discriminate;
    reflexivity.
Qed.



(** ** The loop *)





(** ** The array the streaming block leaves *)







End Output.

Module Behaviour.

Import Json Py Script Spec JsonFacts Logic ScriptFacts Properties TextFacts
  FetchFacts StreamFacts.

(** ** The text of an item *)

(** X1.  [dumps_bytes] loses nothing: the text it writes for a value reads
    back as that value, and no other value has the same text. *)
Theorem dumps_bytes_reads_back v :
  wf v = true ->
  loads (dumps_bytes v) = Some v /\
  (forall v', wf v' = true -> dumps_bytes v' = dumps_bytes v -> v' = v).
Proof.
  intros Hwf. split; [now apply loads_dumps_bytes|].
  intros v' Hwf' He. pose proof (loads_dumps_bytes Hwf') as H.
  rewrite He, (loads_dumps_bytes Hwf) in H. congruence.
Qed.

Lemma dumps_bytes_reads_back_witness :
  loads (dumps_bytes page1) = Some page1 /\
  (forall v', wf v' = true -> dumps_bytes v' = dumps_bytes page1 -> v' = page1).
Proof. apply (@dumps_bytes_reads_back page1). reflexivity. Defined.

(** X2.  The text [dumps_bytes] writes holds no control character: every
    byte is [0x20] or above, so an item never spans two lines. *)
Theorem dumps_bytes_has_no_control_byte v :
  wf v = true ->
  forallb printable (dumps_bytes v) = true /\ ~ In NL (dumps_bytes v).
Proof.
  intros Hwf. pose proof (dumps_printable Hwf) as H. split; [exact H|].
  intros Hin. rewrite forallb_forall in H. specialize (H _ Hin).
  discriminate.
Qed.

Lemma dumps_bytes_has_no_control_byte_witness :
  forallb printable
    (dumps_bytes (JObj [("note"%string, JStr (String NL "tab"))])) = true /\
  ~ In NL (dumps_bytes (JObj [("note"%string, JStr (String NL "tab"))])).
Proof.
  apply (@dumps_bytes_has_no_control_byte
           (JObj [("note"%string, JStr (String NL "tab"))])).
  reflexivity.
Defined.

Lemma escape_plain l : forallb plain l = true -> escape l = l.
Proof.
  induction l as [|c l IH]; [reflexivity|].
  cbn [forallb escape]. intros H. apply andb_prop in H as [Hc Hl].
  rewrite (IH Hl). clear -Hc.
  destruct c as [[] [] [] [] [] [] [] []]; try discriminate; reflexivity.
Qed.

Lemma escape_char_marked c :
  plain c = false -> exists t, escape_char c = BSLASH :: t.
Proof.
  destruct c as [[] [] [] [] [] [] [] []]; try discriminate;
    intros _; eexists; reflexivity.
Qed.

(** X3.  Text is written as it is ([ensure_ascii=False]): a string
    without a quote, a backslash or a control character is put between two
    quotes byte for byte, its non-ASCII characters in UTF-8; and those three
    kinds of characters, and no other, are written as an escape that starts
    with a backslash. *)
Theorem text_is_written_as_it_is s :
  forallb plain (list_ascii_of_string s) = true ->
  dumps_bytes (JStr s) = DQUOTE :: list_ascii_of_string s ++ [DQUOTE] /\
  (forall c, plain c = false -> exists t, escape_char c = BSLASH :: t) /\
  (forall c, plain c = true -> escape_char c = [c]).
Proof.
  intros H. split; [|split].
  - cbn [dumps_bytes]. unfold encode_str. now rewrite escape_plain.
  - apply escape_char_marked.
  - intros c Hc. pose proof (@escape_plain [c]) as He.
    cbn [forallb escape] in He. rewrite Hc, app_nil_r in He. now apply He.
Qed.

Lemma text_is_written_as_it_is_witness :
  let s := String "c" (String "a" (String "f" (String "195"
             (String "169" EmptyString)))) in
  dumps_bytes (JStr s) = DQUOTE :: list_ascii_of_string s ++ [DQUOTE] /\
  (forall c, plain c = false -> exists t, escape_char c = BSLASH :: t) /\
  (forall c, plain c = true -> escape_char c = [c]).
Proof.
  apply (@text_is_written_as_it_is
           (String "c" (String "a" (String "f" (String "195"
              (String "169" EmptyString)))))).
  reflexivity.
Defined.

(** ** The output file *)



(** X5.  The reformat step changes the layout, not the data: with
    pretty-printing on and no fault, the compact file of the items [items]
    is replaced by the indented text of their array, which reads back as
    the value the compact file read as; only the line announcing the step
    is printed. *)
Theorem reformat_keeps_the_items E out w items :
  COMPACT_OUTPUT E = false ->
  load_fault E = None -> reopen_fault E = None -> dump_fault E = None ->
  fs w out = Some (render items) -> forallb wf items = true ->
  fst (reformat E out w) = Ret tt /\
  fs (snd (reformat E out w)) out = Some (pretty 0 (JArr items)) /\
  loads (pretty 0 (JArr items)) = loads (render items) /\
  loads (render items) = Some (JArr items) /\
  trace (snd (reformat E out w)) = trace w ++ [EOut MReformatting].
Proof.
  intros Hc Hl Hr Hd Hf Hwf.
  pose proof (loads_render Hwf) as Hv.
  destruct (reformat_ok Hc Hl Hr Hd Hf Hv) as (H1 & H2 & H3).
  split; [exact H1|]. split; [exact H2|]. split; [|split; assumption].
  rewrite Hv. now apply loads_pretty.
Qed.

Lemma reformat_keeps_the_items_witness :
  let E := demo_env (Some "t"%string) false (serve []) in
  let w := fs_set "out.json" (render (all_items demo_pages)) world0 in
  fst (reformat E "out.json" w) = Ret tt /\
  fs (snd (reformat E "out.json" w)) "out.json"%string
  = Some (pretty 0 (JArr (all_items demo_pages))) /\
  loads (pretty 0 (JArr (all_items demo_pages)))
  = loads (render (all_items demo_pages)) /\
  loads (render (all_items demo_pages)) = Some (JArr (all_items demo_pages)) /\
  trace (snd (reformat E "out.json" w)) = trace w ++ [EOut MReformatting].
Proof.
  apply (@reformat_keeps_the_items
           (demo_env (Some "t"%string) false (serve [])) "out.json"
           (fs_set "out.json" (render (all_items demo_pages)) world0)
           (all_items demo_pages));
    reflexivity.
Defined.

(** X6.  With pretty-printing on and no fault, a run against a server that
    sends the pages [ps] ends with status 0 and leaves the indented text of
    the array of all the items, which reads back as that array. *)
Theorem pretty_run_writes_all_items E ps fuel w :
  token_rejected E = false -> LOG_EVERY E <> 0%Z ->
  COMPACT_OUTPUT E = false ->
  load_fault E = None -> reopen_fault E = None -> dump_fault E = None ->
  chain ps = true -> served_from E (gets w) ps -> List.length ps <= fuel ->
  exit_status (fst (main E fuel w)) = Some 0%Z /\
  fs (snd (main E fuel w)) (out_path_of (ts_local E))
  = Some (pretty 0 (JArr (all_items ps))) /\
  loads (pretty 0 (JArr (all_items ps))) = Some (JArr (all_items ps)).
Proof.
  intros Ht Hlog Hc Hl Hr Hd Hch Hsv Hfuel.
  rewrite (main_accepted fuel w Ht).
  set (out := out_path_of (ts_local E)).
  set (w0 := log_event _ w).
  destruct (@stream_to_file_served E (session_of E) out ps fuel w0
              Hlog Hch Hsv Hfuel) as (st & w1 & Hrun & Hf & _).
  rewrite Hrun. cbn [fst snd exit_status log_event fs].
  assert (Hv : loads (render (all_items ps)) = Some (JArr (all_items ps)))
    by (apply loads_render; now apply chain_wf).
  destruct (reformat_ok Hc Hl Hr Hd Hf Hv) as (_ & H2 & _).
  split; [reflexivity|]. split; [exact H2|].
  apply loads_pretty. simpl. now apply chain_wf.
Qed.

Lemma pretty_run_writes_all_items_witness :
  let E := demo_env (Some "t"%string) false (serve demo_pages) in
  exit_status (fst (main E 3 world0)) = Some 0%Z /\
  fs (snd (main E 3 world0)) (out_path_of (ts_local E))
  = Some (pretty 0 (JArr (all_items demo_pages))) /\
  loads (pretty 0 (JArr (all_items demo_pages)))
  = Some (JArr (all_items demo_pages)).
Proof.
  apply (@pretty_run_writes_all_items
           (demo_env (Some "t"%string) false (serve demo_pages))
           demo_pages 3 world0); try reflexivity.
  - discriminate.
  - apply served_serve. reflexivity.
Defined.

(** X7.  A failure of the reformat step never fails the run: once the
    streaming block has completed, [main] prints the line naming the file
    and the status is 0, whatever goes wrong while the file is reformatted;
    nothing is written to standard error. *)
Theorem reformat_failure_keeps_exit_status E fuel w :
  token_rejected E = false ->
  returned
    (fst (stream_to_file E fuel (session_of E) (out_path_of (ts_local E))
            (log_event (EOut (MStart BASE_URL (PAGE_SIZE E)
                                (out_path_of (ts_local E)))) w))) = true ->
  exit_status (fst (main E fuel w)) = Some 0%Z /\
  exists evs,
    trace (snd (main E fuel w))
    = trace w ++ evs ++ [EOut (MWrote (out_path_of (ts_local E)))] /\
    no_stderr evs = true.
Proof.
  intros Ht Hret. rewrite (main_accepted fuel w Ht).
  destruct (stream_to_file _ _ _ _ _) as [r w1] eqn:Hrun.
  destruct r as [st|e|]; try discriminate.
  cbn [fst snd exit_status log_event trace]. split; [reflexivity|].
  destruct (stream_to_file_footprint Hrun)
    as (items & evs & _ & Ht1 & _ & _ & He1 & _).
  destruct (reformat_footprint E (out_path_of (ts_local E)) w1)
    as (evs2 & _ & Ht2 & _ & He2 & _).
  rewrite Ht2, Ht1. cbn [log_event trace].
  exists ([EOut (MStart BASE_URL (PAGE_SIZE E) (out_path_of (ts_local E)))]
            ++ evs ++ evs2).
  split; [now rewrite <- !app_assoc|].
  now rewrite !no_stderr_app, He1, He2.
Qed.

Lemma reformat_failure_keeps_exit_status_witness :
  let E := with_dump_fault
             (demo_env (Some "t"%string) false (serve demo_pages)) 4 OSError in
  exit_status (fst (main E 3 world0)) = Some 0%Z /\
  exists evs,
    trace (snd (main E 3 world0))
    = trace world0 ++ evs ++ [EOut (MWrote (out_path_of (ts_local E)))] /\
    no_stderr evs = true.
Proof.
  apply (@reformat_failure_keeps_exit_status
           (with_dump_fault
              (demo_env (Some "t"%string) false (serve demo_pages)) 4 OSError)
           3 world0).
  - reflexivity.
  - vm_compute. reflexivity.
Defined.

(** ** Fetching one page *)

(** X8.  [fetch_page] recovers from passing failures: after [k] failed
    attempts in a row, [k] at most [MAX_RETRIES], an answer [200] ends the
    fetch with its decoded body (or, without another try, with what
    decoding raises); the same request was sent [k + 1] times, with [k]
    sleeps in between, and no file was touched. *)
Theorem fetch_page_recovers E session u p k fuel w r :
  (Z.of_nat k <= MAX_RETRIES)%Z ->
  (forall i, i < k ->
     fails (net E (gets w + i)
              {| req_headers := session; req_url := u; req_params := p |})
     = true) ->
  Forall (fun d => sleep_error E d = None)
    (retry_delays E {| req_headers := session; req_url := u; req_params := p |}
       (gets w) 0 k) ->
  net E (gets w + k) {| req_headers := session; req_url := u; req_params := p |}
  = inr r ->
  status_code r = 200%Z -> k < fuel ->
  fst (fetch_page E fuel session u p w)
  = match json_body r with
    | inr v => Ret v
    | inl e => Raise (Exc e)
    end /\
  gets (snd (fetch_page E fuel session u p w)) = gets w + k + 1 /\
  requests (trace (snd (fetch_page E fuel session u p w)))
  = requests (trace w)
      ++ repeat {| req_headers := session; req_url := u; req_params := p |}
           (k + 1) /\
  sleeps (trace (snd (fetch_page E fuel session u p w)))
  = sleeps (trace w)
      ++ retry_delays E
           {| req_headers := session; req_url := u; req_params := p |}
           (gets w) 0 k /\
  fs (snd (fetch_page E fuel session u p w)) = fs w.
Proof.
  set (rq := {| req_headers := session; req_url := u; req_params := p |}).
  intros Hk Hf Hs Hn H200 Hfuel.
  replace fuel with (k + S (fuel - S k)) by lia.
  unfold fetch_page. rewrite fetch_loop_retries; fold rq; try assumption;
    try lia.
  assert (Hn' : net E (gets (retried E rq k 0 w)) rq = inr r)
    by now rewrite gets_retried.
  rewrite fetch_loop_pass; fold rq; [|now rewrite Hn'; cbn; rewrite H200].
  rewrite Hn', H200. cbn [Z.eqb Pos.eqb].
  assert (Hw : forall (o : outcome json),
             fst (o, after_get E rq (retried E rq k 0 w)) = o /\
             gets (after_get E rq (retried E rq k 0 w)) = gets w + k + 1 /\
             requests (trace (after_get E rq (retried E rq k 0 w)))
             = requests (trace w) ++ repeat rq (k + 1) /\
             sleeps (trace (after_get E rq (retried E rq k 0 w)))
             = sleeps (trace w) ++ retry_delays E rq (gets w) 0 k /\
             fs (after_get E rq (retried E rq k 0 w)) = fs w).
  { intros o. unfold after_get. cbn [fst trace gets fs].
    rewrite gets_retried, fs_retried, requests_app, sleeps_app,
      requests_retried, sleeps_retried, repeat_app, <- !app_assoc.
    cbn. rewrite !app_nil_r. repeat split; lia. }
  unfold lift. destruct (json_body r) as [e|v]; apply Hw.
Qed.

Lemma fetch_page_recovers_witness :
  let E := demo_env (Some "t"%string) true (flaky page3) in
  let rq := {| req_headers := demo_session; req_url := JStr BASE_URL;
               req_params := None |} in
  fst (fetch_page E 3 demo_session (JStr BASE_URL) None world0) = Ret page3 /\
  gets (snd (fetch_page E 3 demo_session (JStr BASE_URL) None world0))
  = 0 + 2 + 1 /\
  requests (trace (snd (fetch_page E 3 demo_session (JStr BASE_URL) None
                          world0)))
  = [] ++ repeat rq (2 + 1) /\
  sleeps (trace (snd (fetch_page E 3 demo_session (JStr BASE_URL) None
                        world0)))
  = [] ++ retry_delays E rq 0 0 2 /\
  fs (snd (fetch_page E 3 demo_session (JStr BASE_URL) None world0))
  = fs world0.
Proof.
  apply (@fetch_page_recovers
           (demo_env (Some "t"%string) true (flaky page3))
           demo_session (JStr BASE_URL) None 2 3 world0 (ok_response page3)).
  - unfold MAX_RETRIES. lia.
  - intros [|[|i]] Hi; [reflexivity|reflexivity|lia].
  - repeat constructor.
  - reflexivity.
  - reflexivity.
  - lia.
Defined.

(** X9.  An answer that is neither a success nor retried ends the fetch at
    once: after [k] failed attempts in a row, an exception of [session.get]
    that is no [RequestException], or an error status outside the retried
    ones (such as 401 or 404), is raised without another request and
    without a sleep. *)
Theorem fetch_page_fatal_answer E session u p k fuel w e :
  (Z.of_nat k <= MAX_RETRIES)%Z ->
  (forall i, i < k ->
     fails (net E (gets w + i)
              {| req_headers := session; req_url := u; req_params := p |})
     = true) ->
  Forall (fun d => sleep_error E d = None)
    (retry_delays E {| req_headers := session; req_url := u; req_params := p |}
       (gets w) 0 k) ->
  fatal (net E (gets w + k)
           {| req_headers := session; req_url := u; req_params := p |})
  = Some e ->
  k < fuel ->
  fst (fetch_page E fuel session u p w) = Raise (Exc e) /\
  gets (snd (fetch_page E fuel session u p w)) = gets w + k + 1 /\
  sleeps (trace (snd (fetch_page E fuel session u p w)))
  = sleeps (trace w)
      ++ retry_delays E
           {| req_headers := session; req_url := u; req_params := p |}
           (gets w) 0 k /\
  fs (snd (fetch_page E fuel session u p w)) = fs w.
Proof.
  set (rq := {| req_headers := session; req_url := u; req_params := p |}).
  intros Hk Hf Hs Hfat Hfuel.
  replace fuel with (k + S (fuel - S k)) by lia.
  unfold fetch_page. rewrite fetch_loop_retries; fold rq; try assumption;
    try lia.
  assert (Hg : gets (retried E rq k 0 w) = gets w + k) by apply gets_retried.
  assert (Hw : fst (Raise (A := json) (Exc e),
                    after_get E rq (retried E rq k 0 w)) = Raise (Exc e) /\
               gets (after_get E rq (retried E rq k 0 w)) = gets w + k + 1 /\
               sleeps (trace (after_get E rq (retried E rq k 0 w)))
               = sleeps (trace w) ++ retry_delays E rq (gets w) 0 k /\
               fs (after_get E rq (retried E rq k 0 w)) = fs w).
  { unfold after_get. cbn [fst trace gets fs].
    rewrite gets_retried, fs_retried, sleeps_app, sleeps_retried.
    cbn. rewrite !app_nil_r. repeat split; lia. }
  unfold fatal in Hfat.
  destruct (net E (gets w + k) rq) as [e0|r] eqn:Hn.
  - destruct (is_RequestException e0) eqn:He; [discriminate|].
    injection Hfat as <-.
    rewrite fetch_loop_pass; fold rq; rewrite Hg, Hn; [exact Hw|exact He].
  - destruct (status_code r =? 200)%Z eqn:H200; [discriminate|].
    destruct (retryable (status_code r)) eqn:Hr; [discriminate|].
    cbn [orb] in Hfat.
    destruct (error_status (status_code r)) eqn:Herr; [|discriminate].
    injection Hfat as <-.
    rewrite fetch_loop_pass; fold rq; rewrite Hg, Hn; [|exact Hr].
    rewrite H200, Herr. exact Hw.
Qed.

Lemma fetch_page_fatal_answer_witness :
  let E := demo_env (Some "t"%string) true (answering 404) in
  fst (fetch_page E 1 demo_session (JStr BASE_URL) None world0)
  = Raise (Exc (HTTPError 404)) /\
  gets (snd (fetch_page E 1 demo_session (JStr BASE_URL) None world0))
  = 0 + 0 + 1 /\
  sleeps (trace (snd (fetch_page E 1 demo_session (JStr BASE_URL) None
                        world0)))
  = [] ++ retry_delays E
            {| req_headers := demo_session; req_url := JStr BASE_URL;
               req_params := None |} 0 0 0 /\
  fs (snd (fetch_page E 1 demo_session (JStr BASE_URL) None world0))
  = fs world0.
Proof.
  apply (@fetch_page_fatal_answer
           (demo_env (Some "t"%string) true (answering 404))
           demo_session (JStr BASE_URL) None 0 1 world0 (HTTPError 404)).
  - unfold MAX_RETRIES. lia.
  - intros i Hi. lia.
  - constructor.
  - reflexivity.
  - lia.
Defined.

(** X10.  [fetch_page] has no branch for a status that is not 200, not
    retried and no error for [raise_for_status] (204 or 304, say): against
    a server that always answers with such a status it asks again at once,
    without a sleep and without counting the attempt, and never returns:
    whatever the fuel, it is used up, one request a turn. *)
Theorem fetch_page_spins_on_ignored_status E session u p fuel w :
  (forall n, exists r,
      net E n {| req_headers := session; req_url := u; req_params := p |}
      = inr r /\ ignored_status (status_code r) = true) ->
  fst (fetch_page E fuel session u p w) = OutOfFuel /\
  gets (snd (fetch_page E fuel session u p w)) = gets w + fuel /\
  requests (trace (snd (fetch_page E fuel session u p w)))
  = requests (trace w)
      ++ repeat {| req_headers := session; req_url := u; req_params := p |}
           fuel /\
  sleeps (trace (snd (fetch_page E fuel session u p w))) = sleeps (trace w).
Proof.
  set (rq := {| req_headers := session; req_url := u; req_params := p |}).
  intros Hnet. unfold fetch_page. generalize 0%Z as attempt. revert w.
  induction fuel as [|fuel IH]; intros w attempt.
  - cbn. rewrite app_nil_r. repeat split; lia.
  - destruct (Hnet (gets w)) as (r & Hn & Hi).
    unfold ignored_status in Hi.
    apply andb_prop in Hi as [Hi He]. apply andb_prop in Hi as [H200 Hr].
    apply negb_true_iff in H200, Hr, He.
    rewrite fetch_loop_pass; fold rq; [|now rewrite Hn].
    rewrite Hn, H200, He.
    destruct (IH (after_get E rq w) attempt) as (H1 & H2 & H3 & H4).
    rewrite H1, H2, H3, H4. unfold after_get. cbn [trace gets].
    rewrite requests_app, sleeps_app. cbn. rewrite <- app_assoc, app_nil_r.
    repeat split; lia.
Qed.

Lemma fetch_page_spins_on_ignored_status_witness :
  let E := demo_env (Some "t"%string) true (answering 204) in
  fst (fetch_page E 50 demo_session (JStr BASE_URL) None world0) = OutOfFuel /\
  gets (snd (fetch_page E 50 demo_session (JStr BASE_URL) None world0))
  = 0 + 50 /\
  requests (trace (snd (fetch_page E 50 demo_session (JStr BASE_URL) None
                          world0)))
  = [] ++ repeat {| req_headers := demo_session; req_url := JStr BASE_URL;
                    req_params := None |} 50 /\
  sleeps (trace (snd (fetch_page E 50 demo_session (JStr BASE_URL) None
                        world0))) = [].
Proof.
  apply (@fetch_page_spins_on_ignored_status
           (demo_env (Some "t"%string) true (answering 204))
           demo_session (JStr BASE_URL) None 50 world0).
  intros n. exists (status_only 204). split; reflexivity.
Defined.

(** X11.  The delay read from [Retry-After] goes to [time.sleep] as it
    is: when [time.sleep] rejects it (a negative number, say), its error
    leaves [fetch_page] after the first request, the retries that were left
    unused. *)
Theorem rejected_delay_aborts_fetch E session u p fuel w r h d e :
  net E (gets w) {| req_headers := session; req_url := u; req_params := p |}
  = inr r ->
  retryable (status_code r) = true ->
  headers_get r "Retry-After" = Some h -> h <> ""%string ->
  py_float E h = Some d -> sleep_error E d = Some e ->
  fst (fetch_page E (S fuel) session u p w) = Raise (Exc e) /\
  gets (snd (fetch_page E (S fuel) session u p w)) = gets w + 1 /\
  sleeps (trace (snd (fetch_page E (S fuel) session u p w)))
  = sleeps (trace w) ++ [d].
Proof.
  set (rq := {| req_headers := session; req_url := u; req_params := p |}).
  intros Hn Hr Hh Hne Hf Hs. unfold fetch_page.
  rewrite fetch_loop_retry; fold rq;
    [|rewrite Hn; exact Hr|unfold MAX_RETRIES; lia].
  assert (Hd : delay E (net E (gets w) rq) (0 + 1) = d).
  { rewrite Hn. cbn [delay]. unfold retry_sleep. rewrite Hh.
    apply String.eqb_neq in Hne. now rewrite Hne, Hf. }
  rewrite Hd, Hs. cbn [fst snd].
  rewrite sleeps_after_retry, Hd. cbn [after_retry gets].
  repeat split; lia.
Qed.

Lemma rejected_delay_aborts_fetch_witness :
  let E := with_signed_float (demo_env (Some "t"%string) true hasty) in
  fst (fetch_page E 6 demo_session (JStr BASE_URL) None world0)
  = Raise (Exc ValueError) /\
  gets (snd (fetch_page E 6 demo_session (JStr BASE_URL) None world0))
  = 0 + 1 /\
  sleeps (trace (snd (fetch_page E 6 demo_session (JStr BASE_URL) None
                        world0)))
  = [] ++ [Finite (-1 # 1)].
Proof.
  apply (@rejected_delay_aborts_fetch
           (with_signed_float (demo_env (Some "t"%string) true hasty))
           demo_session (JStr BASE_URL) None 5 world0
           {| status_code := 429;
              headers_get :=
                fun h => if String.eqb h "Retry-After" then Some "-1"%string
                         else None;
              json_body := inl (OtherError "JSONDecodeError") |}
           "-1"%string (Finite (-1 # 1)) ValueError);
    try reflexivity.
  discriminate.
Defined.

(** X12.  Whatever the server does, [fetch_page] stays within bounds: it
    sends one request and no other (the same URL, parameters and headers
    each time), sleeps at most [MAX_RETRIES] times, sees at most
    [MAX_RETRIES + 1] failed attempts, writes nothing to standard error and
    touches no file. *)
Theorem fetch_page_stays_within_bounds E session u p fuel w :
  exists evs,
    trace (snd (fetch_page E fuel session u p w)) = trace w ++ evs /\
    gets (snd (fetch_page E fuel session u p w))
    = gets w + List.length (requests evs) /\
    requests evs
    = repeat {| req_headers := session; req_url := u; req_params := p |}
        (List.length (requests evs)) /\
    List.length (sleeps evs) <= Z.to_nat MAX_RETRIES /\
    List.length (filter fails (outcomes evs)) <= S (Z.to_nat MAX_RETRIES) /\
    no_stderr evs = true /\
    fs (snd (fetch_page E fuel session u p w)) = fs w.
Proof.
  unfold fetch_page.
  destruct (@fetch_loop_footprint E session u p fuel 0%Z w)
    as (evs & Ht & Hg & Hr & _ & Hs & Ho & He & Hfs).
  exists evs. rewrite Z.sub_0_r in Hs, Ho. auto 10.
Qed.

(** ** Runs that fail *)

(** X13.  [LOG_EVERY=0] fails every run that reaches the server: the
    progress test divides by it, so after the items of the first page are
    written the loop raises [ZeroDivisionError]; the status is 2, one
    request was made, and the file is left without its closing bracket: it
    is not JSON. *)
Theorem zero_log_every_fails_first_page E fuel w r p :
  token_rejected E = false -> LOG_EVERY E = 0%Z ->
  net E (gets w) (first_request E (session_of E)) = inr r ->
  status_code r = 200%Z -> json_body r = inr p -> page_ok p = true ->
  exit_status (fst (main E (S fuel) w)) = Some 2%Z /\
  gets (snd (main E (S fuel) w)) = gets w + 1 /\
  fs (snd (main E (S fuel) w)) (out_path_of (ts_local E))
  = Some (unterminated (page_items p)) /\
  loads (unterminated (page_items p)) = None /\
  exists tr,
    trace (snd (main E (S fuel) w))
    = tr ++ [EErr (MFailed ZeroDivisionError)].
Proof.
  intros Ht Hlog Hn Hs Hb Hok. rewrite (main_accepted (S fuel) w Ht).
  set (out := out_path_of (ts_local E)).
  set (w0 := log_event _ w).
  set (w1 := after_get E (first_request E (session_of E)) (opened out w0)).
  assert (Hc : fs w1 out = Some ["["%char; NL]).
  { unfold w1, after_get, opened, bind. cbn. now rewrite !String.eqb_refl. }
  destruct (@page_step_zero_log E out p (loop_vars0 E) w1 _ Hok Hlog Hc)
    as (w2 & Hstep & Htr & Hg & Hf).
  rewrite (@stream_to_file_first_page E fuel (session_of E) out w0 r p
             ZeroDivisionError w2 Hn Hs Hb Hstep).
  cbn [fst snd exit_status log_event gets fs trace].
  split; [reflexivity|]. split; [rewrite Hg; unfold w1; cbn; lia|].
  split; [rewrite Hf, unterminated_items; reflexivity|].
  split; [apply loads_unterminated; now apply page_ok_items_wf|].
  eexists. reflexivity.
Qed.

Lemma zero_log_every_fails_first_page_witness :
  let E := {| getenv_token := Some "t"%string; PAGE_SIZE := 200;
              LOG_EVERY := 0; COMPACT_OUTPUT := true;
              ts_local := "20250101_0930"; net := serve demo_pages;
              py_float := demo_float; sleep_error := demo_sleep_error;
              load_fault := None; reopen_fault := None;
              dump_fault := None |} in
  exit_status (fst (main E 3 world0)) = Some 2%Z /\
  gets (snd (main E 3 world0)) = 0 + 1 /\
  fs (snd (main E 3 world0)) (out_path_of (ts_local E))
  = Some (unterminated (page_items page1)) /\
  loads (unterminated (page_items page1)) = None /\
  exists tr,
    trace (snd (main E 3 world0)) = tr ++ [EErr (MFailed ZeroDivisionError)].
Proof.
  apply (@zero_log_every_fails_first_page
           {| getenv_token := Some "t"%string; PAGE_SIZE := 200;
              LOG_EVERY := 0; COMPACT_OUTPUT := true;
              ts_local := "20250101_0930"; net := serve demo_pages;
              py_float := demo_float; sleep_error := demo_sleep_error;
              load_fault := None; reopen_fault := None;
              dump_fault := None |}
           2 world0 (ok_response page1) page1); reflexivity.
Defined.



(** X15.  The totals the run reports are those of the file: when the
    streaming block completes, the last line printed is the [Done] line,
    and the item count it gives, which is the loop's [items_total], is the
    number of elements of the array the file reads as. *)
Theorem reported_totals_match_file E fuel session out w :
  wf_net E ->
  returned (fst (stream_to_file E fuel session out w)) = true ->
  exists st items evs tot,
    fst (stream_to_file E fuel session out w) = Ret st /\
    fs (snd (stream_to_file E fuel session out w)) out = Some (render items) /\
    loads (render items) = Some (JArr items) /\
    items_total st = Z.of_nat (List.length items) /\
    trace (snd (stream_to_file E fuel session out w))
    = trace w
        ++ evs ++ [EOut (MDone (pages st) (Z.of_nat (List.length items)) tot)].
Proof.
  intros Hnet Hret.
  destruct (stream_to_file E fuel session out w) as [r w'] eqn:Hrun.
  destruct (stream_to_file_footprint Hrun)
    as (items & evs & Hwf & Ht & _ & _ & _ & Hres).
  destruct r as [st|e|]; try discriminate.
  destruct Hres as (Hf & Hit & evs0 & tot & Hev).
  exists st, items, evs0, tot. cbn [fst snd].
  split; [reflexivity|]. split; [exact Hf|].
  split; [apply loads_render; auto|]. split; [exact Hit|].
  now rewrite Ht, Hev, Hit.
Qed.

Lemma reported_totals_match_file_witness :
  exists st items evs tot,
    fst (stream_to_file (demo_env (Some "t"%string) true (serve sparse_pages))
           6 demo_session "out.json" world0) = Ret st /\
    fs (snd (stream_to_file
               (demo_env (Some "t"%string) true (serve sparse_pages))
               6 demo_session "out.json" world0)) "out.json"%string
    = Some (render items) /\
    loads (render items) = Some (JArr items) /\
    items_total st = Z.of_nat (List.length items) /\
    trace (snd (stream_to_file
                  (demo_env (Some "t"%string) true (serve sparse_pages))
                  6 demo_session "out.json" world0))
    = trace world0
        ++ evs ++ [EOut (MDone (pages st) (Z.of_nat (List.length items)) tot)].
Proof.
  apply (@reported_totals_match_file
           (demo_env (Some "t"%string) true (serve sparse_pages))
           6 demo_session "out.json" world0).
  - apply wf_net_serve with (ps := sparse_pages); reflexivity.
  - vm_compute. reflexivity.
Defined.

(** X16.  A first answer [200] whose body is no object, or whose [items]
    is [null], a number or a boolean, fails the run: [data.get] or the
    [for] loop raises ([AttributeError], [TypeError]), the status is 2,
    and the file holds the opening bracket and nothing else.  (A page that
    has no [items] at all is an empty page.) *)
Theorem malformed_page_aborts_run E fuel w r data e :
  token_rejected E = false ->
  net E (gets w) (first_request E (session_of E)) = inr r ->
  status_code r = 200%Z -> json_body r = inr data ->
  page_error data = Some e ->
  exit_status (fst (main E (S fuel) w)) = Some 2%Z /\
  gets (snd (main E (S fuel) w)) = gets w + 1 /\
  fs (snd (main E (S fuel) w)) (out_path_of (ts_local E))
  = Some ["["%char; NL] /\
  exists tr, trace (snd (main E (S fuel) w)) = tr ++ [EErr (MFailed e)].
Proof.
  intros Ht Hn Hs Hb He. rewrite (main_accepted (S fuel) w Ht).
  set (out := out_path_of (ts_local E)).
  set (w0 := log_event _ w).
  rewrite (@stream_to_file_first_page E fuel (session_of E) out w0 r data
             e _ Hn Hs Hb (page_step_error _ _ _ _ He)).
  cbn [fst snd exit_status log_event gets fs trace].
  split; [reflexivity|]. split; [cbn; lia|].
  split; [cbn; now rewrite !String.eqb_refl|].
  eexists. reflexivity.
Qed.

Lemma malformed_page_aborts_run_witness :
  let E := demo_env (Some "t"%string) true
             (serve [JObj [("items"%string, JNull)]]) in
  exit_status (fst (main E 3 world0)) = Some 2%Z /\
  gets (snd (main E 3 world0)) = 0 + 1 /\
  fs (snd (main E 3 world0)) (out_path_of (ts_local E))
  = Some ["["%char; NL] /\
  exists tr, trace (snd (main E 3 world0)) = tr ++ [EErr (MFailed TypeError)].
Proof.
  apply (@malformed_page_aborts_run
           (demo_env (Some "t"%string) true
              (serve [JObj [("items"%string, JNull)]]))
           2 world0 (ok_response (JObj [("items"%string, JNull)]))
           (JObj [("items"%string, JNull)]) TypeError); reflexivity.
Defined.

(** ** The whole run *)

(** X17.  No request leaves without the token: every request of a run
    carries the five headers [_session] sets, [Authorization] being
    [Bearer] and the token; and when the token check fails no request is
    made at all. *)
Theorem requests_carry_session_headers E fuel w :
  exists evs,
    trace (snd (main E fuel w)) = trace w ++ evs /\
    gets (snd (main E fuel w)) = gets w + List.length (requests evs) /\
    Forall (fun rq =>
              req_headers rq = session_of E /\
              lookup_header "Authorization" (req_headers rq)
              = Some ("Bearer " ++ TOKEN E)%string)
      (requests evs) /\
    (token_rejected E = true -> requests evs = []).
Proof.
  destruct (token_rejected E) eqn:Ht.
  - exists [EErr MTokenError]. unfold main, try_except.
    rewrite (stream_all_rejected fuel w Ht). cbn.
    repeat split; auto.
  - rewrite (main_accepted fuel w Ht).
    set (out := out_path_of (ts_local E)).
    set (w0 := log_event _ w).
    destruct (stream_to_file E fuel (session_of E) out w0) as [r w1] eqn:Hrun.
    destruct (stream_to_file_footprint Hrun)
      as (items & evs & _ & Ht1 & Hh & Hg & _ & _).
    assert (Hh' : Forall (fun rq =>
                            req_headers rq = session_of E /\
                            lookup_header "Authorization" (req_headers rq)
                            = Some ("Bearer " ++ TOKEN E)%string)
                    (requests evs)).
    { eapply Forall_impl; [|exact Hh]. intros rq ->. split; reflexivity. }
    destruct (reformat_footprint E out w1) as (evs2 & _ & Ht2 & Hr2 & _ & Hg2).
    unfold w0 in Ht1, Hg. cbn [log_event trace gets] in Ht1, Hg.
    destruct r as [st|[c|e]|]; cbn [snd log_event trace gets].
    + exists (([EOut (MStart BASE_URL (PAGE_SIZE E) out)] ++ evs) ++ evs2
                ++ [EOut (MWrote out)]).
      rewrite Ht2, Ht1, Hg2, Hg, !requests_app, Hr2, <- !app_assoc.
      cbn [requests flat_map app]. rewrite !app_nil_r.
      repeat split; auto; discriminate.
    + exists ([EOut (MStart BASE_URL (PAGE_SIZE E) out)] ++ evs).
      rewrite Ht1, Hg, !requests_app, <- !app_assoc. cbn [requests flat_map app].
      repeat split; auto; discriminate.
    + exists (([EOut (MStart BASE_URL (PAGE_SIZE E) out)] ++ evs)
                ++ [EErr (MFailed e)]).
      rewrite Ht1, Hg, !requests_app, <- !app_assoc. cbn [requests flat_map app].
      rewrite !app_nil_r. repeat split; auto; discriminate.
    + exists ([EOut (MStart BASE_URL (PAGE_SIZE E) out)] ++ evs).
      rewrite Ht1, Hg, !requests_app, <- !app_assoc. cbn [requests flat_map app].
      repeat split; auto; discriminate.
Qed.

(** X18.  [main] lets no exception escape, and standard error tells the
    status: a run ends with status 0 and nothing on standard error, or with
    status 1 or 2 and one line on standard error, the last thing it
    prints. *)
Theorem main_exit_codes E fuel w :
  exists evs,
    trace (snd (main E fuel w)) = trace w ++ evs /\
    match fst (main E fuel w) with
    | Ret _ => no_stderr evs = true
    | Raise (SystemExit c) =>
        (c = 1%Z \/ c = 2%Z) /\
        exists evs0 m, evs = evs0 ++ [EErr m] /\ no_stderr evs0 = true
    | Raise (Exc _) => False
    | OutOfFuel => no_stderr evs = true
    end.
Proof.
  destruct (token_rejected E) eqn:Ht.
  - exists [EErr MTokenError]. unfold main, try_except.
    rewrite (stream_all_rejected fuel w Ht). cbn.
    split; [reflexivity|]. split; [now left|]. now exists [], MTokenError.
  - rewrite (main_accepted fuel w Ht).
    set (out := out_path_of (ts_local E)).
    set (w0 := log_event _ w).
    destruct (stream_to_file E fuel (session_of E) out w0) as [r w1] eqn:Hrun.
    destruct (stream_to_file_footprint Hrun)
      as (items & evs & _ & Ht1 & _ & _ & He & Hres).
    destruct (reformat_footprint E out w1)
      as (evs2 & _ & Ht2 & _ & He2 & _).
    unfold w0 in Ht1. cbn [log_event trace] in Ht1.
    destruct r as [st|[c|e]|]; cbn [fst snd log_event trace].
    + exists (([EOut (MStart BASE_URL (PAGE_SIZE E) out)] ++ evs) ++ evs2
                ++ [EOut (MWrote out)]).
      rewrite Ht2, Ht1, !no_stderr_app, He, He2, <- !app_assoc.
      split; reflexivity.
    + destruct Hres as [_ []].
    + exists (([EOut (MStart BASE_URL (PAGE_SIZE E) out)] ++ evs)
                ++ [EErr (MFailed e)]).
      rewrite Ht1, <- !app_assoc. split; [reflexivity|].
      split; [now right|].
      exists ([EOut (MStart BASE_URL (PAGE_SIZE E) out)] ++ evs), (MFailed e).
      rewrite <- !app_assoc, no_stderr_app, He. split; reflexivity.
    + exists ([EOut (MStart BASE_URL (PAGE_SIZE E) out)] ++ evs).
      rewrite Ht1, no_stderr_app, He, <- !app_assoc. split; reflexivity.
Qed.

(** X19.  A run writes one file and no other: every file but
    [vulnerable_devices_<timestamp>.json] is after the run what it was
    before, however the run ends. *)
Theorem main_writes_only_its_output E fuel w p :
  p <> out_path_of (ts_local E) ->
  fs (snd (main E fuel w)) p = fs w p.
Proof.
  intros Hp. destruct (writes_only_main E fuel w) as [H _]. now apply H.
Qed.

Lemma main_writes_only_its_output_witness :
  fs (snd (main (demo_env (Some "t"%string) false (serve demo_pages)) 3
             (fs_set "vulnerable_devices_20250101_0929.json" (render [])
                world0)))
    "vulnerable_devices_20250101_0929.json"%string
  = fs (fs_set "vulnerable_devices_20250101_0929.json" (render []) world0)
      "vulnerable_devices_20250101_0929.json"%string.
Proof.
  apply (@main_writes_only_its_output
           (demo_env (Some "t"%string) false (serve demo_pages)) 3
           (fs_set "vulnerable_devices_20250101_0929.json" (render [])
              world0)
           "vulnerable_devices_20250101_0929.json"%string).
  discriminate.
Defined.

(** X20.  The retries are counted for each page, not for the run: against
    a server that fails the request for every page once and sends the page
    on the second try, the streaming block completes however many pages
    there are, with two requests and one sleep a page, and the file holds
    all the items. *)
Theorem retry_budget_is_per_page E session out ps fuel w :
  LOG_EVERY E <> 0%Z -> chain ps = true ->
  served_on_second_try E (gets w) ps ->
  List.length ps <= fuel -> 2 <= fuel ->
  exists st w',
    stream_to_file E fuel session out w = (Ret st, w') /\
    fs w' out = Some (render (all_items ps)) /\
    gets w' = gets w + 2 * List.length ps /\
    List.length (sleeps (trace w'))
    = List.length (sleeps (trace w)) + List.length ps.
Proof.
  intros Hlog Hch Hsv Hfuel H2.
  destruct fuel as [|[|ffuel]]; try lia.
  unfold stream_to_file, bind. cbn [f_open_w f_write].
  set (w0 := fs_set out _ (fs_set out [] w)).
  assert (Hc : fs w0 out = Some ["["%char; NL]).
  { unfold w0. simpl. now rewrite !String.eqb_refl. }
  destruct (@stream_loop_second_try E session out ffuel ps Hlog (loop_vars0 E)
              w0 _ (S (S ffuel)) Hch Hsv Hc Hfuel)
    as (st & w1 & Hrun & Hf & Hg & Hs).
  rewrite Hrun. eexists st, _. split; [reflexivity|].
  cbn [fs fs_set gets trace]. rewrite String.eqb_refl, Hf.
  split; [now rewrite render_items|]. split; [exact Hg|exact Hs].
Qed.

Lemma retry_budget_is_per_page_witness :
  exists st w',
    stream_to_file (demo_env (Some "t"%string) true (stubborn seven_pages)) 7
      demo_session "out.json" world0 = (Ret st, w') /\
    fs w' "out.json"%string = Some (render (all_items seven_pages)) /\
    gets w' = 0 + 2 * 7 /\
    List.length (sleeps (trace w')) = 0 + 7.
Proof.
  apply (@retry_budget_is_per_page
           (demo_env (Some "t"%string) true (stubborn seven_pages))
           demo_session "out.json" seven_pages 7 world0).
  - discriminate.
  - reflexivity.
  - apply served_on_second_try_stubborn; reflexivity.
  - simpl. lia.
  - lia.
Defined.

(** X21.  The page size goes with the first request only: in a run over
    the pages [ps], the first request carries [top=PAGE_SIZE], and every
    later one carries no parameter at all. *)
Theorem page_size_goes_with_first_request E session out ps fuel w :
  LOG_EVERY E <> 0%Z -> chain ps = true -> served_from E (gets w) ps ->
  List.length ps <= fuel ->
  exists st w',
    stream_to_file E fuel session out w = (Ret st, w') /\
    map req_params (requests (trace w'))
    = map req_params (requests (trace w))
        ++ Some [("top"%string, PAGE_SIZE E)]
        :: repeat None (List.length ps - 1).
Proof.
  intros Hlog Hch Hsv Hfuel.
  destruct (stream_to_file_served session out Hlog Hch Hsv Hfuel)
    as (st & w' & Hrun & _ & _ & Hrq & _).
  exists st, w'. split; [exact Hrun|].
  rewrite Hrq, map_app. f_equal.
  destruct ps as [|p ps]; [discriminate|].
  replace (List.length (p :: ps) - 1) with (List.length ps)
    by (cbn [List.length]; lia).
  cbn [reqs map req_params]. f_equal.
  generalize (link p). clear.
  induction ps as [|q ps IH]; intros u; [reflexivity|].
  cbn [reqs map req_params List.length repeat]. f_equal. apply IH.
Qed.

Lemma page_size_goes_with_first_request_witness :
  exists st w',
    stream_to_file (demo_env (Some "t"%string) true (serve demo_pages)) 3
      demo_session "out.json" world0 = (Ret st, w') /\
    map req_params (requests (trace w'))
    = [] ++ Some [("top"%string, 200%Z)] :: repeat None (3 - 1).
Proof.
  apply (@page_size_goes_with_first_request
           (demo_env (Some "t"%string) true (serve demo_pages))
           demo_session "out.json" demo_pages 3 world0).
  - discriminate.
  - reflexivity.
  - apply served_serve. reflexivity.
  - simpl. lia.
Defined.

(** ** Durations as text *)

Lemma fmt_02d_two_digits z :
  (0 <= z < 100)%Z -> String.length (fmt_02d z) = 2.
Proof.
  intros Hz.
  assert (H : forallb (fun n => Nat.eqb (String.length (fmt_02d (Z.of_nat n))) 2)
                (seq 0 100) = true) by (vm_compute; reflexivity).
  rewrite forallb_forall in H. specialize (H (Z.to_nat z)).
  rewrite Z2Nat.id in H by lia. apply Nat.eqb_eq, H. apply in_seq. lia.
Qed.

(** X22.  From one minute on, [_fmt_secs] prints whole seconds as
    [<m>m<ss>s], and from one hour on as [<h>h<mm>m<ss>s]: minutes and
    seconds are below 60 and take two digits each, and hours, minutes and
    seconds add up to the duration, its fraction dropped. *)
Theorem fmt_secs_recomposes q :
  (60 <= q)%Q ->
  exists h m sec,
    (0 <= h)%Z /\ (0 <= m < 60)%Z /\ (0 <= sec < 60)%Z /\
    (h * 3600 + m * 60 + sec)%Z = Qfloor q /\
    (h = 0%Z -> (1 <= m)%Z) /\
    String.length (fmt_02d m) = 2 /\ String.length (fmt_02d sec) = 2 /\
    _fmt_secs (Finite q)
    = inr (if (h =? 0)%Z
           then str_int m ++ "m" ++ fmt_02d sec ++ "s"
           else str_int h ++ "h" ++ fmt_02d m ++ "m" ++ fmt_02d sec ++ "s")%string.
Proof.
  destruct q as [n d]. intros Hq.
  assert (Hle : (60 * Zpos d <= n)%Z).
  { unfold Qle in Hq. cbn [Qnum Qden] in Hq. lia. }
  unfold _fmt_secs, float_lt_int.
  assert (Hb : Qle_bool (inject_Z 60) (n # d) = true)
    by (apply Qle_bool_iff; exact Hq).
  rewrite Hb. cbn [negb int_of_float Qnum Qden Qfloor].
  rewrite Z.quot_div_nonneg by lia.
  set (t := (n / Zpos d)%Z).
  assert (Ht : (60 <= t)%Z).
  { unfold t. apply Z.div_le_lower_bound; lia. }
  clearbody t. cbv zeta.
  destruct (t / 60 <? 60)%Z eqn:Hm.
  - apply Z.ltb_lt in Hm.
    exists 0%Z, (t / 60)%Z, (t mod 60)%Z.
    assert (H1 : (0 <= t / 60 < 60)%Z)
      by (split; [apply Z.div_pos; lia|exact Hm]).
    assert (H2 : (0 <= t mod 60 < 60)%Z) by (apply Z.mod_pos_bound; lia).
    assert (H3 : (1 <= t / 60)%Z) by (apply Z.div_le_lower_bound; lia).
    pose proof (Z.div_mod t 60 ltac:(lia)) as H4.
    repeat split; try lia; try (apply fmt_02d_two_digits; lia).
  - apply Z.ltb_ge in Hm.
    exists (t / 60 / 60)%Z, (t / 60 mod 60)%Z, (t mod 60)%Z.
    assert (H1 : (1 <= t / 60 / 60)%Z) by (apply Z.div_le_lower_bound; lia).
    assert (H2 : (0 <= t mod 60 < 60)%Z) by (apply Z.mod_pos_bound; lia).
    assert (H3 : (0 <= t / 60 mod 60 < 60)%Z) by (apply Z.mod_pos_bound; lia).
    pose proof (Z.div_mod t 60 ltac:(lia)) as H4.
    pose proof (Z.div_mod (t / 60) 60 ltac:(lia)) as H5.
    assert (H6 : (t / 60 / 60 =? 0)%Z = false) by (apply Z.eqb_neq; lia).
    rewrite H6.
    repeat split; try lia; try (apply fmt_02d_two_digits; lia).
Qed.

Lemma fmt_secs_recomposes_witness :
  exists h m sec,
    (0 <= h)%Z /\ (0 <= m < 60)%Z /\ (0 <= sec < 60)%Z /\
    (h * 3600 + m * 60 + sec)%Z = Qfloor (7384 # 1) /\
    (h = 0%Z -> (1 <= m)%Z) /\
    String.length (fmt_02d m) = 2 /\ String.length (fmt_02d sec) = 2 /\
    _fmt_secs (Finite (7384 # 1))
    = inr (if (h =? 0)%Z
           then str_int m ++ "m" ++ fmt_02d sec ++ "s"
           else str_int h ++ "h" ++ fmt_02d m ++ "m" ++ fmt_02d sec ++ "s")%string.
Proof.
  apply (@fmt_secs_recomposes (7384 # 1)).
  unfold Qle. simpl. lia.
Defined.

(** X23.  Just under a minute the text overshoots: a duration from 59.95
    seconds up to, but not reaching, 60 seconds takes the branch for less
    than a minute and is rounded to one decimal, so it is printed [60.0s],
    not [1m00s]. *)
Theorem fmt_secs_rounds_up_to_sixty q :
  (5995 # 100 <= q)%Q -> (q < 60)%Q ->
  _fmt_secs (Finite q) = inr "60.0s"%string.
Proof.
  destruct q as [n d]. intros Hlo Hhi.
  unfold Qle in Hlo. unfold Qlt in Hhi. cbn [Qnum Qden] in Hlo, Hhi.
  unfold _fmt_secs, float_lt_int.
  assert (Hb : Qle_bool (inject_Z 60) (n # d) = false).
  { destruct (Qle_bool (inject_Z 60) (n # d)) eqn:Hb; [|reflexivity].
    apply Qle_bool_iff in Hb. unfold Qle in Hb. cbn [Qnum Qden inject_Z] in Hb.
    lia. }
  rewrite Hb. cbn [negb fmt_1f Qnum Qden].
  assert (Hn : (n <? 0)%Z = false) by (apply Z.ltb_ge; lia).
  rewrite Hn, Z.abs_eq by lia.
  assert (Hfl : (n * 10 / Zpos d = 599)%Z).
  { symmetry. apply Z.div_unique with (r := (n * 10 - 599 * Zpos d)%Z); lia. }
  assert (Hr : ((n * 10) mod Zpos d = n * 10 - 599 * Zpos d)%Z).
  { symmetry. apply Z.mod_unique with (q := 599%Z); lia. }
  assert (Ht : round_half_even (n * 10) (Zpos d) = 600%Z).
  { unfold round_half_even. rewrite Hfl, Hr.
    destruct (2 * (n * 10 - 599 * Zpos d) <? Zpos d)%Z eqn:H1.
    - apply Z.ltb_lt in H1. lia.
    - destruct (Zpos d <? 2 * (n * 10 - 599 * Zpos d))%Z; reflexivity. }
  rewrite Ht. reflexivity.
Qed.

Lemma fmt_secs_rounds_up_to_sixty_witness :
  _fmt_secs (Finite (5996 # 100)) = inr "60.0s"%string.
Proof.
  apply (@fmt_secs_rounds_up_to_sixty (5996 # 100)).
  - unfold Qle. simpl. lia.
  - unfold Qlt. simpl. lia.
Defined.

(** X24.  [_fmt_secs] returns a text for every finite duration; it raises
    on [nan] ([ValueError]) and on plus infinity ([OverflowError]), where
    [int] fails, and on nothing else: minus infinity is printed as it
    is. *)
Theorem fmt_secs_raises_on_nan_and_infinity s :
  ((exists e, _fmt_secs s = inl e) <-> s = NaN \/ s = Inf false) /\
  _fmt_secs NaN = inl ValueError /\
  _fmt_secs (Inf false) = inl OverflowError /\
  _fmt_secs (Inf true) = inr "-infs"%string.
Proof.
  split; [|repeat split]. split.
  - intros [e He]. destruct s as [q| |[|]]; auto; exfalso.
    + unfold _fmt_secs in He.
      destruct (float_lt_int (Finite q) 60); [discriminate|].
      cbn [int_of_float] in He. cbv zeta in He.
      destruct (_ <? 60)%Z; discriminate.
    + discriminate.
  - intros [-> | ->]; eexists; reflexivity.
Qed.

End Behaviour.
